(** * Reflex: a reaction-time game for the LPC1343 base board

    A shallow embedding of the control layer of [src/src/main.c] (the first,
    most complete revision in that file: lines 1-766) together with the
    properties that its design document states about it.

    The C program is a single thread of control that polls peripherals and
    blocks in delays.  It is modelled in a state-and-failure monad over a
    [World] that carries

    - the samples the peripherals will deliver (joystick, light sensor,
      accelerometer, [rand]), one list per device, consumed one per read;
    - the program's static variables and the EEPROM contents;
    - a logical clock in microseconds, advanced only by the delay calls;
    - the chronological list of output events (speaker pin, display, LEDs).

    A computation yields [None] when it would block for ever on the recorded
    inputs (a wait loop that runs out of samples), when a loop of the
    program does not terminate, or when the C program leaves its behaviour
    undefined (a write past the end of an array): the model gives such a
    run no outcome. *)

From Stdlib Require Import ZArith List Bool String Lia.
From stdpp Require Import base tactics functions list.

Import ListNotations.
Local Open Scope Z_scope.

(** ** Fixed-width integers

    C integers are modelled as [Z]; every conversion to a narrower type is
    written out. *)

Definition to_uint8 (v : Z) : Z := v mod 2 ^ 8.
Definition to_uint16 (v : Z) : Z := v mod 2 ^ 16.
Definition to_uint32 (v : Z) : Z := v mod 2 ^ 32.

(** Conversion to [int8_t]: two's-complement wrap-around, as the ARM
    compilers implement it. *)
Definition to_int8 (v : Z) : Z := (v + 2 ^ 7) mod 2 ^ 8 - 2 ^ 7.

(** C truth value of an integer expression. *)
Definition nonzero (v : Z) : bool := negb (v =? 0).

(** ** Board support constants

    [joystick.h] is not part of the sources: the three bit masks that the
    program tests are parameters of the development. *)

Class Board : Type := {
  JOYSTICK_CENTER : Z;
  JOYSTICK_UP : Z;
  JOYSTICK_DOWN : Z
}.

(** The masks of the 5-way joystick of the base board, used to run the model
    on concrete inputs. *)
Definition xpresso_board : Board :=
  {| JOYSTICK_CENTER := 0x01; JOYSTICK_UP := 0x02; JOYSTICK_DOWN := 0x04 |}.

(** Modelled from the spec: [oled_color_t] is declared in [oled.h], which is
    not part of the sources; the program uses exactly these two values. *)
Inductive oled_color_t : Type :=
| OLED_COLOR_BLACK
| OLED_COLOR_WHITE.

Global Instance oled_color_eq_dec : EqDecision oled_color_t.
Proof. solve_decision. Defined.

(** ** Program state *)

(** [TiltState] of the source. *)
Record TiltState : Type := mkTilt {
  xOffset : Z;
  yOffset : Z;
  zOffset : Z;
  tilt_x : Z;
  tilt_y : Z;
  tilt_z : Z
}.

(** The two static colour variables [fontColor] and [backgroundColor]. *)
Record Theme : Type := mkTheme {
  fontColor : oled_color_t;
  backgroundColor : oled_color_t
}.

Global Instance Theme_eq_dec : EqDecision Theme.
Proof. solve_decision. Defined.

Definition night_theme : Theme := mkTheme OLED_COLOR_WHITE OLED_COLOR_BLACK.
Definition day_theme : Theme := mkTheme OLED_COLOR_BLACK OLED_COLOR_WHITE.

(** Calls to the display driver.  Pixel work is outside the model: a call is
    recorded with the values the program passes. *)
Inductive oled_op : Type :=
| OledClear (bg : oled_color_t)
| OledText (text : string) (fg bg : oled_color_t)
| OledValue (label : string) (v : Z) (fg bg : oled_color_t)
| OledMenu (selected : Z) (fg bg : oled_color_t)
| OledCircle (filled : bool) (radius : Z) (color : oled_color_t).

(** Everything the program does to the outside world. *)
Inductive event : Type :=
| EvPinHigh                    (* P1_2_HIGH() *)
| EvPinLow                     (* P1_2_LOW() *)
| EvDelayUs (n : Z)            (* delay32Us(0, n) *)
| EvDelayMs (n : Z)            (* delay32Ms(0, n) *)
| EvOled (op : oled_op)
| EvLeds (mask : Z)            (* pca9532_setLeds(mask, 0xffff) *)
| EvLed7seg (c : Z).           (* led7seg_setChar(c, FALSE) *)

(** Samples that the peripherals will deliver, in the order of the reads. *)
Record Inputs : Type := mkInputs {
  joy_in : list Z;
  light_in : list Z;
  acc_in : list (Z * Z * Z);
  rand_in : list Z
}.

Record World : Type := mkWorld {
  inputs : Inputs;
  eeprom : Z -> Z;          (* byte stored at each EEPROM offset *)
  theme : Theme;
  tilt : TiltState;
  selectedIndex : Z;
  clock_us : Z;             (* logical time, microseconds *)
  timer1_start : Z;         (* clock value when timer32_1 was last started *)
  out : list event
}.

Definition set_inputs (i : Inputs) (w : World) : World :=
  mkWorld i (eeprom w) (theme w) (tilt w) (selectedIndex w)
          (clock_us w) (timer1_start w) (out w).
Definition set_eeprom (e : Z -> Z) (w : World) : World :=
  mkWorld (inputs w) e (theme w) (tilt w) (selectedIndex w)
          (clock_us w) (timer1_start w) (out w).
Definition set_theme (t : Theme) (w : World) : World :=
  mkWorld (inputs w) (eeprom w) t (tilt w) (selectedIndex w)
          (clock_us w) (timer1_start w) (out w).
Definition set_tilt (t : TiltState) (w : World) : World :=
  mkWorld (inputs w) (eeprom w) (theme w) t (selectedIndex w)
          (clock_us w) (timer1_start w) (out w).
Definition set_selectedIndex (i : Z) (w : World) : World :=
  mkWorld (inputs w) (eeprom w) (theme w) (tilt w) i
          (clock_us w) (timer1_start w) (out w).
Definition set_clock_us (c : Z) (w : World) : World :=
  mkWorld (inputs w) (eeprom w) (theme w) (tilt w) (selectedIndex w)
          c (timer1_start w) (out w).
Definition set_timer1_start (c : Z) (w : World) : World :=
  mkWorld (inputs w) (eeprom w) (theme w) (tilt w) (selectedIndex w)
          (clock_us w) c (out w).
Definition set_out (o : list event) (w : World) : World :=
  mkWorld (inputs w) (eeprom w) (theme w) (tilt w) (selectedIndex w)
          (clock_us w) (timer1_start w) o.

(** ** The monad *)

Definition M (A : Type) : Type := World -> option (A * World).

Global Instance M_ret : MRet M := fun A a w => Some (a, w).
Global Instance M_bind : MBind M := fun A B k m w =>
  match m w with
  | Some (a, w') => k a w'
  | None => None
  end.

(** No result: the program blocks or loops for ever. *)
Definition stuck {A : Type} : M A := fun _ => None.

(** No result either: the C standard leaves the behaviour of the program
    undefined from this point on, and the model claims nothing about it. *)
Definition undefined {A : Type} : M A := fun _ => None.

Definition get {A : Type} (f : World -> A) : M A := fun w => Some (f w, w).
Definition modify (f : World -> World) : M unit := fun w => Some (tt, f w).

Definition emit (e : event) : M unit :=
  modify (fun w => set_out (out w ++ [e]) w).

(** ** Peripheral drivers (outside [src/]) *)

(** Modelled from the spec: [delay32Ms] and [delay32Us] of [timer32.c] block
    for the given time; it is the only way logical time advances. *)
Definition delay32Us (n : Z) : M unit :=
  emit (EvDelayUs n);;
  modify (fun w => set_clock_us (clock_us w + n) w).

Definition delay32Ms (n : Z) : M unit :=
  emit (EvDelayMs n);;
  modify (fun w => set_clock_us (clock_us w + 1000 * n) w).

(** Modelled from the spec: the input device's [readState() -> bitfield],
    polled; each call takes the next recorded sample as a [uint8_t]. *)
Definition joystick_read : M Z := fun w =>
  match joy_in (inputs w) with
  | [] => None
  | j :: js =>
      Some (to_uint8 j,
            set_inputs (mkInputs js (light_in (inputs w)) (acc_in (inputs w))
                                 (rand_in (inputs w))) w)
  end.

(** Modelled from the spec: [readBrightness() -> integer], higher is
    brighter; the program stores the result in a [uint32_t]. *)
Definition light_read : M Z := fun w =>
  match light_in (inputs w) with
  | [] => None
  | l :: ls =>
      Some (to_uint32 l,
            set_inputs (mkInputs (joy_in (inputs w)) ls (acc_in (inputs w))
                                 (rand_in (inputs w))) w)
  end.

(** Modelled from the spec: [readAxes() -> (x, y, z)], signed small
    integers, written through [int8_t] pointers into [tilt]. *)
Definition acc_read : M unit := fun w =>
  match acc_in (inputs w) with
  | [] => None
  | (x, y, z) :: rest =>
      let t := tilt w in
      Some (tt,
            set_tilt (mkTilt (xOffset t) (yOffset t) (zOffset t)
                             (to_int8 x) (to_int8 y) (to_int8 z))
              (set_inputs (mkInputs (joy_in (inputs w)) (light_in (inputs w))
                                    rest (rand_in (inputs w))) w))
  end.

(** [rand()] of the C library: the next recorded draw. *)
Definition rand : M Z := fun w =>
  match rand_in (inputs w) with
  | [] => None
  | r :: rs =>
      Some (r,
            set_inputs (mkInputs (joy_in (inputs w)) (light_in (inputs w))
                                 (acc_in (inputs w)) rs) w)
  end.

(** Modelled from the spec: [writeBytes(address, length, data)] and
    [readBytes(address, length)] of the persistent store ([eeprom.c]), here
    for the two-byte transfers the program makes. *)
Definition eeprom_write2 (b0 b1 : Z) (offset : Z) : M unit :=
  modify (fun w => set_eeprom (<[offset + 1 := b1]> (<[offset := b0]> (eeprom w))) w).

Definition eeprom_read2 (offset : Z) : M (Z * Z) :=
  get (fun w => (to_uint8 (eeprom w offset), to_uint8 (eeprom w (offset + 1)))).

(** Timer32_1 as [measure_reaction_time] programs it: reset, prescaled to
    one tick per millisecond, started. *)
Definition timer1_reset_start : M unit :=
  modify (fun w => set_timer1_start (clock_us w) w).

(** [LPC_TMR32B1->TC]: whole milliseconds since the start, in 32 bits. *)
Definition timer1_TC : M Z :=
  get (fun w => to_uint32 ((clock_us w - timer1_start w) / 1000)).

(** ** ScoreStore *)

(** [set_high_score], main.c:387.  The argument is converted to the
    [uint16_t] parameter at the call. *)
Definition set_high_score (arg : Z) : M unit :=
  let value := to_uint16 arg in
  let buf0 := to_uint8 (Z.shiftr (Z.land value 0xFF00) 8) in
  let buf1 := to_uint8 (Z.land value 0x00FF) in
  eeprom_write2 buf0 buf1 8.

(** [read_high_score], main.c:404. *)
Definition read_high_score : M Z :=
  '(readBuf0, readBuf1) ← eeprom_read2 8;
  mret (to_uint16 (Z.lor (Z.shiftl readBuf0 8) readBuf1)).

(** ** AudioFeedback *)

(** The note table, periods in microseconds. *)
Definition notes : list Z :=
  [2272; 2024; 3816; 3401; 3215; 3030; 2865; 2703; 2551; 2146;
   1136; 1012; 1912; 1703; 1517; 1432; 1275].

Definition note_at (i : nat) : Z := nth i notes 0.

(** The [while] loop of [play_note], main.c:365-371; [limit] is the value of
    [durationMs * 1000] and [t] the 32-bit counter.  The loop need not
    terminate when [t] wraps around, hence the fuel. *)
Fixpoint play_note_loop (fuel : nat) (note limit t : Z) : M unit :=
  if t <? limit then
    match fuel with
    | O => stuck
    | S fuel' =>
        emit EvPinHigh;;
        delay32Us (note / 4);;
        emit EvPinLow;;
        delay32Us (note / 4);;
        play_note_loop fuel' note limit (to_uint32 (t + note))
    end
  else mret tt.

(** [play_note], main.c:361.  The passes of a run that terminates find
    pairwise distinct values of [t] below [limit], so [limit] passes of
    fuel lose no such run ([play_note_loop_fuel_adequate] below). *)
Definition play_note (note_arg durationMs_arg : Z) : M unit :=
  let note := to_uint32 note_arg in
  let durationMs := to_uint32 durationMs_arg in
  if 0 <? note then
    let limit := to_uint32 (durationMs * 1000) in
    play_note_loop (Z.to_nat limit) note limit 0
  else
    delay32Ms durationMs.

(** ** ThemeAdapter *)

(** [adjust_theme], main.c:196. *)
Definition adjust_theme : M Z :=
  reading ← light_read;
  prev_fontColor ← get (fun w => fontColor (theme w));
  (if reading <? 125 then
     modify (fun w => set_theme (mkTheme OLED_COLOR_WHITE (backgroundColor (theme w))) w);;
     modify (fun w => set_theme (mkTheme (fontColor (theme w)) OLED_COLOR_BLACK) w)
   else
     modify (fun w => set_theme (mkTheme OLED_COLOR_BLACK (backgroundColor (theme w))) w);;
     modify (fun w => set_theme (mkTheme (fontColor (theme w)) OLED_COLOR_WHITE) w));;
  now_fontColor ← get (fun w => fontColor (theme w));
  if decide (now_fontColor = prev_fontColor) then mret 0
  else
    play_note (note_at 0) 200;;
    mret 1.

(** ** TiltMonitor *)

(** [is_board_tilted], main.c:170.  The compound assignments compute in
    [int] and convert back to [int8_t]. *)
Definition is_board_tilted : M Z :=
  acc_read;;
  modify (fun w =>
    let t := tilt w in
    set_tilt (mkTilt (xOffset t) (yOffset t) (zOffset t)
                     (to_int8 (tilt_x t + xOffset t))
                     (to_int8 (tilt_y t + yOffset t))
                     (to_int8 (tilt_z t + zOffset t))) w);;
  t ← get tilt;
  if (tilt_x t >? 30) || (tilt_x t <? -30) || (tilt_y t >? 30) || (tilt_y t <? -30)
  then mret 1
  else mret 0.

(** [init_tilt_calibration], main.c:266. *)
Definition init_tilt_calibration : M unit :=
  acc_read;;
  modify (fun w =>
    let t := tilt w in
    set_tilt (mkTilt (to_int8 (- tilt_x t))
                     (to_int8 (- tilt_y t))
                     (to_int8 (64 - tilt_z t))
                     (tilt_x t) (tilt_y t) (tilt_z t)) w).

(** ** Display helpers *)

Definition oled_clearScreen : M unit :=
  bg ← get (fun w => backgroundColor (theme w));
  emit (EvOled (OledClear bg)).

(** [oled_putStringHorizontallyCentered], main.c:449, for a literal text. *)
Definition oled_putStringHorizontallyCentered (text : string) : M unit :=
  t ← get theme;
  emit (EvOled (OledText text (fontColor t) (backgroundColor t))).

(** The same after an [sprintf] of one unsigned value. *)
Definition oled_putValueHorizontallyCentered (label : string) (v : Z) : M unit :=
  t ← get theme;
  emit (EvOled (OledValue label v (fontColor t) (backgroundColor t))).

(** [draw_menu], main.c:145. *)
Definition draw_menu : M unit :=
  oled_clearScreen;;
  t ← get theme;
  sel ← get selectedIndex;
  emit (EvOled (OledMenu sel (fontColor t) (backgroundColor t))).

Definition draw_circle (radius : Z) : M unit :=
  t ← get theme;
  emit (EvOled (OledCircle false radius (fontColor t))).

Definition fill_circle (radius : Z) : M unit :=
  t ← get theme;
  emit (EvOled (OledCircle true radius (fontColor t))).

(** [set_led_bar_position], main.c:116, and [clear_led_bar], main.c:131. *)
Definition set_led_bar_position (pos : Z) : M unit :=
  emit (EvLeds (to_uint16 (Z.shiftl 1 (to_uint8 pos)))).

Definition clear_led_bar : M unit := emit (EvLeds 0).

Definition led7seg_setChar (c : Z) : M unit := emit (EvLed7seg (to_uint8 c)).

(** ** Text buffers *)

(** The number of characters that the conversion [%u] of [sprintf] prints
    for [n]: the decimal digits of [n], found by repeated division.  A
    [uint32_t] has at most ten of them. *)
Fixpoint decimal_length_from (fuel : nat) (n : Z) : Z :=
  match fuel with
  | O => 1
  | S fuel' => if n <? 10 then 1 else 1 + decimal_length_from fuel' (n / 10)
  end.

Definition decimal_length (n : Z) : Z := decimal_length_from 9 n.

(** [char reactionTimeMsString[5]] of [start_game], main.c:553, and the
    bytes that main.c:554-556 put into it, the terminating 0 included:
    [sprintf] with ["%u"] for the [uint32_t] time, then [strcat] with
    [" ms"]. *)
Definition reactionTimeMsString_size : Z := 5.

Definition reactionTimeMsString_bytes (reactionTimeMs : Z) : Z :=
  decimal_length (to_uint32 reactionTimeMs) + Z.of_nat (String.length " ms") + 1.

(** [sprintf(reactionTimeMsString, "%u", reactionTimeMs)], main.c:554, and
    [strcat(reactionTimeMsString, " ms")], main.c:556.  A text written
    within the array has no effect that the model records: the display call
    that follows carries the value.  A write past the end of the array
    leaves the behaviour of the program undefined. *)
Definition sprintf_reactionTimeMsString (reactionTimeMs : Z) : M unit :=
  if decimal_length (to_uint32 reactionTimeMs) + 1 <=? reactionTimeMsString_size
  then mret tt else undefined.

Definition strcat_reactionTimeMsString (reactionTimeMs : Z) : M unit :=
  if reactionTimeMsString_bytes reactionTimeMs <=? reactionTimeMsString_size
  then mret tt else undefined.

(** [char highScoreMsString[8]] of [show_welcome_screen], main.c:474, and of
    the entry "High score" of [show_main_menu], main.c:668, and the bytes
    that [sprintf] with ["%u ms"] puts into it for the [uint16_t] score,
    the terminating 0 included. *)
Definition highScoreMsString_size : Z := 8.

Definition highScoreMsString_bytes (highScoreMs : Z) : Z :=
  decimal_length (to_uint16 highScoreMs) + Z.of_nat (String.length " ms") + 1.

Definition MENU_ITEM_COUNT : Z := 5.

(** What one pass of the menu loop did with the joystick sample. *)
Inductive menu_action : Type :=
| NavDown
| NavUp
| Select
| NoAction.

Global Instance menu_action_eq_dec : EqDecision menu_action.
Proof. solve_decision. Defined.

Section Program.
Context {board : Board}.

(** ** ReactionTimer *)

(** The loop of [wait_for_joystick_center_click], main.c:283. *)
Fixpoint wait_loop (fuel : nat) : M unit :=
  match fuel with
  | O => stuck
  | S fuel' =>
      joy ← joystick_read;
      if Z.land joy JOYSTICK_CENTER =? 0 then
        delay32Ms 1;;
        wait_loop fuel'
      else mret tt
  end.

(** Every pass consumes one joystick sample, so one pass more than there
    are samples is never reached. *)
Definition wait_for_joystick_center_click : M unit := fun w =>
  wait_loop (S (length (joy_in (inputs w)))) w.

(** [measure_reaction_time], main.c:421. *)
Definition measure_reaction_time : M Z :=
  timer1_reset_start;;
  wait_for_joystick_center_click;;
  reactionTimeMs ← timer1_TC;
  mret reactionTimeMs.

(** ** MenuController *)

(** The part of the loop body of [handle_menu] after the joystick has been
    handled, main.c:623-633. *)
Definition handle_menu_background : M unit :=
  tilted ← is_board_tilted;
  (if nonzero tilted then
     set_high_score 9999;;
     oled_putStringHorizontallyCentered "Reset HS";;
     delay32Ms 500
   else mret tt);;
  changed ← adjust_theme;
  (if nonzero changed then draw_menu else mret tt);;
  delay32Ms 50.

(** One pass of the [while (1)] loop of [handle_menu], main.c:604-633, for
    the value of [previous_joy] left by the pass before.  The result names
    the branch taken and gives the sample, the next [previous_joy]. *)
Definition handle_menu_poll (previous_joy : Z) : M (menu_action * Z) :=
  joy ← joystick_read;
  if nonzero (Z.land joy JOYSTICK_DOWN) && negb (nonzero (Z.land previous_joy JOYSTICK_DOWN)) then
    modify (fun w => set_selectedIndex (Z.rem (selectedIndex w + 1) MENU_ITEM_COUNT) w);;
    draw_menu;;
    handle_menu_background;;
    mret (NavDown, joy)
  else if nonzero (Z.land joy JOYSTICK_UP) && negb (nonzero (Z.land previous_joy JOYSTICK_UP)) then
    modify (fun w => set_selectedIndex (Z.rem (selectedIndex w - 1 + MENU_ITEM_COUNT) MENU_ITEM_COUNT) w);;
    draw_menu;;
    handle_menu_background;;
    mret (NavUp, joy)
  else if nonzero (Z.land joy JOYSTICK_CENTER) && negb (nonzero (Z.land previous_joy JOYSTICK_CENTER)) then
    mret (Select, joy)
  else
    handle_menu_background;;
    mret (NoAction, joy).

Fixpoint handle_menu_loop (fuel : nat) (previous_joy : Z) : M Z :=
  match fuel with
  | O => stuck
  | S fuel' =>
      '(action, joy) ← handle_menu_poll previous_joy;
      match action with
      | Select => get selectedIndex
      | _ => handle_menu_loop fuel' joy
      end
  end.

(** [handle_menu], main.c:600. *)
Definition handle_menu : M Z := fun w =>
  handle_menu_loop (S (length (joy_in (inputs w)))) 0xFF w.

(** The first [n] passes of the loop, stopping early at a [Select]: the
    actions taken, oldest first, and the last sample seen. *)
Fixpoint handle_menu_polls (n : nat) (previous_joy : Z) : M (list menu_action * Z) :=
  match n with
  | O => mret ([], previous_joy)
  | S n' =>
      '(action, joy) ← handle_menu_poll previous_joy;
      match action with
      | Select => mret ([Select], joy)
      | _ =>
          '(actions, last) ← handle_menu_polls n' joy;
          mret (action :: actions, last)
      end
  end.

(** ** GameSession *)

(** The pre-stimulus hold computed from a draw of [rand()], main.c:543. *)
Definition randomDelay (r : Z) : Z := to_uint32 (Z.rem r 3000 + 500).

(** The Result step of a round, main.c:552-568, for the measured time and
    the local [highScoreMs]; returns the new value of [highScoreMs]. *)
Definition round_result (reactionTimeMs highScoreMs : Z) : M Z :=
  sprintf_reactionTimeMsString reactionTimeMs;;
  oled_clearScreen;;
  strcat_reactionTimeMsString reactionTimeMs;;
  oled_clearScreen;;
  oled_putValueHorizontallyCentered "ms" reactionTimeMs;;
  if (reactionTimeMs <? highScoreMs) || (highScoreMs =? 0) then
    oled_putStringHorizontallyCentered "NEW RECORD!";;
    set_high_score reactionTimeMs;;
    play_note (note_at 0) 100;;
    play_note (note_at 5) 200;;
    play_note (note_at 10) 400;;
    mret (to_uint16 reactionTimeMs)
  else mret highScoreMs.

(** The body of the round loop of [start_game], main.c:532-572, on the
    locals [round], [totalTime] and [highScoreMs]. *)
Definition game_round (round totalTime highScoreMs : Z) : M (Z * Z * Z) :=
  set_led_bar_position round;;
  led7seg_setChar (48 + round);;
  adjust_theme;;
  oled_clearScreen;;
  draw_circle 28;;
  oled_putStringHorizontallyCentered "WAIT...";;
  play_note (note_at 2) 250;;
  r ← rand;
  delay32Ms (randomDelay r);;
  fill_circle 28;;
  reactionTimeMs ← measure_reaction_time;
  let totalTime := to_uint32 (totalTime + reactionTimeMs) in
  highScoreMs ← round_result reactionTimeMs highScoreMs;
  let round := to_uint8 (round + 1) in
  delay32Ms 600;;
  wait_for_joystick_center_click;;
  mret (round, totalTime, highScoreMs).

Fixpoint game_rounds (fuel : nat) (round totalTime highScoreMs : Z) : M (Z * Z * Z) :=
  if round <? 5 then
    match fuel with
    | O => stuck
    | S fuel' =>
        '(round, totalTime, highScoreMs) ← game_round round totalTime highScoreMs;
        game_rounds fuel' round totalTime highScoreMs
    end
  else mret (round, totalTime, highScoreMs).

(** [start_game], main.c:526.  The round counter starts at 0 and grows by
    one per pass, so five passes reach the exit test. *)
Definition start_game : M unit :=
  highScoreMs ← read_high_score;
  '(_, totalTime, _) ← game_rounds 5 0 0 highScoreMs;
  oled_clearScreen;;
  oled_putStringHorizontallyCentered "Game Complete!";;
  oled_putValueHorizontallyCentered "Avg" (totalTime / 5);;
  best ← read_high_score;
  oled_putValueHorizontallyCentered "Best" best;;
  clear_led_bar;;
  led7seg_setChar 48;;
  delay32Ms 1000;;
  wait_for_joystick_center_click.

End Program.

(** * More of main.c

    The functions of the program that the sections above do not need: the
    pixel loops of the two circle routines, the placement of centred text,
    the tune of the credits, the start-up sequence and the main menu. *)

Definition to_int16 (v : Z) : Z := (v + 2 ^ 15) mod 2 ^ 16 - 2 ^ 15.

(** ** Circles *)

(** The eight [oled_putPixel] calls of one pass of [draw_circle],
    main.c:306-313, for the centre [(x0, y0)] and the offsets [x], [y]; the
    coordinates are converted to the [uint8_t] parameters of the driver. *)
Definition circle_octants (x0 y0 x y : Z) : list (Z * Z) :=
  [(to_uint8 (x0 + x), to_uint8 (y0 + y));
   (to_uint8 (x0 + y), to_uint8 (y0 + x));
   (to_uint8 (x0 - y), to_uint8 (y0 + x));
   (to_uint8 (x0 - x), to_uint8 (y0 + y));
   (to_uint8 (x0 - x), to_uint8 (y0 - y));
   (to_uint8 (x0 - y), to_uint8 (y0 - x));
   (to_uint8 (x0 + y), to_uint8 (y0 - x));
   (to_uint8 (x0 + x), to_uint8 (y0 - y))].

(** The [while (x >= y)] loop of [draw_circle], main.c:305-323, on the
    [int16_t] locals [x], [y] and [err]: the pixels put, in order. *)
Fixpoint draw_circle_loop (fuel : nat) (x0 y0 x y err : Z) : option (list (Z * Z)) :=
  if y <=? x then
    match fuel with
    | O => None
    | S fuel' =>
        let y1 := to_int16 (y + 1) in
        let err1 := if err <=? 0 then to_int16 (err + (2 * y1 + 1)) else err in
        let x1 := if 0 <? err1 then to_int16 (x - 1) else x in
        let err2 := if 0 <? err1 then to_int16 (err1 - (2 * x1 + 1)) else err1 in
        app (circle_octants x0 y0 x y) <$> draw_circle_loop fuel' x0 y0 x1 y1 err2
    end
  else Some [].

(** The values of the locals [x], [y] and [err] at the head of each pass
    of that loop, in order. *)
Fixpoint draw_circle_passes (fuel : nat) (x y err : Z) : option (list (Z * Z * Z)) :=
  if y <=? x then
    match fuel with
    | O => None
    | S fuel' =>
        let y1 := to_int16 (y + 1) in
        let err1 := if err <=? 0 then to_int16 (err + (2 * y1 + 1)) else err in
        let x1 := if 0 <? err1 then to_int16 (x - 1) else x in
        let err2 := if 0 <? err1 then to_int16 (err1 - (2 * x1 + 1)) else err1 in
        cons (x, y, err) <$> draw_circle_passes fuel' x1 y1 err2
    end
  else Some [].

(** The pixels that [draw_circle], main.c:300, puts for its three [uint8_t]
    arguments.  [y] grows in every pass and [x] starts at [radius], so
    [radius + 1] passes are enough ([draw_circle_pixels_run] below). *)
Definition draw_circle_pixels (x0 y0 radius : Z) : option (list (Z * Z)) :=
  let x0 := to_uint8 x0 in
  let y0 := to_uint8 y0 in
  let radius := to_uint8 radius in
  draw_circle_loop (S (Z.to_nat radius)) x0 y0 radius 0 0.

(** The values of a [for (v = lo; v <= hi; v++)] loop. *)
Definition for_range (lo hi : Z) : list Z :=
  (fun i => lo + Z.of_nat i) <$> seq 0 (Z.to_nat (hi - lo + 1)).

(** The pixels that [fill_circle], main.c:338, puts: the two nested loops
    over the bounding box, [int16_t] counters from [-radius] to [radius]. *)
Definition fill_circle_pixels (x0 y0 radius : Z) : list (Z * Z) :=
  let x0 := to_uint8 x0 in
  let y0 := to_uint8 y0 in
  let radius := to_uint8 radius in
  flat_map (fun y =>
    flat_map (fun x =>
      if x * x + y * y <=? radius * radius
      then [(to_uint8 (x0 + x), to_uint8 (y0 + y))]
      else [])
      (for_range (- radius) radius))
    (for_range (- radius) radius).

(** ** Centred text *)

(** The column at which [oled_putStringHorizontallyCentered], main.c:449,
    puts a text, for the display width [OLED_DISPLAY_WIDTH] of [oled.h]
    (not part of the sources): an [int] computation with C division,
    converted to [uint8_t]. *)
Definition centered_x (OLED_DISPLAY_WIDTH : Z) (text : string) : Z :=
  let textLength := Z.of_nat (String.length text) in
  to_uint8 (Z.quot (OLED_DISPLAY_WIDTH - textLength * 5) 2).

(** ** Credits *)

(** [play_star_wars_theme], main.c:227. *)
Definition play_star_wars_theme : M unit :=
  play_note (note_at 8) 500;;
  play_note (note_at 8) 500;;
  play_note (note_at 8) 500;;
  play_note (note_at 2) 350;;
  play_note (note_at 16) 150;;
  play_note (note_at 8) 500;;
  play_note (note_at 6) 350;;
  play_note (note_at 4) 150;;
  play_note (note_at 3) 150;;
  play_note (note_at 2) 350;;
  play_note (note_at 16) 150;;
  play_note (note_at 8) 1000;;
  play_note (note_at 6) 350;;
  play_note (note_at 4) 150;;
  play_note (note_at 3) 150;;
  play_note (note_at 2) 350;;
  play_note (note_at 16) 150;;
  play_note (note_at 8) 1000.

(** ** Start-up *)

Definition startup_frames : list string := ["."; ".."; "..."]%string.

Definition startup_quotes : list string :=
  ["Heat up..."; "Thrust OK"; "Fire laser"; "Weapons armed"; "AI synced";
   "Engines online"; "Core stable"; "Warp ready"; "Scanning"]%string.

(** A [for] loop over the elements of an array. *)
Fixpoint for_each {A : Type} (l : list A) (body : A -> M unit) : M unit :=
  match l with
  | [] => mret tt
  | a :: l' => body a;; for_each l' body
  end.

(** [play_startup_animation], main.c:491. *)
Definition play_startup_animation : M unit :=
  play_note (note_at 3) 200;;
  for_each startup_quotes (fun str =>
    for_each startup_frames (fun frame =>
      oled_clearScreen;;
      oled_putStringHorizontallyCentered str;;
      oled_putStringHorizontallyCentered frame;;
      delay32Ms 300));;
  init_tilt_calibration.

Section Application.
Context {board : Board}.

(** [show_welcome_screen], main.c:466. *)
Definition show_welcome_screen : M unit :=
  oled_clearScreen;;
  oled_putStringHorizontallyCentered "Welcome";;
  oled_putStringHorizontallyCentered "REFLEKS";;
  oled_putStringHorizontallyCentered "High score:";;
  highScoreMs ← read_high_score;
  oled_putValueHorizontallyCentered "ms" highScoreMs;;
  wait_for_joystick_center_click.

(** The [switch] of [show_main_menu], main.c:654-690, on the selection;
    the result tells whether the function returns ([MENU_EXIT]). *)
Definition menu_dispatch (selection : Z) : M bool :=
  if selection =? 0 then
    start_game;;
    mret false
  else if selection =? 1 then
    set_high_score 9999;;
    oled_putStringHorizontallyCentered "Reset HS";;
    delay32Ms 800;;
    mret false
  else if selection =? 2 then
    oled_putStringHorizontallyCentered "High score:";;
    highScoreMs ← read_high_score;
    oled_putValueHorizontallyCentered "ms" highScoreMs;;
    delay32Ms 1000;;
    wait_for_joystick_center_click;;
    mret false
  else if selection =? 3 then
    oled_putStringHorizontallyCentered "by";;
    oled_putStringHorizontallyCentered "group";;
    oled_putStringHorizontallyCentered "G02 :D";;
    play_star_wars_theme;;
    mret false
  else if selection =? 4 then
    oled_putStringHorizontallyCentered "Exiting...";;
    play_note (note_at 10) 200;;
    play_note (note_at 5) 200;;
    play_note (note_at 1) 200;;
    delay32Ms 400;;
    oled_clearScreen;;
    mret true
  else mret false.

(** The [while (1)] loop of [show_main_menu], main.c:648-691. *)
Fixpoint show_main_menu_loop (fuel : nat) : M unit :=
  match fuel with
  | O => stuck
  | S fuel' =>
      draw_menu;;
      selection ← handle_menu;
      oled_clearScreen;;
      play_note (note_at 0) 200;;
      exit ← menu_dispatch selection;
      if exit : bool then mret tt else show_main_menu_loop fuel'
  end.

(** [show_main_menu], main.c:647.  Every pass takes joystick samples, so one
    pass more than there are samples is never reached. *)
Definition show_main_menu : M unit := fun w =>
  show_main_menu_loop (S (length (joy_in (inputs w)))) w.

(** [main], main.c:705.  The initialisation of the peripherals has no
    effect in the model, except that [srand(light_read())] takes a light
    sample (the draws of [rand] are recorded in the world as they come). *)
Definition main : M Z :=
  _ ← light_read;
  clear_led_bar;;
  adjust_theme;;
  play_startup_animation;;
  show_welcome_screen;;
  show_main_menu;;
  mret 0.

End Application.

(** * Vocabulary of the properties

    Definitions used to state what the program does: parts of the world
    after an operation, lists of events, and the rules that the design
    document words. *)

(** The score that [read_high_score] decodes from a store. *)
Definition stored_score (e : Z -> Z) : Z :=
  to_uint16 (Z.lor (Z.shiftl (to_uint8 (e 8)) 8) (to_uint8 (e 9))).

(** The two bytes that [set_high_score] writes, in the store. *)
Definition store_score (v : Z) (e : Z -> Z) : Z -> Z :=
  <[9 := to_uint16 v mod 2 ^ 8]> (<[8 := to_uint16 v / 2 ^ 8]> e).

(** The world after one accelerometer sample has been taken. *)
Definition after_acc (rest : list (Z * Z * Z)) (w : World) : World :=
  set_inputs (mkInputs (joy_in (inputs w)) (light_in (inputs w)) rest
                       (rand_in (inputs w))) w.

(** The world after one light-sensor sample has been taken. *)
Definition after_light (rest : list Z) (w : World) : World :=
  set_inputs (mkInputs (joy_in (inputs w)) rest (acc_in (inputs w))
                       (rand_in (inputs w))) w.

(** The world after joystick samples have been taken, [rest] remaining. *)
Definition after_joy (rest : list Z) (w : World) : World :=
  set_inputs (mkInputs rest (light_in (inputs w)) (acc_in (inputs w))
                       (rand_in (inputs w))) w.

(** The world after one draw of [rand()] has been taken. *)
Definition after_rand (rest : list Z) (w : World) : World :=
  set_inputs (mkInputs (joy_in (inputs w)) (light_in (inputs w))
                       (acc_in (inputs w)) rest) w.

(** Time that a list of events takes, in microseconds. *)
Fixpoint delays_us (evs : list event) : Z :=
  match evs with
  | [] => 0
  | EvDelayUs n :: evs' => n + delays_us evs'
  | EvDelayMs n :: evs' => 1000 * n + delays_us evs'
  | _ :: evs' => delays_us evs'
  end.

(** Speaker-pin events in a list of events. *)
Definition is_toggle (e : event) : bool :=
  match e with
  | EvPinHigh | EvPinLow => true
  | _ => false
  end.

(** The world after a list of events has been put out. *)
Definition after_events (evs : list event) (w : World) : World :=
  set_clock_us (clock_us w + delays_us evs) (set_out (out w ++ evs) w).

(** The test of [is_board_tilted] on the offset-adjusted readings. *)
Definition beyond_threshold (ax ay : Z) : bool :=
  (ax >? 30) || (ax <? -30) || (ay >? 30) || (ay <? -30).

(** One pass of the loop of [play_note]: pin high, delay, pin low, delay. *)
Definition cycle (note : Z) : list event :=
  [EvPinHigh; EvDelayUs (note / 4); EvPinLow; EvDelayUs (note / 4)].

(** The least [n] with [limit <= n * note]. *)
Definition cycles_needed (note limit : Z) : nat :=
  Z.to_nat ((limit + note - 1) / note).

(** The counter [t] of the loop of [play_note] after [k] passes. *)
Fixpoint counter_after (note t : Z) (k : nat) : Z :=
  match k with
  | O => t
  | S k' => counter_after note (to_uint32 (t + note)) k'
  end.

(** The events of [play_note note durationMs] for a tone. *)
Definition tone (note durationMs : Z) : list event :=
  concat (replicate (cycles_needed note (1000 * durationMs)) (cycle note)).

(** The events of [play_note(notes[0], 200)], the cue of a palette change. *)
Definition change_tone : list event := tone 2272 200.

(** The palette that [adjust_theme] selects for a reading. *)
Definition palette_for (reading : Z) : Theme :=
  if reading <? 125 then night_theme else day_theme.

(** The wait for the confirm input as the design document words it: the
    index of the first sample that reads pressed while the sample before it
    (for the first sample: the state [previous] from before arming) read
    released. *)
Fixpoint confirm_edge_index (pressed : Z -> bool) (previous : Z) (samples : list Z)
  : option nat :=
  match samples with
  | [] => None
  | s :: samples' =>
      if pressed s && negb (pressed previous) then Some O
      else S <$> confirm_edge_index pressed s samples'
  end.

(** What the Result step shows before the comparison. *)
Definition result_display (reactionTimeMs : Z) (t : Theme) : list event :=
  [EvOled (OledClear (backgroundColor t));
   EvOled (OledClear (backgroundColor t));
   EvOled (OledValue "ms" reactionTimeMs (fontColor t) (backgroundColor t))].

(** The banner of a new record. *)
Definition record_banner (t : Theme) : event :=
  EvOled (OledText "NEW RECORD!" (fontColor t) (backgroundColor t)).

(** The three-note fanfare of a new record. *)
Definition record_fanfare : list event :=
  tone 2272 100 ++ tone 3030 200 ++ tone 1136 400.

(** The new-record test of [start_game], main.c:561. *)
Definition is_new_record (reactionTimeMs highScoreMs : Z) : bool :=
  (reactionTimeMs <? highScoreMs) || (highScoreMs =? 0).

(** The index after a menu event, as the design document gives it. *)
Definition next_index (a : menu_action) (i : Z) : Z :=
  match a with
  | NavDown => (i + 1) mod MENU_ITEM_COUNT
  | NavUp => (i - 1 + MENU_ITEM_COUNT) mod MENU_ITEM_COUNT
  | Select | NoAction => i
  end.

(** The bit [mask] reads 1 in [joy] and 0 in [previous_joy]. *)
Definition rising (mask joy previous_joy : Z) : bool :=
  nonzero (Z.land joy mask) && negb (nonzero (Z.land previous_joy mask)).

#[global] Arguments play_note : simpl never.
#[global] Arguments play_note_loop : simpl never.
#[global] Arguments tone : simpl never.

Section Vocabulary.
Context {board : Board}.

(** The confirm bit of a raw joystick sample, as the program tests it. *)
Definition confirm_pressed (j : Z) : bool :=
  negb (Z.land (to_uint8 j) JOYSTICK_CENTER =? 0).

(** The branch that a pass of the menu loop takes, for the sample [joy] and
    the sample [previous_joy] of the pass before. *)
Definition poll_action (joy previous_joy : Z) : menu_action :=
  if rising JOYSTICK_DOWN joy previous_joy then NavDown
  else if rising JOYSTICK_UP joy previous_joy then NavUp
  else if rising JOYSTICK_CENTER joy previous_joy then Select
  else NoAction.

(** The menu index after a pass, as the code computes it. *)
Definition index_after (a : menu_action) (i : Z) : Z :=
  match a with
  | NavDown => Z.rem (i + 1) MENU_ITEM_COUNT
  | NavUp => Z.rem (i - 1 + MENU_ITEM_COUNT) MENU_ITEM_COUNT
  | Select | NoAction => i
  end.

End Vocabulary.

(** ** Worlds to run examples in *)

(** A world to run examples in: no recorded samples, an erased EEPROM, the
    day palette, clock at 0. *)
Definition idle_world : World :=
  mkWorld (mkInputs [] [] [] []) (fun _ => 0xFF) day_theme
          (mkTilt 0 0 0 0 0 0) 0 0 0 [].

(** A world whose stored score is 0. *)
Definition zero_score_world : World := set_eeprom (fun _ => 0) idle_world.

(** A world with the given joystick samples recorded. *)
Definition world_with_joy (js : list Z) : World := after_joy js idle_world.

(** A world with the given samples recorded. *)
Definition world_with (i : Inputs) : World := set_inputs i idle_world.

(** The values that the program has shown with a label. *)
Definition shown_values (evs : list event) : list (string * Z) :=
  flat_map (fun e => match e with
                     | EvOled (OledValue label v _ _) => [(label, v)]
                     | _ => []
                     end) evs.

(** Joystick samples of a round answered after [t] ms: released for [t]
    polls, pressed for the measurement, still pressed for the confirmation. *)
Definition round_samples (t : nat) : list Z := replicate t 0 ++ [0x01; 0x01].

(** A session of five rounds answered after 7, 5, 9, 3 and 6 ms, in bright
    light, started with the reset score 9999 in the store. *)
Definition session_world : World :=
  set_eeprom (store_score 9999 (fun _ => 0))
    (world_with
       (mkInputs (round_samples 7 ++ round_samples 5 ++ round_samples 9
                    ++ round_samples 3 ++ round_samples 6 ++ [0x01])
                 [200; 200; 200; 200; 200] []
                 [0; 1000; 2999; 5; 77])).

(** The offsets [(x, y)] of the passes of [draw_circle]: what the loop
    computes when no [int16_t] conversion changes a value. *)
Fixpoint circle_offsets (fuel : nat) (x y err : Z) : list (Z * Z) :=
  match fuel with
  | O => []
  | S fuel' =>
      if y <=? x then
        let err1 := if err <=? 0 then err + (2 * (y + 1) + 1) else err in
        let x1 := if 0 <? err1 then x - 1 else x in
        let err2 := if 0 <? err1 then err1 - (2 * x1 + 1) else err1 in
        (x, y) :: circle_offsets fuel' x1 (y + 1) err2
      else []
  end.

(** The values of the type [int16_t]. *)
Definition int16_value (v : Z) : Prop := - 2 ^ 15 <= v < 2 ^ 15.

(** The state of the loop at the head of a pass that runs. *)
Definition circle_inv (r x y err : Z) : Prop :=
  0 <= y /\ x <= r /\ r <= 255 /\ - 2 * x <= err /\ err <= 0 /\
  err = x * x + y * y - r * r + 2 * y.

(** The tilt samples that keep the board within the dead band of 30
    counts around the calibration readings [x0], [y0]. *)
Definition level_sample (x0 y0 : Z) (s : Z * Z * Z) : Prop :=
  - 128 <= s.1.1 <= 127 /\ - 128 <= s.1.2 <= 127 /\
  Z.abs (s.1.1 - x0) <= 30 /\ Z.abs (s.1.2 - y0) <= 30.

(** ** Rounds of a game *)

(** The joystick samples that one round of [start_game] takes, as
    [(pre, j, pre2, j2)]: [pre] while the clock runs, [j] that stops it,
    [pre2] while the result is shown and [j2] that confirms it. *)
Definition round_joy (r : list Z * Z * list Z * Z) : list Z :=
  r.1.1.1 ++ r.1.1.2 :: r.1.2 ++ [r.2].

(** The time that [measure_reaction_time] returns in such a round: one
    millisecond for each sample of [pre]. *)
Definition round_time (r : list Z * Z * list Z * Z) : Z :=
  to_uint32 (Z.of_nat (length r.1.1.1)).

(** The local [highScoreMs] of [start_game] after a round that measured
    [reactionTimeMs], main.c:561-563. *)
Definition record_after (highScoreMs reactionTimeMs : Z) : Z :=
  if is_new_record reactionTimeMs highScoreMs
  then to_uint16 reactionTimeMs else highScoreMs.

(** The local [totalTime] of [start_game] after a round, main.c:550. *)
Definition total_after (totalTime reactionTimeMs : Z) : Z :=
  to_uint32 (totalTime + reactionTimeMs).

Section RoundVocabulary.
Context {board : Board}.

(** The confirm button reads released in [pre] and [pre2] and pressed in
    [j] and [j2]. *)
Definition round_answered (r : list Z * Z * list Z * Z) : Prop :=
  Forall (fun s => confirm_pressed s = false) r.1.1.1 /\
  confirm_pressed r.1.1.2 = true /\
  Forall (fun s => confirm_pressed s = false) r.1.2 /\
  confirm_pressed r.2 = true.

End RoundVocabulary.

(** The sample that a pass of the menu loop compares its own with: the
    value of [previous_joy] at pass [k] of a run of [handle_menu] that was
    entered with [previous_joy] and takes the samples [js]. *)
Definition previous_sample (previous_joy : Z) (js : list Z) (k : nat) : Z :=
  match k with
  | O => previous_joy
  | S k' => to_uint8 (nth k' js 0)
  end.

(** * Properties *)

(** ** Running monadic code *)

Lemma run_bind {A B : Type} (m : M A) (k : A -> M B) (w : World) :
  (m ≫= k) w = match m w with Some (a, w') => k a w' | None => None end.
Proof. reflexivity. Qed.

Ltac unfold_prims :=
  unfold eeprom_write2, eeprom_read2, timer1_reset_start, timer1_TC,
    delay32Ms, delay32Us, emit, get, modify, stuck in *.

Ltac run_monad :=
  unfold_prims; unfold mbind, M_bind, mret, M_ret in *; cbn beta iota.

(** ** Fixed-width integers *)

Lemma to_uint8_range v : 0 <= to_uint8 v < 2 ^ 8.
Proof. unfold to_uint8. apply Z.mod_pos_bound. lia. Qed.

Lemma to_uint16_range v : 0 <= to_uint16 v < 2 ^ 16.
Proof. unfold to_uint16. apply Z.mod_pos_bound. lia. Qed.

Lemma to_uint32_range v : 0 <= to_uint32 v < 2 ^ 32.
Proof. unfold to_uint32. apply Z.mod_pos_bound. lia. Qed.

Lemma to_uint8_small v : 0 <= v < 2 ^ 8 -> to_uint8 v = v.
Proof. intros H. unfold to_uint8. apply Z.mod_small; lia. Qed.

Lemma to_uint16_small v : 0 <= v < 2 ^ 16 -> to_uint16 v = v.
Proof. intros H. unfold to_uint16. apply Z.mod_small; lia. Qed.

Lemma to_uint32_small v : 0 <= v < 2 ^ 32 -> to_uint32 v = v.
Proof. intros H. unfold to_uint32. apply Z.mod_small; lia. Qed.

Lemma to_int8_range v : - 2 ^ 7 <= to_int8 v < 2 ^ 7.
Proof.
  unfold to_int8.
  pose proof (Z.mod_pos_bound (v + 2 ^ 7) (2 ^ 8)). lia.
Qed.

Lemma to_int8_small v : - 2 ^ 7 <= v < 2 ^ 7 -> to_int8 v = v.
Proof. intros H. unfold to_int8. rewrite Z.mod_small; lia. Qed.

(** Adding a value and its [int8_t] negation gives 0 in [int8_t], also where
    the negation itself wraps (at -128). *)
Lemma to_int8_cancel v : to_int8 (to_int8 v + to_int8 (- to_int8 v)) = 0.
Proof.
  pose proof (to_int8_range v) as Hv.
  destruct (Z.eq_dec (to_int8 v) (- 2 ^ 7)) as [-> | Hne].
  - reflexivity.
  - rewrite (to_int8_small (- to_int8 v)) by lia.
    replace (to_int8 v + - to_int8 v) with 0 by lia. reflexivity.
Qed.

(** ** Big-endian bytes *)

Lemma high_byte v : Z.shiftr (Z.land v 0xFF00) 8 = (v / 2 ^ 8) mod 2 ^ 8.
Proof.
  rewrite Z.shiftr_land.
  change (Z.shiftr 0xFF00 8) with (Z.ones 8).
  rewrite Z.land_ones by lia.
  rewrite Z.shiftr_div_pow2 by lia. reflexivity.
Qed.

Lemma low_byte v : Z.land v 0x00FF = v mod 2 ^ 8.
Proof. change 0x00FF with (Z.ones 8). apply Z.land_ones. lia. Qed.

Lemma join_bytes a b :
  0 <= b < 2 ^ 8 -> Z.lor (Z.shiftl a 8) b = a * 2 ^ 8 + b.
Proof.
  intros Hb.
  rewrite <- Z.shiftl_mul_pow2 by lia.
  symmetry. apply Z.add_nocarry_lor.
  apply Z.bits_inj'. intros n Hn.
  rewrite Z.land_spec, Z.bits_0.
  destruct (Z.lt_ge_cases n 8) as [Hlt | Hge].
  - rewrite Z.shiftl_spec_low by lia. reflexivity.
  - replace b with (b mod 2 ^ 8) by (apply Z.mod_small; lia).
    rewrite Z.mod_pow2_bits_high by lia. apply andb_false_r.
Qed.

(** ** ScoreStore *)

(** What [set_high_score] leaves in the store, for any argument. *)
Lemma set_high_score_run (v : Z) (w : World) :
  set_high_score v w =
  Some (tt, set_eeprom (<[9 := to_uint16 v mod 2 ^ 8]>
                          (<[8 := to_uint16 v / 2 ^ 8]> (eeprom w))) w).
Proof.
  unfold set_high_score. run_monad.
  rewrite high_byte, low_byte.
  pose proof (to_uint16_range v) as Hv.
  assert (Hhi : 0 <= to_uint16 v / 2 ^ 8 < 2 ^ 8).
  { split; [apply Z.div_pos; lia | apply Z.div_lt_upper_bound; lia]. }
  rewrite (Z.mod_small (to_uint16 v / 2 ^ 8)) by lia.
  rewrite (to_uint8_small (to_uint16 v / 2 ^ 8)) by lia.
  rewrite (to_uint8_small (to_uint16 v mod 2 ^ 8))
    by (apply Z.mod_pos_bound; lia).
  reflexivity.
Qed.

Lemma read_high_score_run (w : World) :
  read_high_score w = Some (stored_score (eeprom w), w).
Proof. reflexivity. Qed.

Lemma stored_score_range e : 0 <= stored_score e < 2 ^ 16.
Proof. apply to_uint16_range. Qed.

Lemma stored_score_after_set (v : Z) (e : Z -> Z) :
  stored_score (<[9 := to_uint16 v mod 2 ^ 8]> (<[8 := to_uint16 v / 2 ^ 8]> e))
  = to_uint16 v.
Proof.
  unfold stored_score.
  rewrite fn_lookup_insert.
  rewrite fn_lookup_insert_ne by lia. rewrite fn_lookup_insert.
  pose proof (to_uint16_range v) as Hv.
  assert (Hhi : 0 <= to_uint16 v / 2 ^ 8 < 2 ^ 8).
  { split; [apply Z.div_pos; lia | apply Z.div_lt_upper_bound; lia]. }
  assert (Hlo : 0 <= to_uint16 v mod 2 ^ 8 < 2 ^ 8)
    by (apply Z.mod_pos_bound; lia).
  rewrite !to_uint8_small by lia.
  rewrite join_bytes by lia.
  rewrite <- (to_uint16_small (to_uint16 v)) at 3 by lia.
  f_equal.
  pose proof (Z.div_mod (to_uint16 v) (2 ^ 8)). lia.
Qed.

(** C7.  For every 16-bit value [v], [set_high_score v] followed by
    [read_high_score] returns [v]: the high byte [v / 256] goes to offset 8
    of the store, the low byte [v mod 256] to offset 9, no other offset
    changes, and the read decodes [256 * high + low] from the same two
    offsets. *)
Theorem high_score_round_trip (v : Z) (w : World) :
  0 <= v < 2 ^ 16 ->
  exists w',
    (set_high_score v;; read_high_score) w = Some (v, w') /\
    eeprom w' 8 = v / 2 ^ 8 /\
    eeprom w' 9 = v mod 2 ^ 8 /\
    (forall a, a <> 8 -> a <> 9 -> eeprom w' a = eeprom w a) /\
    stored_score (eeprom w') = 2 ^ 8 * eeprom w' 8 + eeprom w' 9.
Proof.
  intros Hv.
  exists (set_eeprom (<[9 := to_uint16 v mod 2 ^ 8]>
                        (<[8 := to_uint16 v / 2 ^ 8]> (eeprom w))) w).
  rewrite run_bind, set_high_score_run, read_high_score_run.
  cbn [eeprom set_eeprom].
  rewrite stored_score_after_set, to_uint16_small by lia.
  split; [reflexivity |].
  rewrite fn_lookup_insert.
  rewrite fn_lookup_insert_ne by lia. rewrite fn_lookup_insert.
  repeat split.
  - intros a H8 H9. rewrite !fn_lookup_insert_ne by congruence. reflexivity.
  - pose proof (Z.div_mod v (2 ^ 8)). lia.
Qed.

Lemma high_score_round_trip_witness :
  exists w',
    (set_high_score 1234;; read_high_score)
      (mkWorld (mkInputs [] [] [] []) (fun _ => 0xFF) day_theme
               (mkTilt 0 0 0 0 0 0) 0 0 0 []) = Some (1234, w').
Proof.
  destruct (high_score_round_trip 1234
              (mkWorld (mkInputs [] [] [] []) (fun _ => 0xFF) day_theme
                       (mkTilt 0 0 0 0 0 0) 0 0 0 []))
    as (w' & Hrun & _).
  - lia.
  - exists w'. exact Hrun.
Defined.

(** ** TiltMonitor *)

Lemma beyond_threshold_spec ax ay :
  beyond_threshold ax ay = true <-> ax > 30 \/ ax < -30 \/ ay > 30 \/ ay < -30.
Proof. unfold beyond_threshold. rewrite !orb_true_iff. lia. Qed.

Lemma init_tilt_calibration_run (w : World) x y z rest :
  acc_in (inputs w) = (x, y, z) :: rest ->
  init_tilt_calibration w =
  Some (tt, set_tilt (mkTilt (to_int8 (- to_int8 x)) (to_int8 (- to_int8 y))
                             (to_int8 (64 - to_int8 z))
                             (to_int8 x) (to_int8 y) (to_int8 z))
              (after_acc rest w)).
Proof.
  intros Hacc. unfold init_tilt_calibration. run_monad.
  unfold acc_read. rewrite Hacc. reflexivity.
Qed.

Lemma is_board_tilted_run (w : World) x y z rest :
  acc_in (inputs w) = (x, y, z) :: rest ->
  let ax := to_int8 (to_int8 x + xOffset (tilt w)) in
  let ay := to_int8 (to_int8 y + yOffset (tilt w)) in
  let az := to_int8 (to_int8 z + zOffset (tilt w)) in
  is_board_tilted w =
  Some (if beyond_threshold ax ay then 1 else 0,
        set_tilt (mkTilt (xOffset (tilt w)) (yOffset (tilt w)) (zOffset (tilt w))
                         ax ay az)
          (after_acc rest w)).
Proof.
  intros Hacc ax ay az. unfold is_board_tilted. run_monad.
  unfold acc_read. rewrite Hacc. cbn.
  fold ax ay az. fold (beyond_threshold ax ay).
  destruct (beyond_threshold ax ay); reflexivity.
Qed.

(** C8.  Calibrating on a sample [(x0, y0, z0)] stores the offsets [-x0],
    [-y0] and [64 - z0] (as [int8_t]).  The next call of [is_board_tilted],
    on a sample [(x, y, z)], returns 1 exactly when the offset-adjusted X or
    Y reading is above 30 or below -30, and 0 otherwise; it returns 0 when X
    and Y read as they did at calibration, whatever Z reads: the adjusted Z
    value is stored and takes no part in the decision. *)
Theorem tilt_after_calibration (w : World) x0 y0 z0 x y z rest :
  acc_in (inputs w) = (x0, y0, z0) :: (x, y, z) :: rest ->
  exists w1 w2 r,
    init_tilt_calibration w = Some (tt, w1) /\
    xOffset (tilt w1) = to_int8 (- to_int8 x0) /\
    yOffset (tilt w1) = to_int8 (- to_int8 y0) /\
    zOffset (tilt w1) = to_int8 (64 - to_int8 z0) /\
    is_board_tilted w1 = Some (r, w2) /\
    tilt_x (tilt w2) = to_int8 (to_int8 x + xOffset (tilt w1)) /\
    tilt_y (tilt w2) = to_int8 (to_int8 y + yOffset (tilt w1)) /\
    tilt_z (tilt w2) = to_int8 (to_int8 z + zOffset (tilt w1)) /\
    (r = 0 \/ r = 1) /\
    (r = 1 <-> tilt_x (tilt w2) > 30 \/ tilt_x (tilt w2) < -30 \/
               tilt_y (tilt w2) > 30 \/ tilt_y (tilt w2) < -30) /\
    (to_int8 x = to_int8 x0 -> to_int8 y = to_int8 y0 -> r = 0).
Proof.
  intros Hacc.
  pose proof (init_tilt_calibration_run w x0 y0 z0 _ Hacc) as Hinit.
  set (w1 := set_tilt _ _) in Hinit.
  assert (Hacc1 : acc_in (inputs w1) = (x, y, z) :: rest) by reflexivity.
  pose proof (is_board_tilted_run w1 x y z rest Hacc1) as Htilt.
  cbv zeta in Htilt.
  set (ax := to_int8 (to_int8 x + xOffset (tilt w1))) in *.
  set (ay := to_int8 (to_int8 y + yOffset (tilt w1))) in *.
  set (w2 := set_tilt _ _) in Htilt.
  exists w1, w2, (if beyond_threshold ax ay then 1 else 0).
  repeat (split; [reflexivity || assumption |]).
  change (tilt_x (tilt w2)) with ax. change (tilt_y (tilt w2)) with ay.
  pose proof (beyond_threshold_spec ax ay) as Hspec.
  split; [destruct (beyond_threshold ax ay); lia |].
  split.
  - destruct (beyond_threshold ax ay).
    + split; [intros _; apply Hspec; reflexivity | reflexivity].
    + split; [discriminate |]. intros H. apply Hspec in H. discriminate.
  - intros Hx Hy.
    assert (Hax : ax = 0).
    { subst ax. change (xOffset (tilt w1)) with (to_int8 (- to_int8 x0)).
      rewrite Hx. apply to_int8_cancel. }
    assert (Hay : ay = 0).
    { subst ay. change (yOffset (tilt w1)) with (to_int8 (- to_int8 y0)).
      rewrite Hy. apply to_int8_cancel. }
    rewrite Hax, Hay. reflexivity.
Qed.

Lemma tilt_after_calibration_witness :
  exists w1 w2 r,
    init_tilt_calibration
      (mkWorld (mkInputs [] [] [(5, -7, 60); (5, -7, 12)] []) (fun _ => 0)
               day_theme (mkTilt 0 0 0 0 0 0) 0 0 0 []) = Some (tt, w1) /\
    is_board_tilted w1 = Some (r, w2) /\ r = 0.
Proof.
  destruct (tilt_after_calibration
              (mkWorld (mkInputs [] [] [(5, -7, 60); (5, -7, 12)] []) (fun _ => 0)
                       day_theme (mkTilt 0 0 0 0 0 0) 0 0 0 [])
              5 (-7) 60 5 (-7) 12 [] eq_refl)
    as (w1 & w2 & r & Hinit & _ & _ & _ & Htilt & _ & _ & _ & _ & _ & Hsame).
  exists w1, w2, r.
  split; [exact Hinit |]. split; [exact Htilt |].
  apply Hsame; reflexivity.
Defined.

(** The adjusted readings are [int8_t] values: a deviation of 255 counts
    from the calibration sample wraps around to -1 and is not a tilt. *)
Example tilt_deviation_wraps_around :
  fst <$> (init_tilt_calibration;; is_board_tilted)
            (world_with (mkInputs [] [] [(-128, 0, 64); (127, 0, 64)] []))
  = Some 0.
Proof. reflexivity. Qed.

(** ** AudioFeedback *)

Lemma delays_us_app evs1 evs2 :
  delays_us (evs1 ++ evs2) = delays_us evs1 + delays_us evs2.
Proof.
  induction evs1 as [| e evs1 IH]; [reflexivity |].
  destruct e; cbn [app delays_us]; rewrite IH; lia.
Qed.

Lemma after_events_nil w : after_events [] w = w.
Proof.
  destruct w. unfold after_events, set_clock_us, set_out. cbn.
  rewrite app_nil_r, Z.add_0_r. reflexivity.
Qed.

Lemma after_events_app evs1 evs2 w :
  after_events evs2 (after_events evs1 w) = after_events (evs1 ++ evs2) w.
Proof.
  destruct w. unfold after_events, set_clock_us, set_out. cbn.
  rewrite delays_us_app, app_assoc, Z.add_assoc. reflexivity.
Qed.

Lemma delay32Ms_run n w : delay32Ms n w = Some (tt, after_events [EvDelayMs n] w).
Proof.
  destruct w. unfold after_events. cbn. rewrite Z.add_0_r. reflexivity.
Qed.

Lemma cycle_run note (k : M unit) w :
  (emit EvPinHigh;; delay32Us (note / 4);; emit EvPinLow;; delay32Us (note / 4);; k) w
  = k (after_events (cycle note) w).
Proof.
  destruct w. unfold after_events, cycle. run_monad.
  unfold set_clock_us, set_out. cbn.
  rewrite <- !app_assoc. cbn [app].
  replace (clock_us0 + note / 4 + note / 4)
    with (clock_us0 + (note / 4 + (note / 4 + 0))) by lia.
  reflexivity.
Qed.

Lemma play_note_loop_eq fuel note limit t :
  play_note_loop fuel note limit t =
  if t <? limit then
    match fuel with
    | O => stuck
    | S fuel' =>
        emit EvPinHigh;;
        delay32Us (note / 4);;
        emit EvPinLow;;
        delay32Us (note / 4);;
        play_note_loop fuel' note limit (to_uint32 (t + note))
    end
  else mret tt.
Proof. destruct fuel; reflexivity. Qed.

(** The loop runs [n] passes when [n] is the first index at which the
    counter, which grows by [note] per pass, reaches [limit] without
    wrapping around. *)
Lemma play_note_loop_run (n : nat) :
  forall (fuel : nat) (note limit t : Z) (w : World),
    0 < note -> 0 <= t ->
    (n <= fuel)%nat ->
    t + Z.of_nat n * note < 2 ^ 32 ->
    limit <= t + Z.of_nat n * note ->
    (forall k : nat, (k < n)%nat -> t + Z.of_nat k * note < limit) ->
    play_note_loop fuel note limit t w
    = Some (tt, after_events (concat (replicate n (cycle note))) w).
Proof.
  induction n as [| n IH]; intros fuel note limit t w Hnote Ht Hfuel Hwrap Hend Hbelow.
  - assert (Hge : (t <? limit) = false) by (apply Z.ltb_ge; lia).
    rewrite play_note_loop_eq, Hge.
    cbn [replicate concat]. rewrite after_events_nil. reflexivity.
  - assert (Hlt : (t <? limit) = true).
    { apply Z.ltb_lt. specialize (Hbelow 0%nat). lia. }
    destruct fuel as [| fuel]; [lia |].
    rewrite play_note_loop_eq, Hlt.
    rewrite cycle_run.
    rewrite (to_uint32_small (t + note)) by nia.
    rewrite (IH fuel note limit (t + note)); try lia.
    + rewrite after_events_app. reflexivity.
    + intros k Hk. specialize (Hbelow (S k)). nia.
Qed.

Lemma cycles_needed_spec note limit :
  0 < note -> 0 <= limit ->
  let n := Z.of_nat (cycles_needed note limit) in
  limit <= n * note < limit + note /\ n <= limit.
Proof.
  intros Hnote Hlimit. unfold cycles_needed.
  assert (Hq : 0 <= (limit + note - 1) / note) by (apply Z.div_pos; lia).
  cbv zeta. rewrite Z2Nat.id by lia.
  pose proof (Z.div_mod (limit + note - 1) note ltac:(lia)) as Hdm.
  pose proof (Z.mod_pos_bound (limit + note - 1) note Hnote) as Hm.
  nia.
Qed.

(** [play_note] with a positive period, when [1000 * durationMs + note]
    fits in 32 bits. *)
Lemma play_note_run (note durationMs : Z) (w : World) :
  0 < note < 2 ^ 32 -> 0 <= durationMs ->
  1000 * durationMs + note <= 2 ^ 32 ->
  play_note note durationMs w
  = Some (tt, after_events
                (concat (replicate (cycles_needed note (1000 * durationMs))
                                   (cycle note))) w).
Proof.
  intros Hnote Hd Hfit. unfold play_note.
  rewrite (to_uint32_small note), (to_uint32_small durationMs) by lia.
  replace (0 <? note) with true by (symmetry; apply Z.ltb_lt; lia).
  rewrite (to_uint32_small (durationMs * 1000)) by lia.
  replace (durationMs * 1000) with (1000 * durationMs) by lia.
  pose proof (cycles_needed_spec note (1000 * durationMs) ltac:(lia) ltac:(lia)) as Hn.
  cbv zeta in Hn.
  apply play_note_loop_run; try lia.
  intros k Hk. nia.
Qed.

(** A rest. *)
Lemma play_note_rest_run (durationMs : Z) (w : World) :
  0 <= durationMs < 2 ^ 32 ->
  play_note 0 durationMs w = Some (tt, after_events [EvDelayMs durationMs] w).
Proof.
  intros Hd. unfold play_note.
  change (0 <? to_uint32 0) with false. cbv iota.
  rewrite to_uint32_small by lia. apply delay32Ms_run.
Qed.

Lemma filter_toggle_cycles n note :
  filter (fun e => is_toggle e) (concat (replicate n (cycle note)))
  = concat (replicate n [EvPinHigh; EvPinLow]).
Proof.
  induction n as [| n IH]; [reflexivity |].
  cbn [replicate concat]. rewrite filter_app, IH. reflexivity.
Qed.

(** *** The fuel of [play_note]

    A run of the loop that returns finds pairwise distinct values of [t]
    below [limit] before it leaves, so it makes at most [limit] passes: the
    fuel that [play_note] gives its loop is enough for every run that
    terminates, and the model is stuck only where the C loop runs for ever. *)

Lemma counter_after_add note t a b :
  counter_after note t (a + b) = counter_after note (counter_after note t a) b.
Proof. revert t. induction a as [| a IH]; intros t; [reflexivity | apply IH]. Qed.

Lemma counter_after_nonneg note t k : 0 <= t -> 0 <= counter_after note t k.
Proof.
  revert t. induction k as [| k IH]; intros t Ht; [exact Ht |].
  cbn [counter_after]. apply IH. apply to_uint32_range.
Qed.

(** A run that returns leaves the loop at some pass [K] within the fuel. *)
Lemma play_note_loop_exit fuel :
  forall note limit t w r,
    play_note_loop fuel note limit t w = Some r ->
    exists K : nat,
      (K <= fuel)%nat /\ limit <= counter_after note t K /\
      forall i : nat, (i < K)%nat -> counter_after note t i < limit.
Proof.
  induction fuel as [| fuel IH]; intros note limit t w r Hrun;
    rewrite play_note_loop_eq in Hrun; destruct (t <? limit) eqn:Hlt.
  - unfold stuck in Hrun. discriminate.
  - exists 0%nat. apply Z.ltb_ge in Hlt. split; [lia |]. split; [exact Hlt |]. lia.
  - rewrite cycle_run in Hrun. apply IH in Hrun as (K & HK & Hend & Hbelow).
    exists (S K). split; [lia |]. split; [exact Hend |].
    intros [| i] Hi; [apply Z.ltb_lt; exact Hlt | apply Hbelow; lia].
  - exists 0%nat. apply Z.ltb_ge in Hlt. split; [lia |]. split; [exact Hlt |]. lia.
Qed.

(** The result does not depend on the fuel left over. *)
Lemma play_note_loop_fuel (K : nat) :
  forall fuel note limit t w,
    (K <= fuel)%nat -> limit <= counter_after note t K ->
    (forall i : nat, (i < K)%nat -> counter_after note t i < limit) ->
    play_note_loop fuel note limit t w = play_note_loop K note limit t w.
Proof.
  induction K as [| K IH]; intros fuel note limit t w HK Hend Hbelow.
  - cbn [counter_after] in Hend. apply Z.ltb_ge in Hend.
    rewrite !play_note_loop_eq, Hend. reflexivity.
  - destruct fuel as [| fuel]; [lia |].
    rewrite !(play_note_loop_eq (S _)). destruct (t <? limit); [| reflexivity].
    rewrite !cycle_run. apply IH; [lia | exact Hend |].
    intros i Hi. apply (Hbelow (S i)). lia.
Qed.

(** The passes before the exit find pairwise distinct values of [t]. *)
Lemma counter_values_distinct note limit t (K i j : nat) :
  limit <= counter_after note t K ->
  (forall i : nat, (i < K)%nat -> counter_after note t i < limit) ->
  (i < j)%nat -> (j < K)%nat ->
  counter_after note t i <> counter_after note t j.
Proof.
  intros Hend Hbelow Hij HjK Heq.
  assert (Hshift : counter_after note t (i + (K - j)) = counter_after note t K).
  { rewrite counter_after_add, Heq, <- counter_after_add. f_equal. lia. }
  specialize (Hbelow (i + (K - j))%nat ltac:(lia)). lia.
Qed.

Lemma exit_within_limit note limit t (K : nat) :
  0 <= t ->
  limit <= counter_after note t K ->
  (forall i : nat, (i < K)%nat -> counter_after note t i < limit) ->
  (K <= Z.to_nat limit)%nat.
Proof.
  intros Ht Hend Hbelow.
  set (visited := counter_after note t <$> seq 0 K).
  set (below := Z.of_nat <$> seq 0 (Z.to_nat limit)).
  assert (Hnodup : NoDup visited).
  { subst visited. apply NoDup_fmap_2_strong; [| apply NoDup_seq].
    intros x y Hx Hy Heq.
    apply elem_of_seq in Hx, Hy.
    destruct (Nat.lt_trichotomy x y) as [Hlt | [Heq' | Hgt]]; [| exact Heq' |].
    - exfalso. apply (counter_values_distinct note limit t K x y); auto; lia.
    - exfalso. apply (counter_values_distinct note limit t K y x); auto; lia. }
  assert (Hincl : forall v, v ∈ visited -> v ∈ below).
  { intros v Hv. subst visited below.
    apply list_elem_of_fmap in Hv as (i & -> & Hi).
    apply elem_of_seq in Hi.
    pose proof (counter_after_nonneg note t i Ht).
    specialize (Hbelow i ltac:(lia)).
    apply list_elem_of_fmap. exists (Z.to_nat (counter_after note t i)).
    split; [lia |]. apply elem_of_seq. lia. }
  pose proof (submseteq_length _ _ (NoDup_submseteq _ _ Hnodup Hincl)) as Hlen.
  subst visited below. rewrite !length_fmap, !length_seq in Hlen. exact Hlen.
Qed.

Lemma play_note_loop_fuel_adequate fuel note limit t w r :
  0 <= t ->
  play_note_loop fuel note limit t w = Some r ->
  play_note_loop (Z.to_nat limit) note limit t w = Some r.
Proof.
  intros Ht Hrun.
  destruct (play_note_loop_exit fuel note limit t w r Hrun) as (K & HK & Hend & Hbelow).
  pose proof (exit_within_limit note limit t K Ht Hend Hbelow) as Hle.
  rewrite (play_note_loop_fuel K (Z.to_nat limit)) by assumption.
  rewrite <- (play_note_loop_fuel K fuel) by assumption. exact Hrun.
Qed.

Lemma play_note_stuck_for_any_fuel fuel note limit t w :
  0 <= t ->
  play_note_loop (Z.to_nat limit) note limit t w = None ->
  play_note_loop fuel note limit t w = None.
Proof.
  intros Ht Hstuck.
  destruct (play_note_loop fuel note limit t w) as [r |] eqn:Hrun; [| reflexivity].
  apply play_note_loop_fuel_adequate in Hrun; [| exact Ht]. congruence.
Qed.

(** The events of [play_note], as the code has it.  [play_note 0 d] puts
    out the single delay of [d] milliseconds, so it takes exactly [d] ms
    and never touches the speaker pin.  [play_note p d] with [p > 0] (and
    [1000 * d + p] within 32 bits) puts out [n] passes of: pin high, delay
    [p / 4] us, pin low, delay [p / 4] us, where [n] is the least number
    with [1000 * d <= n * p], and nothing else.  In both cases the clock
    advances by the delays put out. *)
Theorem play_note_events (note durationMs : Z) (w : World) :
  0 <= durationMs ->
  (note = 0 /\ durationMs < 2 ^ 32) \/
  (0 < note < 2 ^ 32 /\ 1000 * durationMs + note <= 2 ^ 32) ->
  exists evs,
    play_note note durationMs w = Some (tt, after_events evs w) /\
    out (after_events evs w) = out w ++ evs /\
    clock_us (after_events evs w) = clock_us w + delays_us evs /\
    (note = 0 ->
       evs = [EvDelayMs durationMs] /\
       delays_us evs = 1000 * durationMs /\
       filter (fun e => is_toggle e) evs = []) /\
    (0 < note ->
       exists n : nat,
         evs = concat (replicate n (cycle note)) /\
         filter (fun e => is_toggle e) evs
           = concat (replicate n [EvPinHigh; EvPinLow]) /\
         1000 * durationMs <= Z.of_nat n * note < 1000 * durationMs + note).
Proof.
  intros Hd [[-> Hlt] | [Hnote Hfit]].
  - exists [EvDelayMs durationMs].
    rewrite play_note_rest_run by lia.
    split; [reflexivity |]. split; [reflexivity |]. split; [reflexivity |].
    split.
    + intros _. split; [reflexivity |]. split; [cbn; lia | reflexivity].
    + intros H. lia.
  - exists (concat (replicate (cycles_needed note (1000 * durationMs)) (cycle note))).
    rewrite play_note_run by lia.
    split; [reflexivity |]. split; [reflexivity |]. split; [reflexivity |].
    split.
    + intros ->. lia.
    + intros _. exists (cycles_needed note (1000 * durationMs)).
      split; [reflexivity |]. split; [apply filter_toggle_cycles |].
      pose proof (cycles_needed_spec note (1000 * durationMs)) as Hn.
      cbv zeta in Hn. lia.
Qed.

Lemma play_note_events_witness :
  exists evs,
    play_note 2272 500 idle_world = Some (tt, after_events evs idle_world) /\
    exists n : nat,
      evs = concat (replicate n (cycle 2272)) /\
      1000 * 500 <= Z.of_nat n * 2272 < 1000 * 500 + 2272.
Proof.
  destruct (play_note_events 2272 500 idle_world) as (evs & Hrun & _ & _ & _ & Htone).
  - lia.
  - right. lia.
  - exists evs. split; [exact Hrun |].
    destruct Htone as (n & Hevs & _ & Hn); [lia |].
    exists n. split; [exact Hevs | exact Hn].
Defined.

(** C3.  A tone does not last the duration that [play_note] is given:
    [play_note 2272 500] makes 221 passes of 2 * 568 us and returns after
    251056 us, not after 500 ms.  The counter [t], which the code calls the
    elapsed time, grows by [note] per pass, while a pass delays twice
    [note / 4], which the code calls the half period: a pass lasts half of
    what is counted for it. *)
Lemma play_note_A_500ms_takes_251ms :
  exists w',
    play_note 2272 500 idle_world = Some (tt, w') /\
    clock_us w' = clock_us idle_world + 251056 /\
    clock_us w' <> clock_us idle_world + 1000 * 500.
Proof.
  eexists. split.
  - apply play_note_run; lia.
  - vm_compute. split; [reflexivity | discriminate].
Qed.

(** ** ThemeAdapter *)

Lemma adjust_theme_run (w : World) (l : Z) (ls : list Z) :
  light_in (inputs w) = l :: ls ->
  let w1 := set_theme (palette_for (to_uint32 l)) (after_light ls w) in
  adjust_theme w =
  if decide (fontColor (palette_for (to_uint32 l)) = fontColor (theme w))
  then Some (0, w1)
  else Some (1, after_events change_tone w1).
Proof.
  intros Hl w1. unfold adjust_theme. run_monad.
  unfold light_read. rewrite Hl.
  subst w1. unfold palette_for.
  destruct (to_uint32 l <? 125); cbn -[change_tone];
    destruct (decide _) as [Heq | Hne]; try reflexivity;
    rewrite play_note_run by lia; reflexivity.
Qed.

(** After any call the colour variables hold one of the two palettes. *)
Lemma adjust_theme_palette (w w' : World) (r : Z) :
  adjust_theme w = Some (r, w') ->
  theme w' = day_theme \/ theme w' = night_theme.
Proof.
  intros Hrun.
  destruct (light_in (inputs w)) as [| l ls] eqn:Hl.
  - unfold adjust_theme in Hrun. rewrite run_bind in Hrun.
    unfold light_read in Hrun. rewrite Hl in Hrun. discriminate.
  - rewrite (adjust_theme_run w l ls Hl) in Hrun. cbv zeta in Hrun.
    destruct (decide _); injection Hrun as <- <-; cbn -[change_tone];
      unfold palette_for; destruct (to_uint32 l <? 125); auto.
Qed.

(** C6.  A call of [adjust_theme] that reads [reading] from the sensor
    leaves the night palette (white on black) when [reading < 125] and the
    day palette otherwise, whatever the colour variables held.  The result
    is 1 if the font colour is now a different one and 0 if it is the same;
    when the colour variables held one of the two palettes before the call,
    that is: 1 if the palette is now a different one and 0 if it is the
    same.  A further call whose reading is on the same side of 125 returns
    0 and keeps the palette. *)
Theorem adjust_theme_spec (w : World) (l : Z) (ls : list Z) :
  light_in (inputs w) = l :: ls ->
  let reading := to_uint32 l in
  exists r w',
    adjust_theme w = Some (r, w') /\
    theme w' = (if reading <? 125
                then mkTheme OLED_COLOR_WHITE OLED_COLOR_BLACK
                else mkTheme OLED_COLOR_BLACK OLED_COLOR_WHITE) /\
    (r = 0 \/ r = 1) /\
    (r = 1 <-> fontColor (theme w') <> fontColor (theme w)) /\
    (theme w = day_theme \/ theme w = night_theme ->
     (r = 1 <-> theme w' <> theme w)) /\
    (forall l2 ls2,
       light_in (inputs w') = l2 :: ls2 ->
       (to_uint32 l2 <? 125) = (reading <? 125) ->
       exists w'', adjust_theme w' = Some (0, w'') /\ theme w'' = theme w').
Proof.
  intros Hl reading.
  assert (Hagain : forall wa l2 ls2,
            theme wa = palette_for reading ->
            light_in (inputs wa) = l2 :: ls2 ->
            (to_uint32 l2 <? 125) = (reading <? 125) ->
            exists w'', adjust_theme wa = Some (0, w'') /\ theme w'' = theme wa).
  { intros wa l2 ls2 Hth Hl2 Hside.
    rewrite (adjust_theme_run wa l2 ls2 Hl2). cbv zeta.
    assert (Hsame : palette_for (to_uint32 l2) = palette_for reading)
      by (unfold palette_for; rewrite Hside; reflexivity).
    rewrite Hsame, Hth.
    rewrite decide_True by reflexivity.
    eexists. split; [reflexivity |]. reflexivity. }
  assert (Hiff : forall r, theme w = day_theme \/ theme w = night_theme ->
            (if decide (fontColor (palette_for reading) = fontColor (theme w))
             then r = 0 else r = 1) ->
            (r = 1 <-> palette_for reading <> theme w)).
  { intros r Hvalid Hr. unfold palette_for in *.
    destruct Hvalid as [Hth | Hth]; rewrite Hth in *; destruct (reading <? 125);
      destruct (decide _) as [He | He]; cbn in He; subst r;
      split; intros H; try congruence; try discriminate; try lia. }
  pose proof (adjust_theme_run w l ls Hl) as Hrun. cbv zeta in Hrun.
  fold reading in Hrun.
  set (w1 := set_theme (palette_for reading) (after_light ls w)) in Hrun.
  destruct (decide _) as [Heq | Hne].
  - exists 0, w1. split; [exact Hrun |]. split; [reflexivity |].
    split; [auto |]. split; [| split].
    + split; [discriminate |]. intros Hfont. exfalso. apply Hfont. exact Heq.
    + intros Hvalid. apply Hiff; [exact Hvalid | reflexivity].
    + intros l2 ls2. apply Hagain. reflexivity.
  - exists 1, (after_events change_tone w1).
    split; [exact Hrun |]. split; [reflexivity |].
    split; [auto |]. split; [| split].
    + split; [intros _; exact Hne | reflexivity].
    + intros Hvalid. apply Hiff; [exact Hvalid | reflexivity].
    + intros l2 ls2. apply Hagain. reflexivity.
Qed.

Lemma adjust_theme_spec_witness :
  exists r w',
    adjust_theme (after_light [100; 90] idle_world) = Some (r, w') /\
    theme w' = night_theme /\
    (r = 1 <-> fontColor (theme w') <> fontColor day_theme) /\
    (r = 1 <-> theme w' <> day_theme).
Proof.
  destruct (adjust_theme_spec (after_light [100; 90] idle_world) 100 [90] eq_refl)
    as (r & w' & Hrun & Hth & _ & Hfont & Hiff & _).
  exists r, w'. split; [exact Hrun |]. split; [exact Hth |].
  split; [exact Hfont |]. apply Hiff. left. reflexivity.
Defined.

(** C6, as stated, fails where the two colour variables are equal, as the
    zero-initialised statics are before the first call of [main]:
    [adjust_theme] compares the font colour only, so in bright light the
    background changes, the palette in effect is a different one, and the
    result is 0. *)
Lemma adjust_theme_from_equal_colours :
  exists w',
    adjust_theme
      (set_theme (mkTheme OLED_COLOR_BLACK OLED_COLOR_BLACK)
         (after_light [200] idle_world))
    = Some (0, w') /\
    theme w' = day_theme /\
    theme w' <> mkTheme OLED_COLOR_BLACK OLED_COLOR_BLACK.
Proof.
  eexists. split; [reflexivity |]. split; [reflexivity | discriminate].
Qed.

(** ** ReactionTimer *)

Lemma after_joy_events rest rest' evs w :
  after_joy rest (after_events evs (after_joy rest' w))
  = after_events evs (after_joy rest w).
Proof. destruct w. reflexivity. Qed.

Section ReactionTimer.
Context {board : Board}.

Lemma joystick_read_run w j js :
  joy_in (inputs w) = j :: js ->
  joystick_read w = Some (to_uint8 j, after_joy js w).
Proof. intros Hj. unfold joystick_read. rewrite Hj. reflexivity. Qed.

(** The wait loop returns at the first sample that reads pressed, having
    delayed 1 ms for each sample before it. *)
Lemma wait_loop_run (pre : list Z) :
  forall (fuel : nat) (w : World) (j : Z) (rest : list Z),
    joy_in (inputs w) = pre ++ j :: rest ->
    Forall (fun s => confirm_pressed s = false) pre ->
    confirm_pressed j = true ->
    (length pre < fuel)%nat ->
    wait_loop fuel w
    = Some (tt, after_events (replicate (length pre) (EvDelayMs 1)) (after_joy rest w)).
Proof.
  induction pre as [| s pre IH]; intros fuel w j rest Hjoy Hpre Hj Hfuel;
    (destruct fuel as [| fuel]; [cbn in Hfuel; lia |]);
    cbn [wait_loop]; rewrite run_bind;
    erewrite joystick_read_run by exact Hjoy.
  - unfold confirm_pressed in Hj. apply negb_true_iff in Hj. rewrite Hj.
    cbn [length replicate]. rewrite after_events_nil. reflexivity.
  - apply Forall_cons in Hpre as [Hs Hpre].
    unfold confirm_pressed in Hs. apply negb_false_iff in Hs. rewrite Hs.
    rewrite run_bind, delay32Ms_run.
    rewrite (IH fuel _ j rest); [| reflexivity | assumption | assumption | cbn in Hfuel; lia].
    rewrite after_joy_events, after_events_app. reflexivity.
Qed.

Lemma wait_for_joystick_center_click_run (w : World) pre j rest :
  joy_in (inputs w) = pre ++ j :: rest ->
  Forall (fun s => confirm_pressed s = false) pre ->
  confirm_pressed j = true ->
  wait_for_joystick_center_click w
  = Some (tt, after_events (replicate (length pre) (EvDelayMs 1)) (after_joy rest w)).
Proof.
  intros Hjoy Hpre Hj. unfold wait_for_joystick_center_click.
  apply (wait_loop_run pre _ w j rest); try assumption.
  rewrite Hjoy, length_app. cbn. lia.
Qed.

Lemma delays_us_replicate_ms (n : nat) (d : Z) :
  delays_us (replicate n (EvDelayMs d)) = 1000 * (Z.of_nat n * d).
Proof. induction n as [| n IH]; cbn [replicate delays_us]; lia. Qed.

Lemma measure_reaction_time_run (w : World) pre j rest :
  joy_in (inputs w) = pre ++ j :: rest ->
  Forall (fun s => confirm_pressed s = false) pre ->
  confirm_pressed j = true ->
  measure_reaction_time w
  = Some (to_uint32 (Z.of_nat (length pre)),
          after_events (replicate (length pre) (EvDelayMs 1))
            (after_joy rest (set_timer1_start (clock_us w) w))).
Proof.
  intros Hjoy Hpre Hj.
  set (w0 := set_timer1_start (clock_us w) w).
  assert (Hjoy0 : joy_in (inputs w0) = pre ++ j :: rest) by exact Hjoy.
  pose proof (wait_for_joystick_center_click_run w0 pre j rest Hjoy0 Hpre Hj) as Hwait.
  set (w' := after_events _ _) in *.
  assert (Hclock : clock_us w' = clock_us w + 1000 * Z.of_nat (length pre)).
  { subst w'. cbn. rewrite delays_us_replicate_ms. lia. }
  unfold measure_reaction_time. rewrite run_bind.
  change (timer1_reset_start w) with (Some (tt, w0)). cbv beta iota.
  rewrite run_bind, Hwait. cbv beta iota.
  unfold timer1_TC. run_monad.
  change (timer1_start w') with (clock_us w). rewrite Hclock.
  replace (clock_us w + 1000 * Z.of_nat (length pre) - clock_us w)
    with (Z.of_nat (length pre) * 1000) by lia.
  rewrite Z.div_mul by lia. reflexivity.
Qed.

(** C2, as the code has it.  [measure_reaction_time] starts its millisecond
    counter and polls the confirm input, waiting 1 ms after each poll that
    reads released; it returns at the first poll at which the input reads
    pressed, whatever the input was before, and returns the value of the
    counter at that poll: the number of milliseconds waited (in 32 bits).
    When the input already reads pressed at the first poll the result is
    0. *)
Theorem measure_reaction_time_level (w : World) (pre : list Z) (j : Z) (rest : list Z) :
  joy_in (inputs w) = pre ++ j :: rest ->
  Forall (fun s => confirm_pressed s = false) pre ->
  confirm_pressed j = true ->
  exists w',
    measure_reaction_time w = Some (to_uint32 (Z.of_nat (length pre)), w') /\
    joy_in (inputs w') = rest /\
    timer1_start w' = clock_us w /\
    clock_us w' = clock_us w + 1000 * Z.of_nat (length pre) /\
    to_uint32 (Z.of_nat (length pre))
      = to_uint32 ((clock_us w' - timer1_start w') / 1000) /\
    out w' = out w ++ replicate (length pre) (EvDelayMs 1) /\
    (pre = [] -> measure_reaction_time w = Some (0, w')).
Proof.
  intros Hjoy Hpre Hj.
  pose proof (measure_reaction_time_run w pre j rest Hjoy Hpre Hj) as Hrun.
  set (w' := after_events _ _) in Hrun.
  assert (Hclock : clock_us w' = clock_us w + 1000 * Z.of_nat (length pre)).
  { subst w'. cbn. rewrite delays_us_replicate_ms. lia. }
  exists w'. split; [exact Hrun |].
  split; [reflexivity |]. split; [reflexivity |].
  split; [exact Hclock |].
  split.
  { change (timer1_start w') with (clock_us w). rewrite Hclock.
    replace (clock_us w + 1000 * Z.of_nat (length pre) - clock_us w)
      with (Z.of_nat (length pre) * 1000) by lia.
    rewrite Z.div_mul by lia. reflexivity. }
  split; [reflexivity |].
  intros ->. exact Hrun.
Qed.

End ReactionTimer.

Lemma measure_reaction_time_level_witness :
  exists w',
    @measure_reaction_time xpresso_board (world_with_joy [0; 0; 0; 1; 1])
    = Some (3, w') /\ joy_in (inputs w') = [1].
Proof.
  destruct (@measure_reaction_time_level xpresso_board
              (world_with_joy [0; 0; 0; 1; 1]) [0; 0; 0] 1 [1])
    as (w' & Hrun & Hrest & _).
  - reflexivity.
  - repeat constructor.
  - reflexivity.
  - exists w'. split; [exact Hrun | exact Hrest].
Defined.

(** C2, as stated, fails: with the confirm button held down from before the
    timer is armed (every sample reads pressed, as does the state before),
    [measure_reaction_time] returns at its first poll with 0 ms, although
    the input makes its first released-to-pressed transition only at the
    fourth sample. *)
Lemma measure_reaction_time_fires_when_held :
  exists w',
    @measure_reaction_time xpresso_board (world_with_joy [1; 1; 0; 1])
    = Some (0, w') /\
    joy_in (inputs w') = [1; 0; 1] /\
    confirm_edge_index (@confirm_pressed xpresso_board) 1 [1; 1; 0; 1] = Some 3%nat.
Proof.
  eexists. split; [vm_compute; reflexivity |]. split; reflexivity.
Qed.

(** ** GameSession: the pre-stimulus hold *)

Lemma randomDelay_of_draw (x : Z) :
  0 <= x -> randomDelay x = 500 + x mod 3000.
Proof.
  intros Hx. unfold randomDelay.
  rewrite Z.rem_mod_nonneg by lia.
  pose proof (Z.mod_pos_bound x 3000 ltac:(lia)).
  rewrite to_uint32_small by lia. lia.
Qed.

(** C9, as the code has it.  For every draw [r >= 0] of [rand()] the hold is
    [500 + r mod 3000] milliseconds and lies in [500, 3499]; every value of
    the half-open interval [500, 3500) is the hold of exactly one residue
    [u] in [0, 3000), so a uniform residue gives a uniform hold over these
    3000 values. *)
Theorem randomDelay_range (r : Z) :
  0 <= r ->
  randomDelay r = 500 + r mod 3000 /\
  500 <= randomDelay r <= 3499 /\
  (forall t, 500 <= t < 3500 ->
     exists u, 0 <= u < 3000 /\ randomDelay u = t /\
               forall u', 0 <= u' < 3000 -> randomDelay u' = t -> u' = u).
Proof.
  intros Hr.
  pose proof randomDelay_of_draw as Hdelay.
  split; [apply Hdelay; exact Hr |]. split.
  - rewrite Hdelay by exact Hr.
    pose proof (Z.mod_pos_bound r 3000 ltac:(lia)). lia.
  - intros t Ht. exists (t - 500). split; [lia |]. split.
    + rewrite Hdelay by lia. rewrite Z.mod_small by lia. lia.
    + intros u' Hu' Heq. rewrite Hdelay in Heq by lia.
      rewrite Z.mod_small in Heq by lia. lia.
Qed.

Lemma randomDelay_range_witness :
  randomDelay 12345 = 500 + 12345 mod 3000 /\ 500 <= randomDelay 12345 <= 3499.
Proof.
  destruct (randomDelay_range 12345) as (Heq & Hrange & _).
  - lia.
  - split; [exact Heq | exact Hrange].
Defined.

(** C9, as stated, fails at the upper endpoint: no draw of [rand()] gives a
    hold of 3500 ms; the largest hold, 3499 ms, is that of the draw 2999. *)
Lemma randomDelay_never_3500 :
  randomDelay 2999 = 3499 /\ ~ (exists r, 0 <= r /\ randomDelay r = 3500).
Proof.
  split; [reflexivity |].
  intros (r & Hr & Heq).
  rewrite randomDelay_of_draw in Heq by exact Hr.
  pose proof (Z.mod_pos_bound r 3000 ltac:(lia)). lia.
Qed.

(** ** GameSession: the Result step *)

Lemma is_new_record_spec T H :
  is_new_record T H = true <-> T < H \/ H = 0.
Proof. unfold is_new_record. rewrite orb_true_iff. lia. Qed.

Lemma emit_display_run (e : event) (w : World) :
  delays_us [e] = 0 -> emit e w = Some (tt, after_events [e] w).
Proof.
  intros He. destruct w. unfold after_events. rewrite He.
  cbn. rewrite Z.add_0_r. reflexivity.
Qed.

Lemma oled_clearScreen_run w :
  oled_clearScreen w
  = Some (tt, after_events [EvOled (OledClear (backgroundColor (theme w)))] w).
Proof. unfold oled_clearScreen. rewrite run_bind. apply emit_display_run. reflexivity. Qed.

Lemma oled_putString_run text w :
  oled_putStringHorizontallyCentered text w
  = Some (tt, after_events
                [EvOled (OledText text (fontColor (theme w)) (backgroundColor (theme w)))] w).
Proof.
  unfold oled_putStringHorizontallyCentered. rewrite run_bind.
  apply emit_display_run. reflexivity.
Qed.

Lemma oled_putValue_run label v w :
  oled_putValueHorizontallyCentered label v w
  = Some (tt, after_events
                [EvOled (OledValue label v (fontColor (theme w)) (backgroundColor (theme w)))] w).
Proof.
  unfold oled_putValueHorizontallyCentered. rewrite run_bind.
  apply emit_display_run. reflexivity.
Qed.

Lemma play_note_tone_run (note durationMs : Z) (w : World) :
  0 < note < 2 ^ 32 -> 0 <= durationMs ->
  1000 * durationMs + note <= 2 ^ 32 ->
  play_note note durationMs w = Some (tt, after_events (tone note durationMs) w).
Proof. apply play_note_run. Qed.

Lemma set_eeprom_after_events e evs w :
  set_eeprom e (after_events evs w) = after_events evs (set_eeprom e w).
Proof. destruct w. reflexivity. Qed.

Lemma theme_after_events evs w : theme (after_events evs w) = theme w.
Proof. reflexivity. Qed.

Lemma eeprom_after_events evs w : eeprom (after_events evs w) = eeprom w.
Proof. reflexivity. Qed.

(** One step of a run: the first computation is rewritten with a run lemma. *)
Ltac run_step lem :=
  rewrite run_bind; rewrite lem; cbv beta iota;
  rewrite ?theme_after_events, ?eeprom_after_events.

Lemma decimal_length_from_pos (fuel : nat) (n : Z) : 1 <= decimal_length_from fuel n.
Proof.
  revert n. induction fuel as [| fuel IH]; intros n; cbn [decimal_length_from]; [lia |].
  destruct (n <? 10); [lia |]. specialize (IH (n / 10)). lia.
Qed.

(** The result text of a time below 10 ms takes the five bytes of its
    array; a longer one does not fit. *)
Lemma reactionTimeMsString_bytes_digit (T : Z) :
  0 <= T < 10 ->
  decimal_length (to_uint32 T) = 1 /\ reactionTimeMsString_bytes T = 5.
Proof.
  intros HT. unfold reactionTimeMsString_bytes.
  rewrite to_uint32_small by lia.
  assert (Hlen : decimal_length T = 1).
  { unfold decimal_length.
    change (decimal_length_from 9 T)
      with (if T <? 10 then 1 else 1 + decimal_length_from 8 (T / 10)).
    replace (T <? 10) with true by (symmetry; apply Z.ltb_lt; lia). reflexivity. }
  rewrite Hlen. split; reflexivity.
Qed.

Lemma reactionTimeMsString_bytes_long (T : Z) :
  10 <= T < 2 ^ 32 -> reactionTimeMsString_size < reactionTimeMsString_bytes T.
Proof.
  intros HT. unfold reactionTimeMsString_bytes, reactionTimeMsString_size.
  rewrite to_uint32_small by lia.
  unfold decimal_length.
  change (decimal_length_from 9 T)
    with (if T <? 10 then 1 else 1 + decimal_length_from 8 (T / 10)).
  replace (T <? 10) with false by (symmetry; apply Z.ltb_ge; lia).
  pose proof (decimal_length_from_pos 8 (T / 10)).
  change (Z.of_nat (String.length " ms")) with 3. lia.
Qed.

Lemma round_result_run (T H : Z) (w : World) :
  0 <= T < 10 ->
  round_result T H w =
  if is_new_record T H
  then Some (to_uint16 T,
             after_events (result_display T (theme w) ++ record_banner (theme w)
                             :: record_fanfare)
               (set_eeprom (store_score T (eeprom w)) w))
  else Some (H, after_events (result_display T (theme w)) w).
Proof.
  intros HT. destruct (reactionTimeMsString_bytes_digit T HT) as [Hlen Hbytes].
  unfold round_result.
  unfold sprintf_reactionTimeMsString, strcat_reactionTimeMsString.
  rewrite Hlen, Hbytes. unfold reactionTimeMsString_size.
  change (1 + 1 <=? 5) with true. change (5 <=? 5) with true. cbv iota.
  rewrite run_bind. unfold mret at 1, M_ret at 1. cbv beta iota.
  run_step oled_clearScreen_run.
  rewrite run_bind. unfold mret at 1, M_ret at 1. cbv beta iota.
  run_step oled_clearScreen_run.
  run_step oled_putValue_run.
  fold (is_new_record T H). destruct (is_new_record T H).
  - run_step oled_putString_run.
    run_step set_high_score_run.
    change (note_at 0) with 2272. change (note_at 5) with 3030.
    change (note_at 10) with 1136.
    rewrite run_bind, play_note_tone_run by lia. cbv beta iota.
    rewrite run_bind, play_note_tone_run by lia. cbv beta iota.
    rewrite run_bind, play_note_tone_run by lia. cbv beta iota.
    fold (store_score T (eeprom w)).
    rewrite !after_events_app, set_eeprom_after_events, !after_events_app.
    reflexivity.
  - rewrite !after_events_app. reflexivity.
Qed.

(** A result text that does not fit: the Result step has no defined
    outcome. *)
Lemma round_result_overrun (T H : Z) (w : World) :
  10 <= T < 2 ^ 32 -> round_result T H w = None.
Proof.
  intros HT. pose proof (reactionTimeMsString_bytes_long T HT) as Hlong.
  unfold round_result.
  rewrite run_bind. unfold sprintf_reactionTimeMsString.
  destruct (_ <=? _); [| reflexivity].
  unfold mret at 1, M_ret at 1. cbv beta iota.
  rewrite run_bind, oled_clearScreen_run. cbv beta iota.
  rewrite run_bind. unfold strcat_reactionTimeMsString.
  replace (reactionTimeMsString_bytes T <=? reactionTimeMsString_size) with false
    by (symmetry; apply Z.leb_gt; exact Hlong).
  reflexivity.
Qed.

Lemma stored_score_store_score (v : Z) (e : Z -> Z) :
  stored_score (store_score v e) = to_uint16 v.
Proof. apply stored_score_after_set. Qed.

Lemma banner_not_in_display T t : ~ In (record_banner t) (result_display T t).
Proof.
  unfold record_banner, result_display. cbn.
  intros [H | [H | [H | []]]]; discriminate.
Qed.

(** C1.  In a round whose local [highScoreMs] equals the stored score [H],
    with measured time [T]: when the text of [T] fits its array, which is
    when [T < 10], the NEW RECORD banner is shown exactly when [T < H] or
    [H = 0]; in that case the store then holds [T]; otherwise the store is
    left as it was; in both cases the local [highScoreMs] again equals the
    stored score.  For every [T] from 10 on the text is longer than the
    array [reactionTimeMsString], and the Result step has no defined
    outcome: the record test comes after the write past the end of the
    array. *)
Theorem round_result_record_rule (w : World) (T : Z) :
  0 <= T < 2 ^ 32 ->
  let H := stored_score (eeprom w) in
  (T < 10 ->
   exists hs' evs w',
     round_result T H w = Some (hs', w') /\
     out w' = out w ++ evs /\
     (In (record_banner (theme w)) evs <-> T < H \/ H = 0) /\
     (T < H \/ H = 0 -> stored_score (eeprom w') = T) /\
     (~ (T < H \/ H = 0) -> eeprom w' = eeprom w) /\
     hs' = stored_score (eeprom w')) /\
  (10 <= T ->
   reactionTimeMsString_size < reactionTimeMsString_bytes T /\
   round_result T H w = None).
Proof.
  intros HT H. split.
  - intros Hfit.
    pose proof (is_new_record_spec T H) as Hrule.
    rewrite round_result_run by lia.
    destruct (is_new_record T H).
    + assert (Hrec : T < H \/ H = 0) by (apply Hrule; reflexivity).
      eexists _, _, _. split; [reflexivity |].
      split; [reflexivity |].
      rewrite eeprom_after_events. cbn [eeprom set_eeprom].
      rewrite stored_score_store_score.
      split; [| split; [| split]].
      * split; [intros _; exact Hrec |]. intros _.
        apply in_or_app. right. left. reflexivity.
      * intros _. apply to_uint16_small. lia.
      * intros Hnot. contradiction.
      * reflexivity.
    + assert (Hno : ~ (T < H \/ H = 0)).
      { intros Hrec. apply Hrule in Hrec. discriminate. }
      eexists _, _, _. split; [reflexivity |].
      split; [reflexivity |].
      split; [| split; [| split]].
      * split; [| intros Hrec; contradiction].
        intros Hin. exfalso. exact (banner_not_in_display _ _ Hin).
      * intros Hrec. contradiction.
      * intros _. reflexivity.
      * reflexivity.
  - intros Hlong. split.
    + apply reactionTimeMsString_bytes_long. lia.
    + apply round_result_overrun. lia.
Qed.

Lemma round_result_record_rule_witness :
  reactionTimeMsString_size < reactionTimeMsString_bytes 250 /\
  round_result 250
    (stored_score (eeprom (set_eeprom (store_score 300 (fun _ => 0)) idle_world)))
    (set_eeprom (store_score 300 (fun _ => 0)) idle_world) = None.
Proof.
  destruct (round_result_record_rule
              (set_eeprom (store_score 300 (fun _ => 0)) idle_world) 250)
    as [_ Hlong]; [lia |].
  apply Hlong. lia.
Defined.

(** C10.  A measured time [T >= 65536] never reaches [set_high_score] in a
    defined way: its text is longer than the array [reactionTimeMsString],
    so the Result step has no defined outcome.  The conversion that the
    claim describes is the one of the parameter of [set_high_score]: called
    with [T], it stores [T mod 65536], which is at least 65536 below [T],
    and [read_high_score] returns that. *)
Theorem record_time_truncated (w : World) (T H : Z) :
  2 ^ 16 <= T < 2 ^ 32 ->
  reactionTimeMsString_size < reactionTimeMsString_bytes T /\
  round_result T H w = None /\
  exists w',
    (set_high_score T;; read_high_score) w = Some (T mod 2 ^ 16, w') /\
    T mod 2 ^ 16 <= T - 2 ^ 16.
Proof.
  intros HT.
  split; [apply reactionTimeMsString_bytes_long; lia |].
  split; [apply round_result_overrun; lia |].
  rewrite run_bind, set_high_score_run. cbv beta iota.
  rewrite read_high_score_run. cbn [eeprom set_eeprom].
  rewrite stored_score_after_set.
  eexists. split; [reflexivity |].
  unfold to_uint16.
  pose proof (Z.div_mod T (2 ^ 16) ltac:(lia)) as Hdm.
  assert (1 <= T / 2 ^ 16) by (apply Z.div_le_lower_bound; lia).
  lia.
Qed.

Lemma record_time_truncated_witness :
  round_result 70000 0 zero_score_world = None /\
  exists w', (set_high_score 70000;; read_high_score) zero_score_world = Some (4464, w').
Proof.
  destruct (record_time_truncated zero_score_world 70000 0)
    as (_ & Hrun & w' & Hstore & _); [lia |].
  split; [exact Hrun |]. exists w'. exact Hstore.
Defined.

(** The rule on a time whose text fits: 7 ms against a stored 9 is a
    record. *)
Example round_result_7_against_9 :
  exists w',
    round_result 7 9 (set_eeprom (store_score 9 (fun _ => 0)) idle_world)
    = Some (7, w') /\
    stored_score (eeprom w') = 7.
Proof. eexists. split; vm_compute; reflexivity. Qed.

(** ** MenuController *)

Lemma rising_same mask joy : rising mask joy joy = false.
Proof. unfold rising. apply andb_negb_r. Qed.

Lemma rising_spec mask joy previous_joy :
  rising mask joy previous_joy = true
  <-> Z.land joy mask <> 0 /\ Z.land previous_joy mask = 0.
Proof.
  unfold rising, nonzero.
  rewrite andb_true_iff, negb_involutive, negb_true_iff, Z.eqb_eq, Z.eqb_neq.
  reflexivity.
Qed.

Lemma next_index_range a i :
  0 <= i < MENU_ITEM_COUNT -> 0 <= next_index a i < MENU_ITEM_COUNT.
Proof.
  intros Hi. unfold MENU_ITEM_COUNT in *.
  destruct a; cbn [next_index]; try lia; apply Z.mod_pos_bound; lia.
Qed.

(** On indices in range the C remainder is the mathematical one. *)
Lemma rem_down i :
  0 <= i < MENU_ITEM_COUNT ->
  Z.rem (i + 1) MENU_ITEM_COUNT = next_index NavDown i.
Proof. intros Hi. unfold MENU_ITEM_COUNT in *. apply Z.rem_mod_nonneg; lia. Qed.

Lemma rem_up i :
  0 <= i < MENU_ITEM_COUNT ->
  Z.rem (i - 1 + MENU_ITEM_COUNT) MENU_ITEM_COUNT = next_index NavUp i.
Proof. intros Hi. unfold MENU_ITEM_COUNT in *. apply Z.rem_mod_nonneg; lia. Qed.

Lemma get_run {A : Type} (f : World -> A) w : get f w = Some (f w, w).
Proof. reflexivity. Qed.

Lemma draw_menu_run w :
  draw_menu w
  = Some (tt, after_events
                [EvOled (OledClear (backgroundColor (theme w)));
                 EvOled (OledMenu (selectedIndex w) (fontColor (theme w))
                                  (backgroundColor (theme w)))] w).
Proof.
  unfold draw_menu. run_step oled_clearScreen_run.
  run_step @get_run. run_step @get_run.
  rewrite emit_display_run by reflexivity.
  rewrite after_events_app. reflexivity.
Qed.

(** The background part of a pass needs one accelerometer and one light
    sample; it leaves the menu index and the joystick samples alone. *)
Lemma handle_menu_background_run (w : World) a accs l ls :
  acc_in (inputs w) = a :: accs ->
  light_in (inputs w) = l :: ls ->
  exists w',
    handle_menu_background w = Some (tt, w') /\
    selectedIndex w' = selectedIndex w /\
    joy_in (inputs w') = joy_in (inputs w) /\
    acc_in (inputs w') = accs /\
    light_in (inputs w') = ls.
Proof.
  intros Hacc Hl. destruct a as [[x y] z].
  unfold handle_menu_background.
  rewrite run_bind, (is_board_tilted_run w x y z accs Hacc). cbv beta iota zeta.
  set (wt := set_tilt _ _).
  assert (Hlt : light_in (inputs wt) = l :: ls) by exact Hl.
  assert (Hfin : forall w1 : World,
            light_in (inputs w1) = l :: ls ->
            selectedIndex w1 = selectedIndex w ->
            joy_in (inputs w1) = joy_in (inputs w) ->
            acc_in (inputs w1) = accs ->
            exists w',
              (changed ← adjust_theme;
               (if nonzero changed then draw_menu else mret tt);;
               delay32Ms 50) w1 = Some (tt, w') /\
              selectedIndex w' = selectedIndex w /\
              joy_in (inputs w') = joy_in (inputs w) /\
              acc_in (inputs w') = accs /\
              light_in (inputs w') = ls).
  { intros w1 Hl1 Hsel Hjoy Haccs.
    rewrite run_bind, (adjust_theme_run w1 l ls Hl1). cbv zeta.
    destruct (decide _); cbv beta iota.
    - change (nonzero 0) with false. cbv iota.
      rewrite run_bind. unfold mret at 1, M_ret at 1. cbv beta iota.
      rewrite delay32Ms_run. eexists. split; [reflexivity |].
      cbn -[change_tone]. rewrite Hsel, Hjoy, Haccs. auto.
    - change (nonzero 1) with true. cbv iota.
      rewrite run_bind, draw_menu_run. cbv beta iota.
      rewrite delay32Ms_run. eexists. split; [reflexivity |].
      cbn -[change_tone]. rewrite Hsel, Hjoy, Haccs. auto. }
  destruct (beyond_threshold _ _).
  - change (nonzero 1) with true. cbv iota.
    rewrite run_bind. rewrite (run_bind (set_high_score 9999)).
    rewrite set_high_score_run. cbv beta iota.
    rewrite run_bind, oled_putString_run. cbv beta iota.
    rewrite delay32Ms_run. cbv beta iota.
    apply Hfin; [exact Hl | reflexivity ..].
  - change (nonzero 0) with false. cbv iota.
    rewrite run_bind. unfold mret at 1, M_ret at 1. cbv beta iota.
    apply Hfin; [exact Hl | reflexivity ..].
Qed.

Section MenuController.
Context {board : Board}.

Lemma index_after_in_range a i :
  0 <= i < MENU_ITEM_COUNT ->
  index_after a i = next_index a i /\ 0 <= index_after a i < MENU_ITEM_COUNT.
Proof.
  intros Hi.
  assert (Heq : index_after a i = next_index a i).
  { destruct a; cbn [index_after]; auto using rem_down, rem_up. }
  rewrite Heq. split; [reflexivity | apply next_index_range; exact Hi].
Qed.

Lemma poll_action_same joy : poll_action joy joy = NoAction.
Proof. unfold poll_action. rewrite !rising_same. reflexivity. Qed.

Lemma poll_action_down joy previous_joy :
  poll_action joy previous_joy = NavDown
  <-> rising JOYSTICK_DOWN joy previous_joy = true.
Proof.
  unfold poll_action.
  destruct (rising JOYSTICK_DOWN joy previous_joy); [tauto |].
  destruct (rising JOYSTICK_UP joy previous_joy);
    [| destruct (rising JOYSTICK_CENTER joy previous_joy)];
    split; discriminate.
Qed.

Lemma poll_action_up joy previous_joy :
  poll_action joy previous_joy = NavUp
  <-> rising JOYSTICK_UP joy previous_joy = true /\
      rising JOYSTICK_DOWN joy previous_joy = false.
Proof.
  unfold poll_action.
  destruct (rising JOYSTICK_DOWN joy previous_joy).
  - split; [discriminate | intros [_ H]; discriminate].
  - destruct (rising JOYSTICK_UP joy previous_joy); [tauto |].
    destruct (rising JOYSTICK_CENTER joy previous_joy);
      split; try discriminate; intros [H _]; discriminate.
Qed.

(** One pass of the menu loop, given one sample of each device. *)
Lemma handle_menu_poll_run (previous_joy : Z) (w : World) j js a accs l ls :
  joy_in (inputs w) = j :: js ->
  acc_in (inputs w) = a :: accs ->
  light_in (inputs w) = l :: ls ->
  let joy := to_uint8 j in
  let act := poll_action joy previous_joy in
  exists w',
    handle_menu_poll previous_joy w = Some ((act, joy), w') /\
    selectedIndex w' = index_after act (selectedIndex w) /\
    joy_in (inputs w') = js /\
    (act = Select -> w' = after_joy js w) /\
    (act <> Select -> acc_in (inputs w') = accs /\ light_in (inputs w') = ls).
Proof.
  intros Hjoy Hacc Hl joy act.
  unfold handle_menu_poll.
  rewrite run_bind, (joystick_read_run w j js Hjoy). cbv beta iota.
  fold joy. subst act. unfold poll_action.
  fold (rising JOYSTICK_DOWN joy previous_joy).
  fold (rising JOYSTICK_UP joy previous_joy).
  fold (rising JOYSTICK_CENTER joy previous_joy).
  assert (Hnav : forall (v : Z) (act : menu_action),
            act <> Select ->
            exists w',
              (modify (fun w0 => set_selectedIndex v w0);;
               draw_menu;; handle_menu_background;; mret (act, joy))
                (after_joy js w) = Some ((act, joy), w') /\
              selectedIndex w' = v /\
              joy_in (inputs w') = js /\
              (act = Select -> w' = after_joy js w) /\
              (act <> Select -> acc_in (inputs w') = accs /\ light_in (inputs w') = ls)).
  { intros v act Hact.
    rewrite run_bind. unfold modify at 1. cbv beta iota.
    rewrite run_bind, draw_menu_run. cbv beta iota.
    set (w2 := after_events _ _).
    destruct (handle_menu_background_run w2 a accs l ls Hacc Hl)
      as (w' & Hrun & Hsel & Hj & Ha & Hls).
    exists w'. rewrite run_bind, Hrun. cbv beta iota.
    split; [reflexivity |]. split; [exact Hsel |]. split; [exact Hj |].
    split; [intros; contradiction | auto]. }
  destruct (rising JOYSTICK_DOWN joy previous_joy).
  { apply (Hnav (Z.rem (selectedIndex w + 1) MENU_ITEM_COUNT) NavDown). discriminate. }
  destruct (rising JOYSTICK_UP joy previous_joy).
  { apply (Hnav (Z.rem (selectedIndex w - 1 + MENU_ITEM_COUNT) MENU_ITEM_COUNT) NavUp).
    discriminate. }
  destruct (rising JOYSTICK_CENTER joy previous_joy).
  { exists (after_joy js w). split; [reflexivity |].
    split; [reflexivity |]. split; [reflexivity |].
    split; [reflexivity | intros H; contradiction]. }
  destruct (handle_menu_background_run (after_joy js w) a accs l ls Hacc Hl)
    as (w' & Hrun & Hsel & Hj & Ha & Hls).
  exists w'. rewrite run_bind, Hrun. cbv beta iota.
  split; [reflexivity |]. split; [exact Hsel |]. split; [exact Hj |].
  split; [discriminate | auto].
Qed.

End MenuController.

Section MenuProperties.
Context {board : Board}.

(** [n] passes of the menu loop, given [n] samples of each device, started
    with the index in range. *)
Lemma handle_menu_polls_run (n : nat) :
  forall (previous_joy : Z) (w : World),
    0 <= selectedIndex w < MENU_ITEM_COUNT ->
    (n <= length (joy_in (inputs w)))%nat ->
    (n <= length (acc_in (inputs w)))%nat ->
    (n <= length (light_in (inputs w)))%nat ->
    exists actions last w',
      handle_menu_polls n previous_joy w = Some ((actions, last), w') /\
      selectedIndex w'
        = fold_left (fun i a => next_index a i) actions (selectedIndex w) /\
      0 <= selectedIndex w' < MENU_ITEM_COUNT /\
      (forall acts fuel, actions = acts ++ [Select] -> (n <= fuel)%nat ->
         handle_menu_loop fuel previous_joy w = Some (selectedIndex w', w')).
Proof.
  induction n as [| n IH]; intros previous_joy w Hsel Hj Ha Hl.
  - exists [], previous_joy, w. split; [reflexivity |].
    split; [reflexivity |]. split; [exact Hsel |].
    intros acts fuel Hacts _. destruct acts; discriminate.
  - destruct (joy_in (inputs w)) as [| j js] eqn:Hjoy; [cbn in Hj; lia |].
    destruct (acc_in (inputs w)) as [| a accs] eqn:Hacc; [cbn in Ha; lia |].
    destruct (light_in (inputs w)) as [| l ls] eqn:Hlight; [cbn in Hl; lia |].
    destruct (handle_menu_poll_run previous_joy w j js a accs l ls Hjoy Hacc Hlight)
      as (w1 & Hpoll & Hidx & Hjs & Hselect & Hrest).
    destruct (index_after_in_range (poll_action (to_uint8 j) previous_joy)
                (selectedIndex w) Hsel) as [Hnext Hrange].
    rewrite <- Hidx in Hrange. rewrite Hnext in Hidx.
    cbn [handle_menu_polls]. rewrite run_bind, Hpoll.
    cbv beta iota.
    destruct (decide (poll_action (to_uint8 j) previous_joy = Select)) as [Hact | Hact].
    + rewrite Hact in *. exists [Select], (to_uint8 j), w1.
      split; [reflexivity |]. split; [exact Hidx |]. split; [exact Hrange |].
      intros _ fuel _ Hfuel. destruct fuel as [| fuel]; [lia |].
      cbn [handle_menu_loop]. rewrite run_bind, Hpoll. reflexivity.
    + destruct (Hrest Hact) as [Haccs Hls].
      destruct (IH (to_uint8 j) w1 Hrange) as (actions & last & w' & Hrun & Hfold & Hin & Hloop).
      { rewrite Hjs. cbn in Hj. lia. }
      { rewrite Haccs. cbn in Ha. lia. }
      { rewrite Hls. cbn in Hl. lia. }
      exists (poll_action (to_uint8 j) previous_joy :: actions), last, w'.
      assert (Hcont : forall (A : Type) (x y : A),
                match poll_action (to_uint8 j) previous_joy with
                | Select => x | _ => y end = y).
      { intros A x y. destruct (poll_action (to_uint8 j) previous_joy);
          try reflexivity. contradiction. }
      rewrite Hcont, run_bind, Hrun. cbv beta iota.
      split; [reflexivity |].
      split; [cbn [fold_left]; rewrite <- Hidx; exact Hfold |].
      split; [exact Hin |].
      intros acts fuel Hacts Hfuel. destruct fuel as [| fuel]; [lia |].
      cbn [handle_menu_loop]. rewrite run_bind, Hpoll. cbv beta iota.
      rewrite Hcont.
      destruct acts as [| a0 acts].
      * inversion Hacts. contradiction.
      * cbn [app] in Hacts. inversion Hacts; subst.
        apply (Hloop acts); [reflexivity | lia].
Qed.

(** The passes of the menu loop and the samples they take: pass [k] takes
    the branch that sample [k] and the sample before it select, and the
    index follows the branches taken. *)
Lemma handle_menu_polls_trace (n : nat) :
  forall (previous_joy : Z) (w : World),
    (n <= length (joy_in (inputs w)))%nat ->
    (n <= length (acc_in (inputs w)))%nat ->
    (n <= length (light_in (inputs w)))%nat ->
    exists actions last w',
      handle_menu_polls n previous_joy w = Some ((actions, last), w') /\
      (forall k act,
         actions !! k = Some act ->
         exists j,
           joy_in (inputs w) !! k = Some j /\
           act = poll_action (to_uint8 j)
                   (previous_sample previous_joy (joy_in (inputs w)) k)) /\
      selectedIndex w'
      = fold_left (fun i a => index_after a i) actions (selectedIndex w).
Proof.
  induction n as [| n IH]; intros previous_joy w Hj Ha Hl.
  - exists [], previous_joy, w. split; [reflexivity |].
    split; [intros k act Hk; discriminate | reflexivity].
  - destruct (joy_in (inputs w)) as [| j js] eqn:Hjoy; [cbn in Hj; lia |].
    destruct (acc_in (inputs w)) as [| a accs] eqn:Hacc; [cbn in Ha; lia |].
    destruct (light_in (inputs w)) as [| l ls] eqn:Hlight; [cbn in Hl; lia |].
    destruct (handle_menu_poll_run previous_joy w j js a accs l ls Hjoy Hacc Hlight)
      as (w1 & Hpoll & Hidx & Hjs & _ & Hrest).
    cbn [handle_menu_polls]. rewrite run_bind, Hpoll. cbv beta iota.
    destruct (decide (poll_action (to_uint8 j) previous_joy = Select)) as [Hact | Hact].
    + rewrite Hact. exists [Select], (to_uint8 j), w1.
      split; [reflexivity |]. split.
      * intros [| k] act Hk; [| discriminate].
        injection Hk as <-. exists j. split; [reflexivity |].
        symmetry. exact Hact.
      * rewrite Hidx, Hact. reflexivity.
    + destruct (Hrest Hact) as [Haccs Hls].
      destruct (IH (to_uint8 j) w1) as (actions & last & w' & Hrun & Htrace & Hfold).
      { rewrite Hjs. cbn in Hj. lia. }
      { rewrite Haccs. cbn in Ha. lia. }
      { rewrite Hls. cbn in Hl. lia. }
      exists (poll_action (to_uint8 j) previous_joy :: actions), last, w'.
      split; [| split].
      * destruct (poll_action (to_uint8 j) previous_joy); try contradiction;
          rewrite run_bind, Hrun; reflexivity.
      * intros [| k] act Hk.
        { injection Hk as <-. exists j. split; reflexivity. }
        cbn [lookup list_lookup] in Hk.
        destruct (Htrace k act Hk) as (j' & Hj' & Hact').
        rewrite Hjs in Hj', Hact'.
        exists j'. split; [exact Hj' |].
        rewrite Hact'. destruct k; reflexivity.
      * cbn [fold_left]. rewrite Hfold, Hidx. reflexivity.
Qed.

(** The branch of a pass, read off the bits of the two samples. *)
Lemma poll_action_bits (joy before : Z) (act : menu_action) :
  act = poll_action joy before ->
  (act = NavDown
   <-> Z.land joy JOYSTICK_DOWN <> 0 /\ Z.land before JOYSTICK_DOWN = 0) /\
  (act = NavUp
   <-> (Z.land joy JOYSTICK_UP <> 0 /\ Z.land before JOYSTICK_UP = 0) /\
       ~ (Z.land joy JOYSTICK_DOWN <> 0 /\ Z.land before JOYSTICK_DOWN = 0)) /\
  (joy = before -> act = NoAction).
Proof.
  intros ->. split; [| split].
  - rewrite poll_action_down. apply rising_spec.
  - rewrite poll_action_up, <- !rising_spec.
    destruct (rising JOYSTICK_DOWN joy before); split; intros [H1 H2];
      (split; [exact H1 |]); congruence.
  - intros ->. apply poll_action_same.
Qed.

Lemma fold_next_index_range (actions : list menu_action) :
  forall i, 0 <= i < MENU_ITEM_COUNT ->
    0 <= fold_left (fun i a => next_index a i) actions i < MENU_ITEM_COUNT.
Proof.
  induction actions as [| a actions IH]; intros i Hi; [exact Hi |].
  cbn [fold_left]. apply IH, next_index_range, Hi.
Qed.

Lemma fold_index_after (actions : list menu_action) :
  forall i, 0 <= i < MENU_ITEM_COUNT ->
    fold_left (fun i a => index_after a i) actions i
    = fold_left (fun i a => next_index a i) actions i.
Proof.
  induction actions as [| a actions IH]; intros i Hi; [reflexivity |].
  cbn [fold_left]. destruct (index_after_in_range a i Hi) as [Heq Hin].
  rewrite Heq. apply IH. apply next_index_range, Hi.
Qed.

(** C4.  Run any number of passes of the menu loop, on any samples, from an
    index in [0, MENU_ITEM_COUNT) (at start-up: 0).  Pass [k] is a Down
    event exactly when the Down bit is set in sample [k] and clear in the
    sample before it, and an Up event exactly when the Up bit is so and the
    pass is not a Down event.  The index after the passes is the one
    obtained by applying, for each pass in turn, [(i + 1) mod N] for a Down
    event, [(i - 1 + N) mod N] for an Up event and no change otherwise; it
    is in [0, N) after every pass; and when the last pass is the selection
    and the loop was entered as [handle_menu] enters it, [handle_menu]
    returns that index.  A single pass that is an Up event takes the index
    from 0 to [N - 1]. *)
Theorem menu_index_in_range (n : nat) (previous_joy : Z) (w : World) :
  0 <= selectedIndex w < MENU_ITEM_COUNT ->
  (n <= length (joy_in (inputs w)))%nat ->
  (n <= length (acc_in (inputs w)))%nat ->
  (n <= length (light_in (inputs w)))%nat ->
  let step := fun (i : Z) (a : menu_action) =>
                match a with
                | NavDown => (i + 1) mod MENU_ITEM_COUNT
                | NavUp => (i - 1 + MENU_ITEM_COUNT) mod MENU_ITEM_COUNT
                | Select | NoAction => i
                end in
  exists actions last w',
    handle_menu_polls n previous_joy w = Some ((actions, last), w') /\
    (forall k act,
       actions !! k = Some act ->
       exists j,
         joy_in (inputs w) !! k = Some j /\
         let joy := to_uint8 j in
         let before := previous_sample previous_joy (joy_in (inputs w)) k in
         (act = NavDown
          <-> Z.land joy JOYSTICK_DOWN <> 0 /\ Z.land before JOYSTICK_DOWN = 0) /\
         (act = NavUp
          <-> (Z.land joy JOYSTICK_UP <> 0 /\ Z.land before JOYSTICK_UP = 0) /\
              ~ (Z.land joy JOYSTICK_DOWN <> 0 /\ Z.land before JOYSTICK_DOWN = 0))) /\
    selectedIndex w' = fold_left step actions (selectedIndex w) /\
    (forall m, 0 <= fold_left step (firstn m actions) (selectedIndex w)
               < MENU_ITEM_COUNT) /\
    (forall acts, actions = acts ++ [Select] -> previous_joy = 0xFF ->
       handle_menu w = Some (selectedIndex w', w')) /\
    (selectedIndex w = 0 -> actions = [NavUp] ->
     selectedIndex w' = MENU_ITEM_COUNT - 1).
Proof.
  intros Hsel Hj Ha Hl step.
  destruct (handle_menu_polls_trace n previous_joy w Hj Ha Hl)
    as (actions & last & w' & Hrun & Htrace & Hfold).
  destruct (handle_menu_polls_run n previous_joy w Hsel Hj Ha Hl)
    as (actions' & last' & w'' & Hrun' & _ & _ & Hloop).
  rewrite Hrun in Hrun'. injection Hrun' as <- <- <-.
  rewrite (fold_index_after actions _ Hsel) in Hfold.
  exists actions, last, w'.
  split; [exact Hrun |]. split; [| split; [exact Hfold | split; [| split]]].
  - intros k act Hk. destruct (Htrace k act Hk) as (j & Hjk & Hact).
    exists j. split; [exact Hjk |]. cbv zeta.
    destruct (poll_action_bits _ _ _ Hact) as (Hdown & Hup & _).
    split; assumption.
  - intros m. apply (fold_next_index_range (firstn m actions)), Hsel.
  - intros acts Hacts ->. unfold handle_menu.
    apply (Hloop acts); [exact Hacts | lia].
  - intros H0 Hacts. rewrite Hfold, H0, Hacts. reflexivity.
Qed.

(** C5.  Run any number of passes of the menu loop, on any samples.  Pass
    [k] moves the selection down exactly when the Down bit is set in sample
    [k] and clear in the sample before it; it moves the selection up
    exactly when the Up bit is so and the Down bit does not make that
    transition in the same sample; a pass whose sample equals the one
    before it does nothing.  So a direction that is held fires at most
    once, on the pass of its transition, and not again before a sample with
    its bit clear; and the index changes only in the passes that fire. *)
Theorem held_direction_fires_once (n : nat) (previous_joy : Z) (w : World) :
  (n <= length (joy_in (inputs w)))%nat ->
  (n <= length (acc_in (inputs w)))%nat ->
  (n <= length (light_in (inputs w)))%nat ->
  exists actions last w',
    handle_menu_polls n previous_joy w = Some ((actions, last), w') /\
    (forall k act,
       actions !! k = Some act ->
       exists j,
         joy_in (inputs w) !! k = Some j /\
         let joy := to_uint8 j in
         let before := previous_sample previous_joy (joy_in (inputs w)) k in
         (act = NavDown
          <-> Z.land joy JOYSTICK_DOWN <> 0 /\ Z.land before JOYSTICK_DOWN = 0) /\
         (act = NavUp
          <-> (Z.land joy JOYSTICK_UP <> 0 /\ Z.land before JOYSTICK_UP = 0) /\
              ~ (Z.land joy JOYSTICK_DOWN <> 0 /\ Z.land before JOYSTICK_DOWN = 0)) /\
         (joy = before -> act = NoAction)) /\
    selectedIndex w'
    = fold_left (fun i a =>
                   match a with
                   | NavDown => Z.rem (i + 1) MENU_ITEM_COUNT
                   | NavUp => Z.rem (i - 1 + MENU_ITEM_COUNT) MENU_ITEM_COUNT
                   | Select | NoAction => i
                   end) actions (selectedIndex w).
Proof.
  intros Hj Ha Hl.
  destruct (handle_menu_polls_trace n previous_joy w Hj Ha Hl)
    as (actions & last & w' & Hrun & Htrace & Hfold).
  exists actions, last, w'.
  split; [exact Hrun |]. split; [| exact Hfold].
  intros k act Hk. destruct (Htrace k act Hk) as (j & Hjk & Hact).
  exists j. split; [exact Hjk |]. cbv zeta.
  exact (poll_action_bits _ _ _ Hact).
Qed.

End MenuProperties.

Lemma menu_index_in_range_witness :
  exists actions last w',
    @handle_menu_polls xpresso_board 3 0xFF
      (world_with (mkInputs [0; 0x02; 0x01] [200; 200; 200]
                            [(0, 0, 64); (0, 0, 64); (0, 0, 64)] []))
    = Some ((actions, last), w') /\
    selectedIndex w' = 4 /\
    @handle_menu xpresso_board
      (world_with (mkInputs [0; 0x02; 0x01] [200; 200; 200]
                            [(0, 0, 64); (0, 0, 64); (0, 0, 64)] []))
    = Some (4, w').
Proof.
  destruct (@menu_index_in_range xpresso_board 3 0xFF
              (world_with (mkInputs [0; 0x02; 0x01] [200; 200; 200]
                                    [(0, 0, 64); (0, 0, 64); (0, 0, 64)] [])))
    as (actions & last & w' & Hrun & _ & Hfold & _ & Hret & _).
  - unfold MENU_ITEM_COUNT. cbn. lia.
  - cbn. lia.
  - cbn. lia.
  - cbn. lia.
  - assert (Hacts : actions = [NoAction; NavUp; Select]).
    { vm_compute in Hrun. injection Hrun as <- _ _. reflexivity. }
    assert (Hidx : selectedIndex w' = 4).
    { rewrite Hfold, Hacts. reflexivity. }
    exists actions, last, w'. split; [exact Hrun |]. split; [exact Hidx |].
    rewrite <- Hidx. apply (Hret [NoAction; NavUp]); [exact Hacts | reflexivity].
Defined.

(** The run of the witness: released, Up, Up released and Confirm pressed;
    the index goes from 0 to 4 and [handle_menu] returns 4. *)
Example up_from_first_item :
  fst <$> @handle_menu xpresso_board
            (world_with (mkInputs [0; 0x02; 0x01] [200; 200; 200]
                                  [(0, 0, 64); (0, 0, 64); (0, 0, 64)] []))
  = Some 4.
Proof. vm_compute. reflexivity. Qed.

Lemma held_direction_fires_once_witness :
  exists actions last w',
    @handle_menu_polls xpresso_board 4 0
      (world_with (mkInputs [0x04; 0x04; 0x04; 0] [200; 200; 200; 200]
                            [(0, 0, 64); (0, 0, 64); (0, 0, 64); (0, 0, 64)] []))
    = Some ((actions, last), w') /\
    actions = [NavDown; NoAction; NoAction; NoAction] /\
    selectedIndex w' = 1.
Proof.
  destruct (@held_direction_fires_once xpresso_board 4 0
              (world_with (mkInputs [0x04; 0x04; 0x04; 0] [200; 200; 200; 200]
                                    [(0, 0, 64); (0, 0, 64); (0, 0, 64); (0, 0, 64)] [])))
    as (actions & last & w' & Hrun & _ & Hfold).
  - cbn. lia.
  - cbn. lia.
  - cbn. lia.
  - assert (Hacts : actions = [NavDown; NoAction; NoAction; NoAction]).
    { vm_compute in Hrun. injection Hrun as <- _ _. reflexivity. }
    exists actions, last, w'. split; [exact Hrun |]. split; [exact Hacts |].
    rewrite Hfold, Hacts. reflexivity.
Defined.

(** C5, as stated, fails when Down and Up make the transition in the same
    sample: the Up bit reads 1 after 0 and is then held for three passes,
    but no pass moves the selection up; the first moves it down, from 0
    to 1, and the others do nothing. *)
Lemma down_before_up :
  Z.land 0x06 (@JOYSTICK_UP xpresso_board) <> 0 /\
  Z.land 0 (@JOYSTICK_UP xpresso_board) = 0 /\
  exists w',
    @handle_menu_polls xpresso_board 3 0
      (world_with (mkInputs [0x06; 0x06; 0x06] [200; 200; 200]
                            [(0, 0, 64); (0, 0, 64); (0, 0, 64)] []))
    = Some (([NavDown; NoAction; NoAction], 0x06), w') /\
    ~ In NavUp [NavDown; NoAction; NoAction] /\
    selectedIndex w' = 1.
Proof.
  split; [vm_compute; discriminate |]. split; [reflexivity |].
  eexists. split; [vm_compute; reflexivity |].
  split; [| reflexivity].
  cbn. intros [H | [H | [H | []]]]; discriminate.
Qed.

(** ** GameSession: a whole round *)

Lemma rand_run w r rs :
  rand_in (inputs w) = r :: rs -> rand w = Some (r, after_rand rs w).
Proof. intros Hr. unfold rand. rewrite Hr. reflexivity. Qed.

Lemma adjust_theme_total (w : World) (l : Z) (ls : list Z) :
  light_in (inputs w) = l :: ls ->
  exists r evs,
    adjust_theme w
    = Some (r, after_events evs
                 (set_theme (palette_for (to_uint32 l)) (after_light ls w))).
Proof.
  intros Hl. rewrite (adjust_theme_run w l ls Hl). cbv zeta.
  destruct (decide _).
  - exists 0, []. rewrite after_events_nil. reflexivity.
  - exists 1, change_tone. reflexivity.
Qed.

Lemma draw_circle_run radius w :
  draw_circle radius w
  = Some (tt, after_events [EvOled (OledCircle false radius (fontColor (theme w)))] w).
Proof. unfold draw_circle. rewrite run_bind. apply emit_display_run. reflexivity. Qed.

Lemma fill_circle_run radius w :
  fill_circle radius w
  = Some (tt, after_events [EvOled (OledCircle true radius (fontColor (theme w)))] w).
Proof. unfold fill_circle. rewrite run_bind. apply emit_display_run. reflexivity. Qed.

Section GameSession.
Context {board : Board}.

(** One round of [start_game], on a joystick that reads released for
    [length pre] polls after the stimulus and then pressed, and later
    confirms the result.  The round measures [length pre] milliseconds and
    applies the record rule to it; nothing but the Result step writes the
    store. *)
Lemma game_round_run (round totalTime highScoreMs : Z) (w : World)
    l ls r rs pre j pre2 j2 rest :
  light_in (inputs w) = l :: ls ->
  rand_in (inputs w) = r :: rs ->
  joy_in (inputs w) = pre ++ j :: pre2 ++ j2 :: rest ->
  Forall (fun s => confirm_pressed s = false) pre ->
  confirm_pressed j = true ->
  Forall (fun s => confirm_pressed s = false) pre2 ->
  confirm_pressed j2 = true ->
  to_uint32 (Z.of_nat (length pre)) < 10 ->
  let T := to_uint32 (Z.of_nat (length pre)) in
  exists w',
    game_round round totalTime highScoreMs w
    = Some ((to_uint8 (round + 1), to_uint32 (totalTime + T),
             if is_new_record T highScoreMs then to_uint16 T else highScoreMs), w') /\
    eeprom w' = (if is_new_record T highScoreMs
                 then store_score T (eeprom w) else eeprom w) /\
    joy_in (inputs w') = rest /\
    light_in (inputs w') = ls /\
    rand_in (inputs w') = rs.
Proof.
  intros Hl Hr Hjoy Hpre Hj Hpre2 Hj2 Hfit T.
  unfold game_round.
  unfold set_led_bar_position, led7seg_setChar.
  rewrite run_bind, emit_display_run by reflexivity. cbv beta iota.
  rewrite run_bind, emit_display_run by reflexivity. cbv beta iota.
  rewrite after_events_app.
  set (w1 := after_events _ w).
  destruct (adjust_theme_total w1 l ls Hl) as (changed & evs & Hadj).
  rewrite run_bind, Hadj. cbv beta iota.
  set (w2 := after_events evs _).
  run_step oled_clearScreen_run.
  run_step draw_circle_run.
  run_step oled_putString_run.
  change (note_at 2) with 3816.
  rewrite run_bind, play_note_tone_run by lia. cbv beta iota.
  rewrite !after_events_app.
  set (w3 := after_events _ w2).
  rewrite run_bind, (rand_run w3 r rs Hr). cbv beta iota.
  rewrite run_bind, delay32Ms_run. cbv beta iota.
  run_step fill_circle_run.
  rewrite !after_events_app.
  set (w4 := after_events _ (after_rand rs w3)).
  assert (Hjoy4 : joy_in (inputs w4) = pre ++ j :: pre2 ++ j2 :: rest) by exact Hjoy.
  rewrite run_bind, (measure_reaction_time_run w4 pre j _ Hjoy4 Hpre Hj).
  cbv beta iota. fold T.
  set (w5 := after_events _ (after_joy _ _)).
  rewrite run_bind, round_result_run
    by (pose proof (to_uint32_range (Z.of_nat (length pre))); subst T; lia).
  destruct (is_new_record T highScoreMs); cbv beta iota.
  - rewrite run_bind, delay32Ms_run. cbv beta iota.
    rewrite run_bind.
    erewrite (wait_for_joystick_center_click_run _ pre2 j2 rest);
      [| reflexivity | assumption | assumption].
    cbv beta iota. eexists. split; [reflexivity |].
    repeat split.
  - rewrite run_bind, delay32Ms_run. cbv beta iota.
    rewrite run_bind.
    erewrite (wait_for_joystick_center_click_run _ pre2 j2 rest);
      [| reflexivity | assumption | assumption].
    cbv beta iota. eexists. split; [reflexivity |].
    repeat split.
Qed.

(** The local [highScoreMs] of [start_game] follows the store: equal before
    a round, they are equal after it. *)
Lemma game_round_score_invariant (round totalTime highScoreMs : Z) (w : World)
    l ls r rs pre j pre2 j2 rest :
  light_in (inputs w) = l :: ls ->
  rand_in (inputs w) = r :: rs ->
  joy_in (inputs w) = pre ++ j :: pre2 ++ j2 :: rest ->
  Forall (fun s => confirm_pressed s = false) pre ->
  confirm_pressed j = true ->
  Forall (fun s => confirm_pressed s = false) pre2 ->
  confirm_pressed j2 = true ->
  to_uint32 (Z.of_nat (length pre)) < 10 ->
  highScoreMs = stored_score (eeprom w) ->
  exists round' totalTime' highScoreMs' w',
    game_round round totalTime highScoreMs w
    = Some ((round', totalTime', highScoreMs'), w') /\
    highScoreMs' = stored_score (eeprom w').
Proof.
  intros Hl Hr Hjoy Hpre Hj Hpre2 Hj2 Hfit Hinv.
  destruct (game_round_run round totalTime highScoreMs w l ls r rs pre j pre2 j2 rest
              Hl Hr Hjoy Hpre Hj Hpre2 Hj2 Hfit) as (w' & Hrun & Hee & _).
  cbv zeta in Hrun, Hee.
  eexists _, _, _, w'. split; [exact Hrun |].
  rewrite Hee. destruct (is_new_record _ _).
  - rewrite stored_score_store_score. reflexivity.
  - exact Hinv.
Qed.

(** A round answered after 10 ms or more: the text of the time does not
    fit [reactionTimeMsString], and the round has no defined outcome. *)
Lemma game_round_overrun (round totalTime highScoreMs : Z) (w : World)
    l ls r rs pre j rest :
  light_in (inputs w) = l :: ls ->
  rand_in (inputs w) = r :: rs ->
  joy_in (inputs w) = pre ++ j :: rest ->
  Forall (fun s => confirm_pressed s = false) pre ->
  confirm_pressed j = true ->
  10 <= Z.of_nat (length pre) < 2 ^ 32 ->
  game_round round totalTime highScoreMs w = None.
Proof.
  intros Hl Hr Hjoy Hpre Hj Hlong.
  unfold game_round.
  unfold set_led_bar_position, led7seg_setChar.
  rewrite run_bind, emit_display_run by reflexivity. cbv beta iota.
  rewrite run_bind, emit_display_run by reflexivity. cbv beta iota.
  rewrite after_events_app.
  set (w1 := after_events _ w).
  destruct (adjust_theme_total w1 l ls Hl) as (changed & evs & Hadj).
  rewrite run_bind, Hadj. cbv beta iota.
  set (w2 := after_events evs _).
  run_step oled_clearScreen_run.
  run_step draw_circle_run.
  run_step oled_putString_run.
  change (note_at 2) with 3816.
  rewrite run_bind, play_note_tone_run by lia. cbv beta iota.
  rewrite !after_events_app.
  set (w3 := after_events _ w2).
  rewrite run_bind, (rand_run w3 r rs Hr). cbv beta iota.
  rewrite run_bind, delay32Ms_run. cbv beta iota.
  run_step fill_circle_run.
  rewrite !after_events_app.
  set (w4 := after_events _ (after_rand rs w3)).
  assert (Hjoy4 : joy_in (inputs w4) = pre ++ j :: rest) by exact Hjoy.
  rewrite run_bind, (measure_reaction_time_run w4 pre j _ Hjoy4 Hpre Hj).
  cbv beta iota. rewrite (to_uint32_small (Z.of_nat (length pre))) by lia.
  rewrite run_bind, round_result_overrun by exact Hlong. reflexivity.
Qed.

End GameSession.

(** A whole session on the model: the five times are shown, then their
    mean and the best score, which is also what the store holds. *)
Example session_7_5_9_3_6 :
  (fun r => (shown_values (out (snd r)), stored_score (eeprom (snd r))))
    <$> @start_game xpresso_board session_world
  = Some ([("ms", 7); ("ms", 5); ("ms", 9); ("ms", 3); ("ms", 6);
           ("Avg", 6); ("Best", 3)]%string, 3).
Proof. vm_compute. reflexivity. Qed.

(** * More of main.c: properties *)

(** ** Circles *)

Lemma to_int16_small v : - 2 ^ 15 <= v < 2 ^ 15 -> to_int16 v = v.
Proof. intros H. unfold to_int16. rewrite Z.mod_small; lia. Qed.

Lemma draw_circle_loop_offsets (fuel : nat) :
  forall x0 y0 r x y err,
    (y <= x -> circle_inv r x y err) ->
    (Z.to_nat (x - y + 1) <= fuel)%nat ->
    draw_circle_loop fuel x0 y0 x y err
    = Some (flat_map (fun p => circle_octants x0 y0 p.1 p.2) (circle_offsets fuel x y err)) /\
    Forall (fun p => 0 <= p.2 <= p.1 /\ p.1 <= r /\
                     p.1 * p.1 + p.2 * p.2 <= r * r
                     /\ r * r < (p.1 + 1) * (p.1 + 1) + (p.2 + 1) * (p.2 + 1))
           (circle_offsets fuel x y err) /\
    (length (circle_offsets fuel x y err) <= Z.to_nat (x - y + 1))%nat.
Proof.
  induction fuel as [| fuel IH]; intros x0 y0 r x y err Hinv Hfuel.
  - assert (x < y) by lia.
    cbn [draw_circle_loop circle_offsets].
    replace (y <=? x) with false by (symmetry; apply Z.leb_gt; lia).
    cbn. split; [reflexivity |]. split; [constructor | lia].
  - cbn [draw_circle_loop circle_offsets].
    destruct (y <=? x) eqn:Hyx.
    2:{ cbn. split; [reflexivity |]. split; [constructor | lia]. }
    apply Z.leb_le in Hyx.
    destruct (Hinv Hyx) as (Hy & Hxr & Hr & Hlo & Hhi & Herr).
    rewrite (to_int16_small (y + 1)) by lia.
    replace (err <=? 0) with true by (symmetry; apply Z.leb_le; lia).
    rewrite (to_int16_small (err + (2 * (y + 1) + 1))) by lia.
    set (err1 := err + (2 * (y + 1) + 1)).
    destruct (0 <? err1) eqn:Hpos;
      [apply Z.ltb_lt in Hpos | apply Z.ltb_ge in Hpos].
    + rewrite (to_int16_small (x - 1)) by lia.
      rewrite (to_int16_small (err1 - (2 * (x - 1) + 1))) by (subst err1; lia).
      destruct (IH x0 y0 r (x - 1) (y + 1) (err1 - (2 * (x - 1) + 1)))
        as (Hrun & Hall & Hlen).
      { intros Hcont. unfold circle_inv. subst err1. nia. }
      { lia. }
      rewrite Hrun. cbn [fmap option_fmap option_map flat_map fst snd].
      split; [reflexivity |]. split.
      * constructor; [| exact Hall]. cbn [fst snd]. nia.
      * cbn [length]. lia.
    + destruct (IH x0 y0 r x (y + 1) err1) as (Hrun & Hall & Hlen).
      { intros Hcont. unfold circle_inv. subst err1. nia. }
      { lia. }
      rewrite Hrun. cbn [fmap option_fmap option_map flat_map fst snd].
      split; [reflexivity |]. split.
      * constructor; [| exact Hall]. cbn [fst snd]. nia.
      * cbn [length]. lia.
Qed.

(** The pixels of the outline, for the offsets of the passes. *)
Lemma draw_circle_pixels_run (x0 y0 radius : Z) :
  let r := to_uint8 radius in
  let offsets := circle_offsets (S (Z.to_nat r)) r 0 0 in
  draw_circle_pixels x0 y0 radius
  = Some (flat_map (fun p => circle_octants (to_uint8 x0) (to_uint8 y0) p.1 p.2) offsets) /\
  Forall (fun p => 0 <= p.2 <= p.1 /\ p.1 <= r /\
                   p.1 * p.1 + p.2 * p.2 <= r * r /\
                   r * r < (p.1 + 1) * (p.1 + 1) + (p.2 + 1) * (p.2 + 1))
         offsets /\
  (length offsets <= S (Z.to_nat r))%nat.
Proof.
  intros r offsets. pose proof (to_uint8_range radius) as Hr. fold r in Hr.
  destruct (draw_circle_loop_offsets (S (Z.to_nat r)) (to_uint8 x0) (to_uint8 y0) r r 0 0)
    as (Hrun & Hall & Hlen).
  - intros _. unfold circle_inv. lia.
  - lia.
  - split; [exact Hrun |]. split; [exact Hall |].
    subst offsets. lia.
Qed.

(** The passes of the loop, from a state that satisfies the invariant:
    they give the pixels of [draw_circle_loop], the counter [y] grows by
    one per pass, [x] falls by at most one, and the invariant holds at the
    head of every pass. *)
Lemma draw_circle_passes_spec (fuel : nat) :
  forall x0 y0 r x y err,
    (y <= x -> circle_inv r x y err) ->
    (Z.to_nat (x - y + 1) <= fuel)%nat ->
    exists passes,
      draw_circle_passes fuel x y err = Some passes /\
      draw_circle_loop fuel x0 y0 x y err
      = Some (flat_map (fun s => circle_octants x0 y0 s.1.1 s.1.2) passes) /\
      (forall s, passes !! 0%nat = Some s -> s = (x, y, err)) /\
      (y <= x -> passes <> []) /\
      (length passes <= Z.to_nat (x - y + 1))%nat /\
      (forall k x' y' err',
         passes !! k = Some (x', y', err') ->
         y' = y + Z.of_nat k /\ y' <= x' /\ circle_inv r x' y' err' /\
         (forall s, passes !! S k = Some s -> s.1.1 = x' \/ s.1.1 = x' - 1)) /\
      (forall x' y' err', last passes = Some (x', y', err') -> x' <= y' + 1).
Proof.
  induction fuel as [| fuel IH]; intros x0 y0 r x y err Hinv Hfuel.
  - assert (x < y) by lia.
    cbn [draw_circle_passes draw_circle_loop].
    replace (y <=? x) with false by (symmetry; apply Z.leb_gt; lia).
    exists []. repeat split; try discriminate; try (intros; lia). cbn. lia.
  - cbn [draw_circle_passes draw_circle_loop].
    destruct (y <=? x) eqn:Hyx.
    2:{ apply Z.leb_gt in Hyx. exists [].
        repeat split; try discriminate; try (intros; lia). cbn. lia. }
    apply Z.leb_le in Hyx.
    destruct (Hinv Hyx) as (Hy & Hxr & Hr & Hlo & Hhi & Herr).
    rewrite (to_int16_small (y + 1)) by lia.
    replace (err <=? 0) with true by (symmetry; apply Z.leb_le; lia).
    rewrite (to_int16_small (err + (2 * (y + 1) + 1))) by lia.
    set (err1 := err + (2 * (y + 1) + 1)).
    assert (Hnext : exists x1 err2,
              (x1 = x \/ x1 = x - 1) /\ (y + 1 <= x1 -> circle_inv r x1 (y + 1) err2) /\
              (y + 1 > x1 -> x <= y + 1) /\
              (if 0 <? err1 then to_int16 (x - 1) else x) = x1 /\
              (if 0 <? err1
               then to_int16 (err1 - (2 * (if 0 <? err1 then to_int16 (x - 1) else x) + 1))
               else err1) = err2).
    { destruct (0 <? err1) eqn:Hpos;
        [apply Z.ltb_lt in Hpos | apply Z.ltb_ge in Hpos].
      - rewrite (to_int16_small (x - 1)) by lia.
        rewrite (to_int16_small (err1 - (2 * (x - 1) + 1))) by (subst err1; lia).
        exists (x - 1), (err1 - (2 * (x - 1) + 1)).
        split; [right; reflexivity |]. split; [| split; [intros; lia | split; reflexivity]].
        intros Hcont. unfold circle_inv. subst err1. nia.
      - exists x, err1.
        split; [left; reflexivity |]. split; [| split; [intros; lia | split; reflexivity]].
        intros Hcont. unfold circle_inv. subst err1. nia. }
    destruct Hnext as (x1 & err2 & Hx1 & Hinv1 & Hend & -> & ->).
    destruct (IH x0 y0 r x1 (y + 1) err2 Hinv1 ltac:(lia))
      as (passes & Hrun & Hloop & Hhead & Hne & Hlen & Hall & Hlast).
    exists ((x, y, err) :: passes).
    rewrite Hrun, Hloop. cbn [fmap option_fmap option_map flat_map fst snd].
    split; [reflexivity |]. split; [reflexivity |].
    split; [intros s Hs; injection Hs as <-; reflexivity |].
    split; [discriminate |].
    split; [cbn [length]; lia |].
    split.
    + intros [| k] x' y' err' Hk.
      * injection Hk as <- <- <-.
        split; [lia |]. split; [exact Hyx |]. split; [exact (Hinv Hyx) |].
        intros s Hs. cbn [lookup list_lookup] in Hs.
        apply Hhead in Hs. subst s. cbn [fst]. exact Hx1.
      * cbn [lookup list_lookup] in Hk.
        destruct (Hall k x' y' err' Hk) as (Hy' & Hle & Hinv' & Hstep).
        split; [lia |]. split; [exact Hle |]. split; [exact Hinv' |].
        intros s Hs. cbn [lookup list_lookup] in Hs. exact (Hstep s Hs).
    + intros x' y' err' Hl.
      destruct passes as [| s passes].
      * cbn in Hl. injection Hl as <- <- <-.
        apply Hend. destruct (Z_le_gt_dec (y + 1) x1) as [Hc | Hc]; [| exact Hc].
        exfalso. apply (Hne Hc). reflexivity.
      * apply (Hlast x' y' err'). rewrite <- Hl. reflexivity.
Qed.

(** X1.  For every centre and radius, [draw_circle] leaves its loop after
    at most [radius + 1] passes, and no assignment to an [int16_t] local
    overflows: the values that a pass assigns to [y], [err] and [x] are
    [int16_t] values.  The first pass plots the eight reflections of the
    offset [(radius, 0)]; pass [k] plots those of an offset [(x, k)] with
    [k <= x <= radius] that lies on or inside the circle while its diagonal
    neighbour lies outside, [x^2 + k^2 <= radius^2 < (x + 1)^2 + (k + 1)^2];
    from one pass to the next [x] stays or falls by one; and the last pass
    is at the diagonal, [x <= k + 1]. *)
Theorem draw_circle_pixels_accuracy (x0 y0 radius : Z) :
  let r := to_uint8 radius in
  exists passes : list (Z * Z * Z),
    draw_circle_passes (S (Z.to_nat r)) r 0 0 = Some passes /\
    draw_circle_pixels x0 y0 radius
    = Some (flat_map (fun s => circle_octants (to_uint8 x0) (to_uint8 y0) s.1.1 s.1.2)
              passes) /\
    passes !! 0%nat = Some (r, 0, 0) /\
    (length passes <= S (Z.to_nat r))%nat /\
    (forall k x y err,
       passes !! k = Some (x, y, err) ->
       y = Z.of_nat k /\ y <= x /\ x <= r /\
       x * x + y * y <= r * r < (x + 1) * (x + 1) + (y + 1) * (y + 1) /\
       int16_value (y + 1) /\
       int16_value (err + (2 * (y + 1) + 1)) /\
       int16_value (x - 1) /\
       int16_value (err + (2 * (y + 1) + 1) - (2 * (x - 1) + 1)) /\
       (forall s, passes !! S k = Some s -> s.1.1 = x \/ s.1.1 = x - 1)) /\
    (exists x y err, last passes = Some (x, y, err) /\ x <= y + 1).
Proof.
  intros r. pose proof (to_uint8_range radius) as Hr. fold r in Hr.
  change (2 ^ 8) with 256 in Hr.
  destruct (draw_circle_passes_spec (S (Z.to_nat r)) (to_uint8 x0) (to_uint8 y0) r r 0 0)
    as (passes & Hrun & Hloop & Hhead & Hne & Hlen & Hall & Hlast).
  { intros _. unfold circle_inv. lia. }
  { lia. }
  assert (Hfirst : passes !! 0%nat = Some (r, 0, 0)).
  { destruct passes as [| s passes]; [exfalso; apply Hne; [lia | reflexivity] |].
    rewrite (Hhead s eq_refl). reflexivity. }
  exists passes. split; [exact Hrun |]. split; [exact Hloop |].
  split; [exact Hfirst |]. split; [lia |]. split.
  - intros k x y err Hk.
    destruct (Hall k x y err Hk) as (Hy & Hle & (Hy0 & Hxr & _ & Hlo & Hhi & Herr) & Hstep).
    unfold int16_value. change (2 ^ 15) with 32768.
    split; [lia |]. split; [exact Hle |]. split; [exact Hxr |].
    split; [nia |].
    repeat (split; [lia |]). exact Hstep.
  - destruct (last passes) as [[[x y] err] |] eqn:Hl.
    + exists x, y, err. split; [reflexivity |]. exact (Hlast x y err eq_refl).
    + apply last_None in Hl. subst passes. discriminate.
Qed.

Lemma to_uint8_byte v : 0 <= v <= 255 -> to_uint8 v = v.
Proof. intros H. apply to_uint8_small. change (2 ^ 8) with 256. lia. Qed.

Lemma in_for_range lo hi v : In v (for_range lo hi) <-> lo <= v <= hi.
Proof.
  unfold for_range. rewrite <- list_elem_of_In, list_elem_of_fmap. split.
  - intros (i & -> & Hi). apply elem_of_seq in Hi. lia.
  - intros Hv. exists (Z.to_nat (v - lo)). split; [lia |]. apply elem_of_seq. lia.
Qed.

Lemma NoDup_for_range lo hi : NoDup (for_range lo hi).
Proof.
  unfold for_range. apply NoDup_fmap_2_strong; [| apply NoDup_seq].
  intros i j _ _ Hij. lia.
Qed.

(** The offsets that [fill_circle] puts a pixel for. *)
Lemma in_fill_circle_pixels (x0 y0 radius : Z) (p : Z * Z) :
  let r := to_uint8 radius in
  In p (fill_circle_pixels x0 y0 radius) <->
  exists dx dy,
    - r <= dx <= r /\ - r <= dy <= r /\ dx * dx + dy * dy <= r * r /\
    p = (to_uint8 (to_uint8 x0 + dx), to_uint8 (to_uint8 y0 + dy)).
Proof.
  intros r. unfold fill_circle_pixels. fold r.
  rewrite in_flat_map. split.
  - intros (dy & Hdy & Hin). apply in_for_range in Hdy.
    apply in_flat_map in Hin as (dx & Hdx & Hin). apply in_for_range in Hdx.
    destruct (dx * dx + dy * dy <=? r * r) eqn:Hle; [| destruct Hin].
    apply Z.leb_le in Hle. destruct Hin as [<- | []].
    exists dx, dy. auto.
  - intros (dx & dy & Hdx & Hdy & Hle & ->).
    exists dy. split; [apply in_for_range; exact Hdy |].
    apply in_flat_map. exists dx. split; [apply in_for_range; exact Hdx |].
    replace (dx * dx + dy * dy <=? r * r) with true
      by (symmetry; apply Z.leb_le; exact Hle).
    left. reflexivity.
Qed.

(** X2.  The filled disc covers the outline: every pixel that
    [draw_circle] puts for a centre and a radius is also put by
    [fill_circle] for the same centre and radius. *)
Theorem fill_circle_covers_draw_circle (x0 y0 radius : Z) :
  exists outline,
    draw_circle_pixels x0 y0 radius = Some outline /\
    forall p, In p outline -> In p (fill_circle_pixels x0 y0 radius).
Proof.
  destruct (draw_circle_pixels_run x0 y0 radius) as (Hrun & Hall & _).
  cbv zeta in Hrun, Hall.
  eexists. split; [exact Hrun |].
  intros p Hin. apply in_flat_map in Hin as ([x y] & Hoff & Hin).
  rewrite Forall_forall in Hall. apply list_elem_of_In in Hoff.
  specialize (Hall _ Hoff). cbn [fst snd] in Hall, Hin.
  apply in_fill_circle_pixels. cbv zeta.
  set (X := to_uint8 x0) in *. set (Y := to_uint8 y0) in *.
  set (r := to_uint8 radius) in *.
  unfold circle_octants in Hin.
  repeat (destruct Hin as [<- | Hin]); [.. | destruct Hin].
  - exists x, y. repeat split; nia.
  - exists y, x. repeat split; nia.
  - exists (- y), x. repeat split; nia.
  - exists (- x), y. repeat split; nia.
  - exists (- x), (- y). repeat split; nia.
  - exists (- y), (- x). repeat split; nia.
  - exists y, (- x). repeat split; nia.
  - exists x, (- y). repeat split; nia.
Qed.

Lemma square_sum_bound a b r :
  0 <= r -> a * a + b * b <= r * r -> - r <= a <= r.
Proof.
  intros Hr Hle.
  destruct (Z.lt_ge_cases r a); [nia |].
  destruct (Z.lt_ge_cases a (- r)); [nia | lia].
Qed.

Lemma NoDup_flat_map {A B : Type} (f : A -> list B) (l : list A) :
  NoDup l ->
  (forall a, In a l -> NoDup (f a)) ->
  (forall a b x, In a l -> In b l -> In x (f a) -> In x (f b) -> a = b) ->
  NoDup (flat_map f l).
Proof.
  induction l as [| a l IH]; intros Hl Hf Hdisj; [constructor |].
  cbn [flat_map]. apply NoDup_cons in Hl as [Ha Hl].
  apply NoDup_app. split; [apply Hf; left; reflexivity |]. split.
  - intros x Hx Hx'. apply list_elem_of_In in Hx, Hx'.
    apply in_flat_map in Hx' as (b & Hb & Hxb).
    assert (a = b) by (apply (Hdisj a b x); auto using in_eq, in_cons).
    subst b. apply Ha. apply list_elem_of_In. exact Hb.
  - apply IH; [exact Hl | |].
    + intros b Hb. apply Hf. right. exact Hb.
    + intros b c x Hb Hc. apply Hdisj; right; assumption.
Qed.

(** X3.  When the bounding square of the disc lies within the [uint8_t]
    coordinates, [fill_circle] puts exactly the pixels whose distance from
    the centre is at most the radius, each of them once. *)
Theorem fill_circle_pixels_disc (x0 y0 radius : Z) :
  0 <= radius <= x0 -> x0 + radius <= 255 ->
  radius <= y0 -> y0 + radius <= 255 ->
  NoDup (fill_circle_pixels x0 y0 radius) /\
  forall px py,
    In (px, py) (fill_circle_pixels x0 y0 radius) <->
    (px - x0) * (px - x0) + (py - y0) * (py - y0) <= radius * radius.
Proof.
  intros Hx0 Hx1 Hy0 Hy1.
  assert (Hr : to_uint8 radius = radius) by (apply to_uint8_byte; lia).
  assert (HX : to_uint8 x0 = x0) by (apply to_uint8_byte; lia).
  assert (HY : to_uint8 y0 = y0) by (apply to_uint8_byte; lia).
  split.
  - unfold fill_circle_pixels. rewrite Hr, HX, HY.
    apply NoDup_flat_map; [apply NoDup_for_range | |].
    + intros dy Hdy. apply NoDup_flat_map; [apply NoDup_for_range | |].
      * intros dx _. destruct (_ <=? _); [apply NoDup_singleton | constructor].
      * intros a b p _ _ Ha Hb.
        apply in_for_range in Hdy.
        destruct (a * a + dy * dy <=? radius * radius) eqn:Hla; [| destruct Ha].
        destruct (b * b + dy * dy <=? radius * radius) eqn:Hlb; [| destruct Hb].
        apply Z.leb_le in Hla, Hlb.
        destruct Ha as [<- | []]. destruct Hb as [Heq | []].
        injection Heq as Heq.
        rewrite !to_uint8_byte in Heq by nia. lia.
    + intros a b p Ha Hb Hpa Hpb. apply in_for_range in Ha, Hb.
      apply in_flat_map in Hpa as (dx & _ & Hpa).
      apply in_flat_map in Hpb as (dx' & _ & Hpb).
      destruct (dx * dx + a * a <=? radius * radius) eqn:Hla; [| destruct Hpa].
      destruct (dx' * dx' + b * b <=? radius * radius) eqn:Hlb; [| destruct Hpb].
      destruct Hpa as [<- | []]. destruct Hpb as [Heq | []].
      injection Heq as _ Heq.
      rewrite !to_uint8_byte in Heq by lia. lia.
  - intros px py. rewrite in_fill_circle_pixels. cbv zeta. rewrite Hr, HX, HY.
    split.
    + intros (dx & dy & Hdx & Hdy & Hle & Heq). injection Heq as -> ->.
      rewrite !to_uint8_byte by lia.
      replace (x0 + dx - x0) with dx by lia.
      replace (y0 + dy - y0) with dy by lia. exact Hle.
    + intros Hle. exists (px - x0), (py - y0).
      assert (- radius <= px - x0 <= radius)
        by (apply (square_sum_bound _ (py - y0)); lia).
      assert (- radius <= py - y0 <= radius)
        by (apply (square_sum_bound _ (px - x0)); lia).
      repeat split; try lia.
      rewrite !to_uint8_byte by lia. f_equal; lia.
Qed.

Lemma fill_circle_pixels_disc_witness :
  In (48, 60) (fill_circle_pixels 48 32 28) /\ ~ In (68, 52) (fill_circle_pixels 48 32 28).
Proof.
  destruct (fill_circle_pixels_disc 48 32 28) as [_ Hdisc]; try lia.
  split.
  - apply Hdisc. lia.
  - intros Hin. apply Hdisc in Hin. lia.
Defined.

(** ** Centred text *)

(** X4.  On a display of width [W <= 255], a text of [n] characters that
    fits ([5 * n <= W]) is put at column [(W - 5 * n) / 2]: the margin on
    its right is the margin on its left or one pixel more.  A text one
    pixel too wide is put at column 0; a text that is too wide by 2 to 257
    pixels gets a negative margin, which the [uint8_t] column turns into a
    column of 128 or more. *)
Theorem centered_x_margins (W : Z) (text : string) :
  0 <= W <= 255 ->
  let n := Z.of_nat (String.length text) in
  let x := centered_x W text in
  (5 * n <= W ->
     x = (W - 5 * n) / 2 /\ 0 <= x /\
     x <= W - (x + 5 * n) <= x + 1) /\
  (5 * n = W + 1 -> x = 0) /\
  (W + 2 <= 5 * n <= W + 257 ->
     x = 256 - (5 * n - W) / 2 /\ 128 <= x <= 255).
Proof.
  intros HW n x. subst x. unfold centered_x. fold n.
  replace (n * 5) with (5 * n) by lia.
  assert (Hn : 0 <= n) by (subst n; lia).
  split; [| split].
  - intros Hfit.
    rewrite Z.quot_div_nonneg by lia.
    pose proof (Z.div_mod (W - 5 * n) 2 ltac:(lia)) as Hdm.
    pose proof (Z.mod_pos_bound (W - 5 * n) 2 ltac:(lia)) as Hm.
    assert (0 <= (W - 5 * n) / 2) by (apply Z.div_pos; lia).
    rewrite to_uint8_byte by lia. lia.
  - intros Hone. replace (W - 5 * n) with (-1) by lia. reflexivity.
  - intros Hwide.
    replace (W - 5 * n) with (- (5 * n - W)) by lia.
    rewrite Z.quot_opp_l by lia. rewrite Z.quot_div_nonneg by lia.
    pose proof (Z.div_mod (5 * n - W) 2 ltac:(lia)) as Hdm.
    pose proof (Z.mod_pos_bound (5 * n - W) 2 ltac:(lia)) as Hm.
    assert (Hq : 1 <= (5 * n - W) / 2 <= 128) by lia.
    unfold to_uint8.
    replace (- ((5 * n - W) / 2)) with (256 - (5 * n - W) / 2 + (-1) * 2 ^ 8)
      by (change (2 ^ 8) with 256; lia).
    rewrite Z.mod_add by lia.
    rewrite Z.mod_small by (change (2 ^ 8) with 256; lia). lia.
Qed.

Lemma centered_x_margins_witness :
  centered_x 96 "WAIT..." = 30 /\ centered_x 96 "a text of twenty chars" >= 128.
Proof.
  destruct (centered_x_margins 96 "WAIT...") as (Hfit & _); [lia |].
  destruct (centered_x_margins 96 "a text of twenty chars") as (_ & _ & Hwide); [lia |].
  cbv zeta in Hfit, Hwide. split.
  - destruct Hfit as (Hx & _); [cbn; lia |]. rewrite Hx. reflexivity.
  - destruct Hwide as (_ & Hx); [cbn; lia |]. lia.
Defined.

(** ** LED bar *)

(** X5.  [set_led_bar_position pos] lights the single LED [pos] of the
    bar for [pos < 16] and switches the whole bar off for a position from
    16 to 30, past the sixteen LEDs. *)
Theorem set_led_bar_position_single (pos : Z) (w : World) :
  0 <= pos <= 30 ->
  exists mask,
    set_led_bar_position pos w = Some (tt, after_events [EvLeds mask] w) /\
    (pos < 16 ->
       mask = 2 ^ pos /\
       forall i, 0 <= i -> Z.testbit mask i = (i =? pos)) /\
    (16 <= pos -> mask = 0).
Proof.
  intros Hpos. exists (to_uint16 (Z.shiftl 1 (to_uint8 pos))).
  split; [apply emit_display_run; reflexivity |].
  rewrite to_uint8_byte by lia.
  rewrite Z.shiftl_1_l.
  split.
  - intros Hlt.
    assert (Hmask : to_uint16 (2 ^ pos) = 2 ^ pos).
    { apply to_uint16_small. split; [apply Z.pow_nonneg; lia |].
      apply Z.pow_lt_mono_r; lia. }
    rewrite Hmask. split; [reflexivity |].
    intros i Hi. rewrite Z.pow2_bits_eqb by lia. apply Z.eqb_sym.
  - intros Hge. unfold to_uint16.
    replace pos with (16 + (pos - 16)) by lia.
    rewrite Z.pow_add_r by lia. rewrite Z.mul_comm. apply Z.mod_mul. lia.
Qed.

Lemma set_led_bar_position_single_witness :
  exists mask,
    set_led_bar_position 4 idle_world = Some (tt, after_events [EvLeds mask] idle_world) /\
    mask = 16.
Proof.
  destruct (set_led_bar_position_single 4 idle_world) as (mask & Hrun & Hone & _); [lia |].
  exists mask. split; [exact Hrun |]. apply Hone. lia.
Defined.

(** ** AudioFeedback: any arguments *)

Lemma play_note_loop_cycles (fuel : nat) :
  forall note limit t w w',
    play_note_loop fuel note limit t w = Some (tt, w') ->
    exists n : nat, w' = after_events (concat (replicate n (cycle note))) w.
Proof.
  induction fuel as [| fuel IH]; intros note limit t w w' Hrun;
    rewrite play_note_loop_eq in Hrun; destruct (t <? limit).
  - discriminate.
  - injection Hrun as <-. exists 0%nat. symmetry. apply after_events_nil.
  - rewrite cycle_run in Hrun. apply IH in Hrun as (n & ->).
    exists (S n). rewrite after_events_app. reflexivity.
  - injection Hrun as <-. exists 0%nat. symmetry. apply after_events_nil.
Qed.

(** X6.  Whatever its arguments, a call of [play_note] that returns has
    only put out pin and delay events: a single delay for a rest, whole
    high/low cycles for a tone, so that the speaker pin is left low and was
    set high as often as low.  The store, the palette, the tilt state, the
    menu index and the recorded samples are as before. *)
Theorem play_note_frame (note durationMs : Z) (w w' : World) :
  play_note note durationMs w = Some (tt, w') ->
  exists evs,
    w' = after_events evs w /\
    (evs = [EvDelayMs (to_uint32 durationMs)] \/
     exists n : nat,
       evs = concat (replicate n (cycle (to_uint32 note))) /\
       filter (fun e => is_toggle e) evs = concat (replicate n [EvPinHigh; EvPinLow])) /\
    eeprom w' = eeprom w /\ theme w' = theme w /\ tilt w' = tilt w /\
    selectedIndex w' = selectedIndex w /\ inputs w' = inputs w.
Proof.
  intros Hrun. unfold play_note in Hrun.
  destruct (0 <? to_uint32 note).
  - apply play_note_loop_cycles in Hrun as (n & ->).
    eexists. split; [reflexivity |]. split; [| repeat split].
    right. exists n. split; [reflexivity | apply filter_toggle_cycles].
  - rewrite delay32Ms_run in Hrun. injection Hrun as <-.
    eexists. split; [reflexivity |]. split; [| repeat split].
    left. reflexivity.
Qed.

Lemma play_note_frame_witness :
  exists w' evs,
    play_note 1136 400 zero_score_world = Some (tt, w') /\
    w' = after_events evs zero_score_world /\ eeprom w' = eeprom zero_score_world.
Proof.
  assert (Hrun : play_note 1136 400 zero_score_world
                 = Some (tt, after_events (tone 1136 400) zero_score_world))
    by (apply play_note_tone_run; lia).
  destruct (play_note_frame 1136 400 zero_score_world _ Hrun)
    as (evs & Hw & _ & Hee & _).
  exists (after_events (tone 1136 400) zero_score_world), evs.
  split; [exact Hrun |]. split; [exact Hw | exact Hee].
Defined.

(** The counter of the loop stays a multiple of a period that divides
    [2^32], and so below a limit within one period of [2^32]. *)
Lemma play_note_loop_hangs (fuel : nat) :
  forall note limit t w,
    0 < note -> (note | 2 ^ 32) -> 2 ^ 32 - note < limit ->
    (note | t) -> 0 <= t < 2 ^ 32 ->
    play_note_loop fuel note limit t w = None.
Proof.
  induction fuel as [| fuel IH]; intros note limit t w Hnote Hdiv Hlimit Ht Hrange;
    rewrite play_note_loop_eq.
  - assert (Hbelow : t <= 2 ^ 32 - note).
    { destruct Hdiv as [a Ha], Ht as [b Hb]. rewrite Ha in *. subst t.
      assert (b < a) by nia. nia. }
    replace (t <? limit) with true by (symmetry; apply Z.ltb_lt; lia).
    reflexivity.
  - assert (Hbelow : t <= 2 ^ 32 - note).
    { destruct Hdiv as [a Ha], Ht as [b Hb]. rewrite Ha in *. subst t.
      assert (b < a) by nia. nia. }
    replace (t <? limit) with true by (symmetry; apply Z.ltb_lt; lia).
    rewrite cycle_run. apply IH; try assumption.
    + destruct (Z.eq_dec (t + note) (2 ^ 32)) as [-> | Hne].
      * unfold to_uint32. rewrite Z.mod_same by lia. apply Z.divide_0_r.
      * rewrite to_uint32_small by lia.
        apply Z.divide_add_r; [exact Ht | apply Z.divide_refl].
    + apply to_uint32_range.
Qed.

(** X7.  [play_note] can fail to return: for a period that divides
    [2^32] (a power of two) and a duration whose microsecond count lies
    within one period of [2^32], the 32-bit counter wraps around before it
    reaches the limit, and the loop runs for ever, with any fuel. *)
Theorem play_note_never_returns (note durationMs : Z) (w : World) :
  0 < note < 2 ^ 32 -> (note | 2 ^ 32) ->
  2 ^ 32 - note < 1000 * durationMs < 2 ^ 32 ->
  play_note note durationMs w = None /\
  forall fuel, play_note_loop fuel note (1000 * durationMs) 0 w = None.
Proof.
  intros Hnote Hdiv Hd.
  assert (Hloop : forall fuel, play_note_loop fuel note (1000 * durationMs) 0 w = None).
  { intros fuel. apply play_note_loop_hangs; try lia; try assumption.
    apply Z.divide_0_r. }
  split; [| exact Hloop].
  unfold play_note.
  rewrite (to_uint32_small note) by lia.
  rewrite (to_uint32_small durationMs) by lia.
  replace (0 <? note) with true by (symmetry; apply Z.ltb_lt; lia).
  replace (durationMs * 1000) with (1000 * durationMs) by lia.
  rewrite (to_uint32_small (1000 * durationMs)) by lia.
  apply Hloop.
Qed.

Lemma play_note_never_returns_witness :
  play_note 1024 4294967 idle_world = None.
Proof.
  apply (play_note_never_returns 1024 4294967 idle_world).
  - lia.
  - exists (2 ^ 22). reflexivity.
  - lia.
Defined.

(** ** Waiting for the confirm button *)

Section Waiting.
Context {board : Board}.

Lemma wait_loop_released (fuel : nat) :
  forall w : World,
    Forall (fun s => confirm_pressed s = false) (joy_in (inputs w)) ->
    wait_loop fuel w = None.
Proof.
  induction fuel as [| fuel IH]; intros w Hall; [reflexivity |].
  cbn [wait_loop]. rewrite run_bind.
  destruct (joy_in (inputs w)) as [| j js] eqn:Hjoy.
  - unfold joystick_read. rewrite Hjoy. reflexivity.
  - rewrite (joystick_read_run w j js Hjoy).
    apply Forall_cons in Hall as [Hj Hjs].
    unfold confirm_pressed in Hj. apply negb_false_iff in Hj. rewrite Hj.
    rewrite run_bind, delay32Ms_run. apply IH. exact Hjs.
Qed.

Lemma first_pressed (l : list Z) :
  ~ Forall (fun s => confirm_pressed s = false) l ->
  exists pre j rest,
    l = pre ++ j :: rest /\
    Forall (fun s => confirm_pressed s = false) pre /\
    confirm_pressed j = true.
Proof.
  induction l as [| a l IH]; intros Hnot.
  - exfalso. apply Hnot. constructor.
  - destruct (confirm_pressed a) eqn:Ha.
    + exists [], a, l. split; [reflexivity |]. split; [constructor | exact Ha].
    + destruct IH as (pre & j & rest & -> & Hpre & Hj).
      { intros Hall. apply Hnot. constructor; assumption. }
      exists (a :: pre), j, rest. split; [reflexivity |].
      split; [constructor; assumption | exact Hj].
Qed.

(** X8.  The wait for the confirm button has no time-out:
    [wait_for_joystick_center_click] fails to return exactly when no
    sample of the joystick ever reads pressed, and so does
    [measure_reaction_time]. *)
Theorem wait_without_timeout (w : World) :
  (wait_for_joystick_center_click w = None
   <-> Forall (fun s => confirm_pressed s = false) (joy_in (inputs w))) /\
  (measure_reaction_time w = None
   <-> Forall (fun s => confirm_pressed s = false) (joy_in (inputs w))).
Proof.
  assert (Hdec : forall l : list Z,
            Forall (fun s => confirm_pressed s = false) l \/
            ~ Forall (fun s => confirm_pressed s = false) l).
  { intros l.
    destruct (decide (Forall (fun s => confirm_pressed s = false) l)); auto. }
  split; split.
  - intros Hnone. destruct (Hdec (joy_in (inputs w))) as [Hall | Hnot]; [exact Hall |].
    destruct (first_pressed _ Hnot) as (pre & j & rest & Hjoy & Hpre & Hj).
    rewrite (wait_for_joystick_center_click_run w pre j rest Hjoy Hpre Hj) in Hnone.
    discriminate.
  - intros Hall. apply wait_loop_released. exact Hall.
  - intros Hnone. destruct (Hdec (joy_in (inputs w))) as [Hall | Hnot]; [exact Hall |].
    destruct (first_pressed _ Hnot) as (pre & j & rest & Hjoy & Hpre & Hj).
    rewrite (measure_reaction_time_run w pre j rest Hjoy Hpre Hj) in Hnone.
    discriminate.
  - intros Hall. unfold measure_reaction_time. rewrite run_bind.
    change (timer1_reset_start w) with (Some (tt, set_timer1_start (clock_us w) w)).
    cbv beta iota. rewrite run_bind.
    unfold wait_for_joystick_center_click.
    rewrite wait_loop_released; [reflexivity | exact Hall].
Qed.

End Waiting.

(** ** TiltMonitor: deviations from the calibration sample *)

Lemma to_int8_add_r a c : to_int8 (a + to_int8 c) = to_int8 (a + c).
Proof.
  unfold to_int8. f_equal.
  replace (a + ((c + 2 ^ 7) mod 2 ^ 8 - 2 ^ 7) + 2 ^ 7)
    with (a + (c + 2 ^ 7) mod 2 ^ 8) by lia.
  rewrite Zplus_mod_idemp_r. f_equal. lia.
Qed.

(** The adjusted reading is the deviation from the calibration reading
    whenever that deviation is an [int8_t] value. *)
Lemma adjusted_reading x x0 :
  - 2 ^ 7 <= x < 2 ^ 7 -> - 2 ^ 7 <= x0 < 2 ^ 7 ->
  - 2 ^ 7 <= x - x0 < 2 ^ 7 ->
  to_int8 (to_int8 x + to_int8 (- to_int8 x0)) = x - x0.
Proof.
  intros Hx Hx0 Hdev.
  rewrite (to_int8_small x), (to_int8_small x0) by lia.
  rewrite to_int8_add_r. apply to_int8_small. lia.
Qed.

(** X9.  After a calibration on the sample [(x0, y0, z0)], and for a
    sample [(x, y, z)] whose X and Y deviations from it are [int8_t]
    values, [is_board_tilted] returns 1 exactly when X or Y deviates by
    more than 30 counts, in either direction. *)
Theorem tilt_is_deviation (w : World) x0 y0 z0 x y z rest :
  acc_in (inputs w) = (x0, y0, z0) :: (x, y, z) :: rest ->
  - 128 <= x0 <= 127 -> - 128 <= y0 <= 127 ->
  - 128 <= x <= 127 -> - 128 <= y <= 127 ->
  - 128 <= x - x0 <= 127 -> - 128 <= y - y0 <= 127 ->
  exists r w',
    (init_tilt_calibration;; is_board_tilted) w = Some (r, w') /\
    (r = 0 \/ r = 1) /\
    (r = 1 <-> 30 < Z.abs (x - x0) \/ 30 < Z.abs (y - y0)).
Proof.
  intros Hacc Hx0 Hy0 Hx Hy Hdx Hdy.
  rewrite run_bind, (init_tilt_calibration_run w x0 y0 z0 _ Hacc).
  cbv beta iota.
  set (w1 := set_tilt _ _).
  assert (Hacc1 : acc_in (inputs w1) = (x, y, z) :: rest) by reflexivity.
  rewrite (is_board_tilted_run w1 x y z rest Hacc1). cbv zeta.
  change (xOffset (tilt w1)) with (to_int8 (- to_int8 x0)).
  change (yOffset (tilt w1)) with (to_int8 (- to_int8 y0)).
  rewrite (adjusted_reading x x0), (adjusted_reading y y0)
    by (change (2 ^ 7) with 128; lia).
  pose proof (beyond_threshold_spec (x - x0) (y - y0)) as Hspec.
  eexists _, _. split; [reflexivity |].
  destruct (beyond_threshold (x - x0) (y - y0)).
  - split; [auto |]. split; [intros _ | reflexivity].
    assert (H : x - x0 > 30 \/ x - x0 < -30 \/ y - y0 > 30 \/ y - y0 < -30)
      by (apply Hspec; reflexivity).
    lia.
  - split; [auto |]. split; [discriminate |]. intros Hdev.
    assert (H : x - x0 > 30 \/ x - x0 < -30 \/ y - y0 > 30 \/ y - y0 < -30) by lia.
    apply Hspec in H. discriminate.
Qed.

Lemma tilt_is_deviation_witness :
  exists r w',
    (init_tilt_calibration;; is_board_tilted)
      (world_with (mkInputs [] [] [(3, -60, 20); (40, -50, -64)] [])) = Some (r, w') /\
    r = 1.
Proof.
  destruct (tilt_is_deviation
              (world_with (mkInputs [] [] [(3, -60, 20); (40, -50, -64)] []))
              3 (-60) 20 40 (-50) (-64) [] eq_refl)
    as (r & w' & Hrun & _ & Hiff); try lia.
  exists r, w'. split; [exact Hrun |]. apply Hiff. lia.
Defined.

(** ** MenuController: the background of a pass *)

(** What the background part of a pass of the menu loop does to the
    world, given one accelerometer and one light sample. *)
Lemma handle_menu_background_effect (w : World) x y z accs l ls :
  acc_in (inputs w) = (x, y, z) :: accs ->
  light_in (inputs w) = l :: ls ->
  let ax := to_int8 (to_int8 x + xOffset (tilt w)) in
  let ay := to_int8 (to_int8 y + yOffset (tilt w)) in
  exists w',
    handle_menu_background w = Some (tt, w') /\
    eeprom w' = (if beyond_threshold ax ay
                 then store_score 9999 (eeprom w) else eeprom w) /\
    xOffset (tilt w') = xOffset (tilt w) /\
    yOffset (tilt w') = yOffset (tilt w) /\
    theme w' = palette_for (to_uint32 l) /\
    selectedIndex w' = selectedIndex w /\
    joy_in (inputs w') = joy_in (inputs w) /\
    acc_in (inputs w') = accs /\
    light_in (inputs w') = ls.
Proof.
  intros Hacc Hl ax ay.
  unfold handle_menu_background.
  rewrite run_bind, (is_board_tilted_run w x y z accs Hacc). cbv beta iota zeta.
  fold ax ay.
  set (wt := set_tilt _ _).
  assert (Hfin : forall w1 : World,
            light_in (inputs w1) = l :: ls ->
            exists w',
              (changed ← adjust_theme;
               (if nonzero changed then draw_menu else mret tt);;
               delay32Ms 50) w1 = Some (tt, w') /\
              eeprom w' = eeprom w1 /\ tilt w' = tilt w1 /\
              theme w' = palette_for (to_uint32 l) /\
              selectedIndex w' = selectedIndex w1 /\
              joy_in (inputs w') = joy_in (inputs w1) /\
              acc_in (inputs w') = acc_in (inputs w1) /\
              light_in (inputs w') = ls).
  { intros w1 Hl1.
    rewrite run_bind, (adjust_theme_run w1 l ls Hl1). cbv zeta.
    destruct (decide _); cbv beta iota.
    - change (nonzero 0) with false. cbv iota.
      rewrite run_bind. unfold mret at 1, M_ret at 1. cbv beta iota.
      rewrite delay32Ms_run. eexists. split; [reflexivity |]. repeat split.
    - change (nonzero 1) with true. cbv iota.
      rewrite run_bind, draw_menu_run. cbv beta iota.
      rewrite delay32Ms_run. eexists. split; [reflexivity |]. repeat split. }
  destruct (beyond_threshold ax ay).
  - change (nonzero 1) with true. cbv iota.
    rewrite run_bind. rewrite (run_bind (set_high_score 9999)).
    rewrite set_high_score_run. cbv beta iota.
    rewrite run_bind, oled_putString_run. cbv beta iota.
    rewrite delay32Ms_run. cbv beta iota.
    match goal with |- exists w', _ ?w1 = _ /\ _ =>
      destruct (Hfin w1 Hl) as (w' & Hrun & Hee & Htilt & Hth & Hsel & Hj & Ha & Hls)
    end.
    exists w'. split; [exact Hrun |].
    rewrite Hee, Htilt, Hth, Hsel, Hj, Ha, Hls. repeat split.
  - change (nonzero 0) with false. cbv iota.
    rewrite run_bind. unfold mret at 1, M_ret at 1. cbv beta iota.
    destruct (Hfin wt Hl) as (w' & Hrun & Hee & Htilt & Hth & Hsel & Hj & Ha & Hls).
    exists w'. split; [exact Hrun |].
    rewrite Hee, Htilt, Hth, Hsel, Hj, Ha, Hls. repeat split.
Qed.

(** X10.  The tilt check of the menu loop, main.c:623-628: the
    background part of a pass writes the store exactly when the board reads
    tilted, and the stored score is then 9999, whatever it was; otherwise
    the store is left alone. *)
Theorem menu_pass_tilt_reset (w : World) x y z accs l ls :
  acc_in (inputs w) = (x, y, z) :: accs ->
  light_in (inputs w) = l :: ls ->
  let ax := to_int8 (to_int8 x + xOffset (tilt w)) in
  let ay := to_int8 (to_int8 y + yOffset (tilt w)) in
  exists w',
    handle_menu_background w = Some (tt, w') /\
    (ax > 30 \/ ax < -30 \/ ay > 30 \/ ay < -30 ->
       stored_score (eeprom w') = 9999 /\
       forall a, a <> 8 -> a <> 9 -> eeprom w' a = eeprom w a) /\
    (~ (ax > 30 \/ ax < -30 \/ ay > 30 \/ ay < -30) -> eeprom w' = eeprom w).
Proof.
  intros Hacc Hl ax ay.
  destruct (handle_menu_background_effect w x y z accs l ls Hacc Hl)
    as (w' & Hrun & Hee & _).
  cbv zeta in Hee. fold ax ay in Hee.
  pose proof (beyond_threshold_spec ax ay) as Hspec.
  exists w'. split; [exact Hrun |]. rewrite Hee.
  destruct (beyond_threshold ax ay).
  - split.
    + intros _. split; [apply stored_score_store_score |].
      intros a H8 H9. unfold store_score.
      rewrite !fn_lookup_insert_ne by congruence. reflexivity.
    + intros Hnot. exfalso. apply Hnot, Hspec. reflexivity.
  - split; [| reflexivity].
    intros Htilt. apply Hspec in Htilt. discriminate.
Qed.

Lemma menu_pass_tilt_reset_witness :
  exists w',
    handle_menu_background
      (set_eeprom (store_score 180 (fun _ => 0))
         (world_with (mkInputs [] [200] [(50, 0, 64)] []))) = Some (tt, w') /\
    stored_score (eeprom w') = 9999.
Proof.
  destruct (menu_pass_tilt_reset
              (set_eeprom (store_score 180 (fun _ => 0))
                 (world_with (mkInputs [] [200] [(50, 0, 64)] [])))
              50 0 64 [] 200 [] eq_refl eq_refl) as (w' & Hrun & Hreset & _).
  exists w'. split; [exact Hrun |].
  apply Hreset. left. vm_compute. reflexivity.
Defined.

Lemma rising_after_all_ones (mask j : Z) : rising mask (to_uint8 j) 0xFF = false.
Proof.
  unfold rising, nonzero.
  destruct (Z.land 255 mask =? 0) eqn:Hmask; [| apply andb_false_r].
  apply Z.eqb_eq in Hmask.
  assert (Hj : to_uint8 j = Z.land (to_uint8 j) 255).
  { change 255 with (Z.ones 8). rewrite Z.land_ones by lia.
    unfold to_uint8. rewrite Z.mod_mod by lia. reflexivity. }
  rewrite Hj, <- Z.land_assoc, Hmask, Z.land_0_r. reflexivity.
Qed.

Lemma last_cons {A : Type} (l : list A) :
  forall a d : A, List.last (a :: l) d = List.last l a.
Proof.
  induction l as [| b l IH]; intros a d; [reflexivity |].
  change (List.last (a :: b :: l) d) with (List.last (b :: l) d).
  rewrite (IH b d), (IH b a). reflexivity.
Qed.

Section MenuPasses.
Context {board : Board}.

Lemma poll_action_after_all_ones (j : Z) : poll_action (to_uint8 j) 0xFF = NoAction.
Proof. unfold poll_action. rewrite !rising_after_all_ones. reflexivity. Qed.

Lemma poll_action_select joy previous_joy :
  poll_action joy previous_joy = Select ->
  rising JOYSTICK_DOWN joy previous_joy = false /\
  rising JOYSTICK_UP joy previous_joy = false /\
  rising JOYSTICK_CENTER joy previous_joy = true.
Proof.
  unfold poll_action.
  destruct (rising JOYSTICK_DOWN joy previous_joy); [discriminate |].
  destruct (rising JOYSTICK_UP joy previous_joy); [discriminate |].
  destruct (rising JOYSTICK_CENTER joy previous_joy); [auto | discriminate].
Qed.

(** One pass of the menu loop, with what it does to the store and to the
    calibration. *)
Lemma handle_menu_poll_effect (previous_joy : Z) (w : World) j js x y z accs l ls :
  joy_in (inputs w) = j :: js ->
  acc_in (inputs w) = (x, y, z) :: accs ->
  light_in (inputs w) = l :: ls ->
  let joy := to_uint8 j in
  let act := poll_action joy previous_joy in
  let ax := to_int8 (to_int8 x + xOffset (tilt w)) in
  let ay := to_int8 (to_int8 y + yOffset (tilt w)) in
  exists w',
    handle_menu_poll previous_joy w = Some ((act, joy), w') /\
    joy_in (inputs w') = js /\
    selectedIndex w' = index_after act (selectedIndex w) /\
    (act = Select -> w' = after_joy js w) /\
    (act <> Select ->
       eeprom w' = (if beyond_threshold ax ay
                    then store_score 9999 (eeprom w) else eeprom w) /\
       xOffset (tilt w') = xOffset (tilt w) /\
       yOffset (tilt w') = yOffset (tilt w) /\
       acc_in (inputs w') = accs /\ light_in (inputs w') = ls).
Proof.
  intros Hjoy Hacc Hl joy act ax ay.
  unfold handle_menu_poll.
  rewrite run_bind, (joystick_read_run w j js Hjoy). cbv beta iota.
  fold joy. subst act. unfold poll_action.
  fold (rising JOYSTICK_DOWN joy previous_joy).
  fold (rising JOYSTICK_UP joy previous_joy).
  fold (rising JOYSTICK_CENTER joy previous_joy).
  assert (Hnav : forall (v : Z) (act : menu_action),
            act <> Select ->
            exists w',
              (modify (fun w0 => set_selectedIndex v w0);;
               draw_menu;; handle_menu_background;; mret (act, joy))
                (after_joy js w) = Some ((act, joy), w') /\
              joy_in (inputs w') = js /\
              selectedIndex w' = v /\
              (act = Select -> w' = after_joy js w) /\
              (act <> Select ->
                 eeprom w' = (if beyond_threshold ax ay
                              then store_score 9999 (eeprom w) else eeprom w) /\
                 xOffset (tilt w') = xOffset (tilt w) /\
                 yOffset (tilt w') = yOffset (tilt w) /\
                 acc_in (inputs w') = accs /\ light_in (inputs w') = ls)).
  { intros v act Hact.
    rewrite run_bind. unfold modify at 1. cbv beta iota.
    rewrite run_bind, draw_menu_run. cbv beta iota.
    set (w2 := after_events _ _).
    destruct (handle_menu_background_effect w2 x y z accs l ls Hacc Hl)
      as (w' & Hrun & Hee & Hxo & Hyo & _ & Hsel & Hj & Ha & Hls).
    exists w'. rewrite run_bind, Hrun. cbv beta iota.
    split; [reflexivity |]. split; [exact Hj |]. split; [exact Hsel |].
    split; [intros; contradiction |]. intros _.
    split; [exact Hee |]. auto. }
  destruct (rising JOYSTICK_DOWN joy previous_joy).
  { apply (Hnav (Z.rem (selectedIndex w + 1) MENU_ITEM_COUNT) NavDown). discriminate. }
  destruct (rising JOYSTICK_UP joy previous_joy).
  { apply (Hnav (Z.rem (selectedIndex w - 1 + MENU_ITEM_COUNT) MENU_ITEM_COUNT) NavUp).
    discriminate. }
  destruct (rising JOYSTICK_CENTER joy previous_joy).
  { exists (after_joy js w). split; [reflexivity |].
    split; [reflexivity |]. split; [reflexivity |].
    split; [reflexivity | intros H; contradiction]. }
  destruct (handle_menu_background_effect (after_joy js w) x y z accs l ls Hacc Hl)
    as (w' & Hrun & Hee & Hxo & Hyo & _ & Hsel & Hj & Ha & Hls).
  exists w'. rewrite run_bind, Hrun. cbv beta iota.
  split; [reflexivity |]. split; [exact Hj |]. split; [exact Hsel |].
  split; [discriminate |]. intros _. split; [exact Hee |]. auto.
Qed.

(** X11.  [handle_menu] enters its loop with [previous_joy = 0xFF], so
    its first pass takes no action whatever the joystick reads, on any
    board: a button still held from the screen before neither moves the
    selection nor selects.  [handle_menu] then goes on from the second
    sample. *)
Theorem handle_menu_ignores_held_buttons (w : World) j js a accs l ls :
  joy_in (inputs w) = j :: js ->
  acc_in (inputs w) = a :: accs ->
  light_in (inputs w) = l :: ls ->
  exists w',
    handle_menu_poll 0xFF w = Some ((NoAction, to_uint8 j), w') /\
    selectedIndex w' = selectedIndex w /\
    joy_in (inputs w') = js /\
    handle_menu w = handle_menu_loop (S (length js)) (to_uint8 j) w'.
Proof.
  intros Hjoy Hacc Hl.
  destruct (handle_menu_poll_run 0xFF w j js a accs l ls Hjoy Hacc Hl)
    as (w' & Hpoll & Hsel & Hjs & _).
  rewrite poll_action_after_all_ones in Hpoll, Hsel.
  exists w'. split; [exact Hpoll |]. split; [exact Hsel |]. split; [exact Hjs |].
  unfold handle_menu. rewrite Hjoy. cbn [length handle_menu_loop].
  rewrite run_bind, Hpoll. reflexivity.
Qed.

Lemma handle_menu_background_needs_samples (w w' : World) :
  handle_menu_background w = Some (tt, w') ->
  acc_in (inputs w) <> [] /\ light_in (inputs w) <> [].
Proof.
  intros Hrun. unfold handle_menu_background in Hrun.
  destruct (acc_in (inputs w)) as [| [[x y] z] accs] eqn:Hacc.
  { rewrite run_bind in Hrun. unfold is_board_tilted in Hrun.
    rewrite run_bind in Hrun. unfold acc_read in Hrun. rewrite Hacc in Hrun.
    discriminate. }
  split; [discriminate |].
  destruct (light_in (inputs w)) as [| l ls] eqn:Hl; [| discriminate].
  exfalso.
  rewrite run_bind, (is_board_tilted_run w x y z accs Hacc) in Hrun.
  cbv beta iota zeta in Hrun.
  assert (Hadj : forall w1 : World, light_in (inputs w1) = [] ->
            forall k : Z -> M unit, (adjust_theme ≫= k) w1 = None).
  { intros w1 Hl1 k. rewrite run_bind. unfold adjust_theme.
    rewrite run_bind. unfold light_read. rewrite Hl1. reflexivity. }
  destruct (beyond_threshold _ _).
  - change (nonzero 1) with true in Hrun. cbv iota in Hrun.
    rewrite run_bind in Hrun. rewrite (run_bind (set_high_score 9999)) in Hrun.
    rewrite set_high_score_run in Hrun. cbv beta iota in Hrun.
    rewrite run_bind, oled_putString_run in Hrun. cbv beta iota in Hrun.
    rewrite delay32Ms_run in Hrun. cbv beta iota in Hrun.
    rewrite Hadj in Hrun; [discriminate | exact Hl].
  - change (nonzero 0) with false in Hrun. cbv iota in Hrun.
    rewrite run_bind in Hrun. unfold mret at 1, M_ret at 1 in Hrun.
    cbv beta iota in Hrun.
    rewrite Hadj in Hrun; [discriminate | exact Hl].
Qed.

(** A pass that returns a result has taken a joystick sample. *)
Lemma handle_menu_poll_inv (previous_joy : Z) (w w1 : World) (act : menu_action) (joy : Z) :
  handle_menu_poll previous_joy w = Some ((act, joy), w1) ->
  exists j js,
    joy_in (inputs w) = j :: js /\
    joy = to_uint8 j /\
    act = poll_action joy previous_joy /\
    joy_in (inputs w1) = js /\
    selectedIndex w1 = index_after act (selectedIndex w).
Proof.
  intros Hrun.
  destruct (joy_in (inputs w)) as [| j js] eqn:Hjoy.
  { unfold handle_menu_poll in Hrun. rewrite run_bind in Hrun.
    unfold joystick_read in Hrun. rewrite Hjoy in Hrun. discriminate. }
  exists j, js. split; [reflexivity |].
  assert (Hsamples : poll_action (to_uint8 j) previous_joy <> Select ->
            acc_in (inputs w) <> [] /\ light_in (inputs w) <> []).
  { intros Hact. revert Hrun. unfold handle_menu_poll.
    rewrite run_bind, (joystick_read_run w j js Hjoy). cbv beta iota.
    revert Hact. unfold poll_action.
    fold (rising JOYSTICK_DOWN (to_uint8 j) previous_joy).
    fold (rising JOYSTICK_UP (to_uint8 j) previous_joy).
    fold (rising JOYSTICK_CENTER (to_uint8 j) previous_joy).
    assert (Hnav : forall (v : Z) (res : menu_action * Z),
              (modify (fun w0 => set_selectedIndex v w0);;
               draw_menu;; handle_menu_background;; mret res)
                (after_joy js w) = Some ((act, joy), w1) ->
              acc_in (inputs w) <> [] /\ light_in (inputs w) <> []).
    { intros v res Hnav.
      rewrite run_bind in Hnav. unfold modify at 1 in Hnav. cbv beta iota in Hnav.
      rewrite run_bind, draw_menu_run in Hnav. cbv beta iota in Hnav.
      rewrite run_bind in Hnav.
      match type of Hnav with
      | match handle_menu_background ?w2 with _ => _ end = _ =>
          destruct (handle_menu_background w2) as [[[] w3] |] eqn:Hbg;
            [| discriminate];
          apply handle_menu_background_needs_samples in Hbg
      end.
      exact Hbg. }
    destruct (rising JOYSTICK_DOWN (to_uint8 j) previous_joy).
    { intros _. apply Hnav. }
    destruct (rising JOYSTICK_UP (to_uint8 j) previous_joy).
    { intros _. apply Hnav. }
    destruct (rising JOYSTICK_CENTER (to_uint8 j) previous_joy).
    { intros Hact. contradiction. }
    intros _ Hbg. rewrite run_bind in Hbg.
    destruct (handle_menu_background (after_joy js w)) as [[[] w3] |] eqn:Hbg';
      [| discriminate].
    apply handle_menu_background_needs_samples in Hbg'. exact Hbg'. }
  destruct (decide (poll_action (to_uint8 j) previous_joy = Select)) as [Hact | Hact].
  - destruct (poll_action_select _ _ Hact) as (Hd & Hu & Hc).
    revert Hrun. unfold handle_menu_poll.
    rewrite run_bind, (joystick_read_run w j js Hjoy). cbv beta iota.
    fold (rising JOYSTICK_DOWN (to_uint8 j) previous_joy).
    fold (rising JOYSTICK_UP (to_uint8 j) previous_joy).
    fold (rising JOYSTICK_CENTER (to_uint8 j) previous_joy).
    rewrite Hd, Hu, Hc. intros Hrun. injection Hrun as <- <- <-.
    rewrite Hact. repeat split.
  - destruct (Hsamples Hact) as [Ha Hl].
    destruct (acc_in (inputs w)) as [| a accs] eqn:Hacc; [contradiction |].
    destruct (light_in (inputs w)) as [| l ls] eqn:Hlight; [contradiction |].
    destruct (handle_menu_poll_run previous_joy w j js a accs l ls Hjoy Hacc Hlight)
      as (w' & Hpoll & Hsel & Hjs & _).
    rewrite Hpoll in Hrun. injection Hrun as <- <- <-.
    repeat split; assumption.
Qed.

(** A call of the loop that returns has seen the confirm bit make its
    transition at some sample. *)
Lemma handle_menu_loop_inv (fuel : nat) :
  forall (previous_joy : Z) (w w' : World) (r : Z),
    handle_menu_loop fuel previous_joy w = Some (r, w') ->
    exists pre j rest,
      joy_in (inputs w) = pre ++ j :: rest /\
      rising JOYSTICK_CENTER (to_uint8 j)
        (List.last (to_uint8 <$> pre) previous_joy) = true /\
      joy_in (inputs w') = rest /\
      r = selectedIndex w'.
Proof.
  induction fuel as [| fuel IH]; intros previous_joy w w' r Hrun; [discriminate |].
  cbn [handle_menu_loop] in Hrun. rewrite run_bind in Hrun.
  destruct (handle_menu_poll previous_joy w) as [[[act joy] w1] |] eqn:Hpoll;
    [| discriminate].
  apply handle_menu_poll_inv in Hpoll as (j & js & Hjoy & -> & -> & Hjs & _).
  destruct (decide (poll_action (to_uint8 j) previous_joy = Select)) as [Hact | Hact].
  - rewrite Hact in Hrun. injection Hrun as <- <-.
    exists [], j, js. split; [exact Hjoy |].
    split; [apply poll_action_select in Hact; apply Hact |].
    split; [exact Hjs | reflexivity].
  - assert (Hcont : handle_menu_loop fuel (to_uint8 j) w1 = Some (r, w')).
    { destruct (poll_action (to_uint8 j) previous_joy); try exact Hrun.
      contradiction. }
    apply IH in Hcont as (pre & j' & rest & Hjoy1 & Hrise & Hrest & Hr).
    exists (j :: pre), j', rest.
    split; [rewrite Hjoy, <- Hjs, Hjoy1; reflexivity |].
    split; [| split; assumption].
    cbn [fmap list_fmap]. rewrite last_cons. exact Hrise.
Qed.

(** X12.  [handle_menu] returns only on a fresh press of the confirm
    button: when it returns, the last two samples it has taken read
    released and then pressed, and the result is the menu index at that
    moment. *)
Theorem handle_menu_needs_fresh_press (w w' : World) (r : Z) :
  handle_menu w = Some (r, w') ->
  exists pre j1 j2 rest,
    joy_in (inputs w) = pre ++ j1 :: j2 :: rest /\
    confirm_pressed j1 = false /\
    confirm_pressed j2 = true /\
    joy_in (inputs w') = rest /\
    r = selectedIndex w'.
Proof.
  intros Hrun. unfold handle_menu in Hrun.
  apply handle_menu_loop_inv in Hrun as (pre & j2 & rest & Hjoy & Hrise & Hrest & Hr).
  destruct (exists_last (l := pre)) as (pre0 & j1 & ->).
  { intros ->. cbn in Hrise. rewrite rising_after_all_ones in Hrise. discriminate. }
  rewrite fmap_app in Hrise.
  change (to_uint8 <$> [j1]) with [to_uint8 j1] in Hrise.
  rewrite last_last in Hrise.
  apply rising_spec in Hrise as [Hset Hclear].
  exists pre0, j1, j2, rest.
  split; [rewrite Hjoy, <- app_assoc; reflexivity |].
  split; [unfold confirm_pressed; rewrite Hclear; reflexivity |].
  split; [unfold confirm_pressed; apply negb_true_iff, Z.eqb_neq; exact Hset |].
  split; assumption.
Qed.

End MenuPasses.

Lemma handle_menu_ignores_held_buttons_witness :
  exists w',
    @handle_menu_poll xpresso_board 0xFF
      (world_with (mkInputs [0x07; 0x07] [200; 200] [(0, 0, 64); (0, 0, 64)] []))
    = Some ((NoAction, 0x07), w') /\
    selectedIndex w' = 0.
Proof.
  destruct (@handle_menu_ignores_held_buttons xpresso_board
              (world_with (mkInputs [0x07; 0x07] [200; 200] [(0, 0, 64); (0, 0, 64)] []))
              0x07 [0x07] (0, 0, 64) [(0, 0, 64)] 200 [200] eq_refl eq_refl eq_refl)
    as (w' & Hpoll & Hsel & _).
  exists w'. split; [exact Hpoll | exact Hsel].
Defined.

Lemma handle_menu_needs_fresh_press_witness :
  exists pre j1 j2 rest,
    [0x01; 0x01; 0; 0x01; 0x04] = pre ++ j1 :: j2 :: rest /\
    @confirm_pressed xpresso_board j1 = false /\
    @confirm_pressed xpresso_board j2 = true.
Proof.
  destruct (@handle_menu xpresso_board
              (world_with (mkInputs [0x01; 0x01; 0; 0x01; 0x04] [200; 200; 200; 200]
                             [(0, 0, 64); (0, 0, 64); (0, 0, 64); (0, 0, 64)] [])))
    as [[r w'] |] eqn:Hrun; [| vm_compute in Hrun; discriminate Hrun].
  destruct (@handle_menu_needs_fresh_press xpresso_board _ _ _ Hrun)
    as (pre & j1 & j2 & rest & Hjoy & H1 & H2 & _).
  exists pre, j1, j2, rest. split; [exact Hjoy |]. split; assumption.
Defined.

(** ** MenuController: a board that stays level *)

Section LevelBoard.
Context {board : Board}.

Lemma level_sample_within x0 y0 x y z (w : World) :
  - 128 <= x0 <= 127 -> - 128 <= y0 <= 127 ->
  xOffset (tilt w) = to_int8 (- to_int8 x0) ->
  yOffset (tilt w) = to_int8 (- to_int8 y0) ->
  level_sample x0 y0 (x, y, z) ->
  beyond_threshold (to_int8 (to_int8 x + xOffset (tilt w)))
                   (to_int8 (to_int8 y + yOffset (tilt w))) = false.
Proof.
  intros Hx0 Hy0 Hxo Hyo (Hx & Hy & Hdx & Hdy). cbn in Hx, Hy, Hdx, Hdy.
  rewrite Hxo, Hyo.
  rewrite (adjusted_reading x x0), (adjusted_reading y y0)
    by (change (2 ^ 7) with 128; lia).
  destruct (beyond_threshold (x - x0) (y - y0)) eqn:Hb; [| reflexivity].
  apply beyond_threshold_spec in Hb. lia.
Qed.

Lemma handle_menu_polls_level (n : nat) :
  forall (previous_joy : Z) (w : World) (x0 y0 : Z),
    - 128 <= x0 <= 127 -> - 128 <= y0 <= 127 ->
    xOffset (tilt w) = to_int8 (- to_int8 x0) ->
    yOffset (tilt w) = to_int8 (- to_int8 y0) ->
    (n <= length (joy_in (inputs w)))%nat ->
    (n <= length (acc_in (inputs w)))%nat ->
    (n <= length (light_in (inputs w)))%nat ->
    Forall (level_sample x0 y0) (firstn n (acc_in (inputs w))) ->
    exists actions last w',
      handle_menu_polls n previous_joy w = Some ((actions, last), w') /\
      eeprom w' = eeprom w.
Proof.
  induction n as [| n IH]; intros previous_joy w x0 y0 Hx0 Hy0 Hxo Hyo Hj Ha Hl Hlevel.
  - exists [], previous_joy, w. split; reflexivity.
  - destruct (joy_in (inputs w)) as [| j js] eqn:Hjoy; [cbn in Hj; lia |].
    destruct (acc_in (inputs w)) as [| [[x y] z] accs] eqn:Hacc; [cbn in Ha; lia |].
    destruct (light_in (inputs w)) as [| l ls] eqn:Hlight; [cbn in Hl; lia |].
    cbn [firstn] in Hlevel. apply Forall_cons in Hlevel as [Hhead Hlevel].
    destruct (handle_menu_poll_effect previous_joy w j js x y z accs l ls
                Hjoy Hacc Hlight)
      as (w1 & Hpoll & Hjs & _ & Hselect & Hrest).
    cbn [handle_menu_polls]. rewrite run_bind, Hpoll. cbv beta iota.
    destruct (decide (poll_action (to_uint8 j) previous_joy = Select)) as [Hact | Hact].
    + rewrite Hact. exists [Select], (to_uint8 j), w1.
      split; [reflexivity |]. rewrite (Hselect Hact). reflexivity.
    + destruct (Hrest Hact) as (Hee & Hxo1 & Hyo1 & Hacc1 & Hl1).
      rewrite (level_sample_within x0 y0 x y z w Hx0 Hy0 Hxo Hyo Hhead) in Hee.
      destruct (IH (to_uint8 j) w1 x0 y0 Hx0 Hy0) as (actions & last & w' & Hrun & Hee').
      { rewrite Hxo1. exact Hxo. }
      { rewrite Hyo1. exact Hyo. }
      { rewrite Hjs. cbn in Hj. lia. }
      { rewrite Hacc1. cbn in Ha. lia. }
      { rewrite Hl1. cbn in Hl. lia. }
      { rewrite Hacc1. exact Hlevel. }
      exists (poll_action (to_uint8 j) previous_joy :: actions), last, w'.
      split; [| rewrite Hee', Hee; reflexivity].
      destruct (poll_action (to_uint8 j) previous_joy); try contradiction;
        rewrite run_bind, Hrun; reflexivity.
Qed.

(** X13.  A board that stays level keeps the stored score through the
    menu: after [init_tilt_calibration] on the sample [(x0, y0, z0)], and
    while every accelerometer sample is within 30 counts of [x0] and [y0]
    on X and Y, any number of menu passes leaves the persistent store as
    it was, whatever the joystick and the light sensor read; and when
    those passes end in a selection, [handle_menu] returns there. *)
Theorem level_board_keeps_score (n : nat) (previous_joy : Z) (w : World)
    (x0 y0 z0 : Z) (accs : list (Z * Z * Z)) :
  - 128 <= x0 <= 127 -> - 128 <= y0 <= 127 ->
  0 <= selectedIndex w < MENU_ITEM_COUNT ->
  acc_in (inputs w) = (x0, y0, z0) :: accs ->
  (n <= length (joy_in (inputs w)))%nat ->
  (n <= length accs)%nat ->
  (n <= length (light_in (inputs w)))%nat ->
  Forall (level_sample x0 y0) (firstn n accs) ->
  exists w0 actions last w',
    init_tilt_calibration w = Some (tt, w0) /\
    handle_menu_polls n previous_joy w0 = Some ((actions, last), w') /\
    eeprom w' = eeprom w /\
    (forall acts fuel, actions = acts ++ [Select] -> (n <= fuel)%nat ->
       handle_menu_loop fuel previous_joy w0 = Some (selectedIndex w', w')).
Proof.
  intros Hx0 Hy0 Hsel Hacc Hj Ha Hl Hlevel.
  eexists. 
  assert (Hcal := init_tilt_calibration_run w x0 y0 z0 accs Hacc).
  set (w0 := set_tilt _ _) in Hcal.
  destruct (handle_menu_polls_level n previous_joy w0 x0 y0 Hx0 Hy0
              eq_refl eq_refl Hj Ha Hl Hlevel)
    as (actions & last & w' & Hrun & Hee).
  destruct (handle_menu_polls_run n previous_joy w0 Hsel Hj Ha Hl)
    as (actions' & last' & w'' & Hrun' & _ & _ & Hloop).
  rewrite Hrun in Hrun'. injection Hrun' as <- <- <-.
  exists actions, last, w'.
  split; [exact Hcal |]. split; [exact Hrun |]. split; [exact Hee |]. exact Hloop.
Qed.

End LevelBoard.

Lemma level_board_keeps_score_witness :
  exists w0 actions last w',
    init_tilt_calibration
      (world_with (mkInputs [0; 0x04; 0x04; 0; 0x01] [200; 10; 200; 10]
                     [(3, -2, 60); (20, -30, 64); (-27, 28, 70); (33, -32, 0);
                      (0, 0, 64)] []))
      = Some (tt, w0) /\
    @handle_menu_polls xpresso_board 4 0xFF w0 = Some ((actions, last), w') /\
    eeprom w' = eeprom (world_with (mkInputs [] [] [] [])).
Proof.
  destruct (@level_board_keeps_score xpresso_board 4 0xFF
              (world_with (mkInputs [0; 0x04; 0x04; 0; 0x01] [200; 10; 200; 10]
                     [(3, -2, 60); (20, -30, 64); (-27, 28, 70); (33, -32, 0);
                      (0, 0, 64)] []))
              3 (-2) 60
              [(20, -30, 64); (-27, 28, 70); (33, -32, 0); (0, 0, 64)])
    as (w0 & actions & last & w' & Hcal & Hrun & Hee & _).
  - lia.
  - lia.
  - unfold MENU_ITEM_COUNT. cbn. lia.
  - reflexivity.
  - cbn. lia.
  - cbn. lia.
  - cbn. lia.
  - cbn [firstn]. repeat constructor; cbn; lia.
  - exists w0, actions, last, w'. auto.
Defined.

(** ** GameSession: whole games *)

Lemma store_score_other (v : Z) (e : Z -> Z) (a : Z) :
  a <> 8 -> a <> 9 -> store_score v e a = e a.
Proof.
  intros H8 H9. unfold store_score.
  rewrite fn_lookup_insert_ne by congruence.
  rewrite fn_lookup_insert_ne by congruence. reflexivity.
Qed.

Lemma shown_values_app evs1 evs2 :
  shown_values (evs1 ++ evs2) = shown_values evs1 ++ shown_values evs2.
Proof. unfold shown_values. apply flat_map_app. Qed.

Lemma shown_values_delays n : shown_values (replicate n (EvDelayMs 1)) = [].
Proof. induction n as [| n IH]; [reflexivity | exact IH]. Qed.

Section Session.
Context {board : Board}.

(** The rounds of a game, from any round counter on. *)
Lemma game_rounds_run (rounds : list (list Z * Z * list Z * Z)) :
  forall (fuel : nat) (round totalTime highScoreMs : Z) (w : World) (rest : list Z),
    0 <= round ->
    round + Z.of_nat (length rounds) = 5 ->
    (length rounds <= fuel)%nat ->
    Forall round_answered rounds ->
    Forall (fun T => T < 10) (round_time <$> rounds) ->
    joy_in (inputs w) = flat_map round_joy rounds ++ rest ->
    (length rounds <= length (light_in (inputs w)))%nat ->
    (length rounds <= length (rand_in (inputs w)))%nat ->
    highScoreMs = stored_score (eeprom w) ->
    exists w',
      game_rounds fuel round totalTime highScoreMs w
      = Some ((5, fold_left total_after (round_time <$> rounds) totalTime,
               fold_left record_after (round_time <$> rounds) highScoreMs), w') /\
      stored_score (eeprom w')
      = fold_left record_after (round_time <$> rounds) highScoreMs /\
      (forall a, a <> 8 -> a <> 9 -> eeprom w' a = eeprom w a) /\
      joy_in (inputs w') = rest.
Proof.
  induction rounds as [| [[[pre j] pre2] j2] rounds IH];
    intros fuel round totalTime highScoreMs w rest Hround Hcount Hfuel Hans Hfit
           Hjoy Hl Hr Hinv.
  - cbn [length] in Hcount. assert (round = 5) by lia. subst round.
    exists w. split; [destruct fuel; reflexivity |].
    split; [symmetry; exact Hinv |]. split; [reflexivity | exact Hjoy].
  - cbn [length] in Hcount, Hfuel, Hl, Hr.
    destruct fuel as [| fuel]; [lia |].
    apply Forall_cons in Hans as [(Hpre & Hj & Hpre2 & Hj2) Hans].
    cbn [fmap list_fmap] in Hfit. apply Forall_cons in Hfit as [HT Hfit].
    unfold round_time in HT. cbn [fst snd] in HT.
    cbn [fst snd] in Hpre, Hj, Hpre2, Hj2.
    destruct (light_in (inputs w)) as [| l ls] eqn:Hlight; [cbn in Hl; lia |].
    destruct (rand_in (inputs w)) as [| r rs] eqn:Hrand; [cbn in Hr; lia |].
    assert (Hjoy1 : joy_in (inputs w)
                    = pre ++ j :: pre2 ++ j2 :: (flat_map round_joy rounds ++ rest)).
    { rewrite Hjoy. cbn [flat_map]. unfold round_joy at 1. cbn [fst snd].
      rewrite <- !app_assoc. cbn [app]. rewrite <- !app_assoc. reflexivity. }
    destruct (game_round_run round totalTime highScoreMs w l ls r rs pre j pre2 j2 _
                Hlight Hrand Hjoy1 Hpre Hj Hpre2 Hj2 HT)
      as (w1 & Hrun & Hee & Hjs & Hls & Hrs).
    cbv zeta in Hrun, Hee.
    assert (Hscore1 : stored_score (eeprom w1)
                      = record_after highScoreMs (to_uint32 (Z.of_nat (length pre)))).
    { rewrite Hee. unfold record_after.
      destruct (is_new_record _ _);
        [apply stored_score_store_score | symmetry; exact Hinv]. }
    assert (Hother1 : forall a, a <> 8 -> a <> 9 -> eeprom w1 a = eeprom w a).
    { intros a H8 H9. rewrite Hee.
      destruct (is_new_record _ _); [apply store_score_other; assumption | reflexivity]. }
    destruct (IH fuel (round + 1)
                (total_after totalTime (to_uint32 (Z.of_nat (length pre))))
                (record_after highScoreMs (to_uint32 (Z.of_nat (length pre))))
                w1 rest)
      as (w' & Hrun' & Hscore & Hother & Hrest);
      [lia | lia | lia | exact Hans | exact Hfit | exact Hjs
      | rewrite Hls; cbn in Hl; lia | rewrite Hrs; cbn in Hr; lia
      | symmetry; exact Hscore1 |].
    exists w'. split; [| split; [exact Hscore | split; [| exact Hrest]]].
    + cbn [game_rounds].
      replace (round <? 5) with true by (symmetry; apply Z.ltb_lt; lia).
      rewrite run_bind, Hrun. cbv beta iota.
      rewrite (to_uint8_small (round + 1)) by (change (2 ^ 8) with 256; lia).
      exact Hrun'.
    + intros a H8 H9. rewrite (Hother a H8 H9). apply Hother1; assumption.
Qed.

(** A whole game: five rounds, the summary and the last confirmation. *)
Lemma start_game_run (rounds : list (list Z * Z * list Z * Z)) (w : World)
    (pre : list Z) (j : Z) (rest : list Z) :
  length rounds = 5%nat ->
  Forall round_answered rounds ->
  Forall (fun T => T < 10) (round_time <$> rounds) ->
  joy_in (inputs w) = flat_map round_joy rounds ++ pre ++ j :: rest ->
  Forall (fun s => confirm_pressed s = false) pre ->
  confirm_pressed j = true ->
  (5 <= length (light_in (inputs w)))%nat ->
  (5 <= length (rand_in (inputs w)))%nat ->
  let times := round_time <$> rounds in
  let total := fold_left total_after times 0 in
  let best := fold_left record_after times (stored_score (eeprom w)) in
  exists w' shown,
    start_game w = Some (tt, w') /\
    stored_score (eeprom w') = best /\
    (forall a, a <> 8 -> a <> 9 -> eeprom w' a = eeprom w a) /\
    shown_values (out w') = shown ++ [("Avg"%string, total / 5); ("Best"%string, best)] /\
    joy_in (inputs w') = rest.
Proof.
  intros Hlen Hans Hfit Hjoy Hpre Hj Hl Hr times total best.
  destruct (game_rounds_run rounds 5 0 0 (stored_score (eeprom w)) w (pre ++ j :: rest))
    as (w5 & Hrun & Hscore & Hother & Hrest); try (rewrite ?Hlen; lia);
    try assumption; try reflexivity.
  fold times in Hrun, Hscore. fold total in Hrun. fold best in Hrun, Hscore.
  unfold start_game.
  rewrite run_bind, read_high_score_run. cbv beta iota.
  rewrite run_bind, Hrun. cbv beta iota.
  run_step oled_clearScreen_run.
  run_step oled_putString_run.
  run_step oled_putValue_run.
  rewrite run_bind, read_high_score_run. cbv beta iota.
  rewrite ?eeprom_after_events, Hscore.
  run_step oled_putValue_run.
  unfold clear_led_bar, led7seg_setChar.
  rewrite run_bind, emit_display_run by reflexivity. cbv beta iota.
  rewrite run_bind, emit_display_run by reflexivity. cbv beta iota.
  rewrite run_bind, delay32Ms_run. cbv beta iota.
  rewrite !after_events_app.
  erewrite (wait_for_joystick_center_click_run _ pre j rest);
    [| exact Hrest | assumption | assumption].
  eexists _, (shown_values (out w5)). split; [reflexivity |].
  split; [exact Hscore |]. split; [exact Hother |].
  split; [| reflexivity].
  cbn [out after_events after_joy set_out set_clock_us set_inputs].
  rewrite !shown_values_app, shown_values_delays, app_nil_r. reflexivity.
Qed.

(** X14.  A game of five answered rounds whose times are all below 10 ms,
    so that the text of each fits [reactionTimeMsString], runs to its end,
    on any board and from any state: [start_game] returns after the
    confirmation of the summary.  With [T1 .. T5] the measured times, the
    summary shows as "Avg" the sum of the times divided by 5 and as "Best"
    the score that the record rule gives when it is applied to [T1 .. T5]
    in turn from the score stored at the start, and that score is what the
    store holds at the end; no other cell of the store is written. *)
Theorem start_game_summary (rounds : list (list Z * Z * list Z * Z)) (w : World)
    (pre : list Z) (j : Z) (rest : list Z) :
  length rounds = 5%nat ->
  Forall round_answered rounds ->
  Forall (fun T => T < 10) (round_time <$> rounds) ->
  joy_in (inputs w) = flat_map round_joy rounds ++ pre ++ j :: rest ->
  Forall (fun s => confirm_pressed s = false) pre ->
  confirm_pressed j = true ->
  (5 <= length (light_in (inputs w)))%nat ->
  (5 <= length (rand_in (inputs w)))%nat ->
  let times := round_time <$> rounds in
  let total := fold_left total_after times 0 in
  let best := fold_left record_after times (stored_score (eeprom w)) in
  exists w' shown,
    start_game w = Some (tt, w') /\
    shown_values (out w') = shown ++ [("Avg"%string, total / 5); ("Best"%string, best)] /\
    stored_score (eeprom w') = best /\
    (forall a, a <> 8 -> a <> 9 -> eeprom w' a = eeprom w a).
Proof.
  intros Hlen Hans Hfit Hjoy Hpre Hj Hl Hr times total best.
  destruct (start_game_run rounds w pre j rest Hlen Hans Hfit Hjoy Hpre Hj Hl Hr)
    as (w' & shown & Hrun & Hscore & Hother & Hshown & _).
  exists w', shown. auto.
Qed.

Lemma fold_record_after_min (times : list Z) :
  forall h, 0 < h ->
    Forall (fun T => 1 <= T < 2 ^ 16) times ->
    fold_left record_after times h = fold_left Z.min times h.
Proof.
  induction times as [| T times IH]; intros h Hh Hall; [reflexivity |].
  apply Forall_cons in Hall as [HT Hall]. cbn [fold_left].
  assert (Hstep : record_after h T = Z.min h T).
  { unfold record_after, is_new_record.
    replace (h =? 0) with false by (symmetry; apply Z.eqb_neq; lia).
    rewrite orb_false_r. destruct (T <? h) eqn:Hlt.
    - apply Z.ltb_lt in Hlt. rewrite to_uint16_small by lia. lia.
    - apply Z.ltb_ge in Hlt. lia. }
  rewrite Hstep. apply IH; [lia | exact Hall].
Qed.

Lemma fold_total_after_sum (times : list Z) :
  forall t, 0 <= t ->
    Forall (fun T => 1 <= T < 2 ^ 16) times ->
    t + 2 ^ 16 * Z.of_nat (length times) < 2 ^ 32 ->
    fold_left total_after times t = fold_left Z.add times t.
Proof.
  induction times as [| T times IH]; intros t Ht Hall Hbound; [reflexivity |].
  apply Forall_cons in Hall as [HT Hall]. cbn [fold_left length] in *.
  unfold total_after at 2. rewrite to_uint32_small by lia.
  apply IH; [lia | exact Hall | lia].
Qed.

(** X15.  In a game whose five times all lie between 1 and 9 ms, started
    with a stored score other than 0, the summary shows the integer mean of
    the five times, and the score shown as "Best" and left in the store is
    the least of the stored score and the five times. *)
Theorem start_game_best_is_minimum (rounds : list (list Z * Z * list Z * Z))
    (w : World) (pre : list Z) (j : Z) (rest : list Z) :
  length rounds = 5%nat ->
  Forall round_answered rounds ->
  joy_in (inputs w) = flat_map round_joy rounds ++ pre ++ j :: rest ->
  Forall (fun s => confirm_pressed s = false) pre ->
  confirm_pressed j = true ->
  (5 <= length (light_in (inputs w)))%nat ->
  (5 <= length (rand_in (inputs w)))%nat ->
  stored_score (eeprom w) <> 0 ->
  Forall (fun T => 1 <= T < 10) (round_time <$> rounds) ->
  let times := round_time <$> rounds in
  let best := fold_left Z.min times (stored_score (eeprom w)) in
  exists w' shown,
    start_game w = Some (tt, w') /\
    shown_values (out w')
    = shown ++ [("Avg"%string, fold_left Z.add times 0 / 5); ("Best"%string, best)] /\
    stored_score (eeprom w') = best.
Proof.
  intros Hlen Hans Hjoy Hpre Hj Hl Hr Hscore0 Htimes times best.
  assert (Hfit : Forall (fun T => T < 10) (round_time <$> rounds)).
  { eapply Forall_impl; [exact Htimes |]. intros T HT. cbv beta in HT. lia. }
  assert (Hwide : Forall (fun T => 1 <= T < 2 ^ 16) (round_time <$> rounds)).
  { eapply Forall_impl; [exact Htimes |]. intros T HT. cbv beta in HT. lia. }
  destruct (start_game_run rounds w pre j rest Hlen Hans Hfit Hjoy Hpre Hj Hl Hr)
    as (w' & shown & Hrun & Hscore & _ & Hshown & _).
  cbv zeta in Hscore, Hshown. fold times in Hscore, Hshown.
  pose proof (stored_score_range (eeprom w)) as Hrange.
  rewrite (fold_record_after_min times) in Hscore, Hshown by (assumption || lia).
  rewrite (fold_total_after_sum times) in Hshown.
  - exists w', shown. auto.
  - lia.
  - exact Hwide.
  - subst times. rewrite length_fmap, Hlen. lia.
Qed.

(** X16.  A round answered in 0 ms, the confirm button being down at the
    first poll after the stimulus, is always a new record, and it leaves 0
    in the store; 0 is also the value that the record rule reads as "no
    score yet".  So the round that follows sets the record to its own time
    (a time below 10 ms, whose text fits its array), whatever the best
    score was before the two rounds, also when that was better. *)
Theorem zero_time_wipes_record (round totalTime : Z) (w : World)
    l1 l2 ls r1 r2 rs j pre2 j2 pre' j' pre2' j2' rest :
  light_in (inputs w) = l1 :: l2 :: ls ->
  rand_in (inputs w) = r1 :: r2 :: rs ->
  joy_in (inputs w) = j :: pre2 ++ j2 :: pre' ++ j' :: pre2' ++ j2' :: rest ->
  round_answered ([], j, pre2, j2) ->
  round_answered (pre', j', pre2', j2') ->
  (length pre' < 10)%nat ->
  let T := Z.of_nat (length pre') in
  exists round' totalTime' w',
    ('(round1, totalTime1, highScoreMs1) ←
       game_round round totalTime (stored_score (eeprom w));
     game_round round1 totalTime1 highScoreMs1) w
    = Some ((round', totalTime', T), w') /\
    stored_score (eeprom w') = T.
Proof.
  intros Hl Hr Hjoy (Hpre & Hj & Hpre2 & Hj2) (Hpre' & Hj' & Hpre2' & Hj2') Hfit T.
  cbn [fst snd] in *.
  destruct (game_round_run round totalTime (stored_score (eeprom w)) w
              l1 (l2 :: ls) r1 (r2 :: rs) [] j pre2 j2 _
              Hl Hr Hjoy Hpre Hj Hpre2 Hj2 ltac:(reflexivity))
    as (w1 & Hrun1 & Hee1 & Hjoy1 & Hl1 & Hr1).
  cbv zeta in Hrun1, Hee1. cbn [length] in Hrun1, Hee1.
  change (to_uint32 (Z.of_nat 0)) with 0 in Hrun1, Hee1.
  pose proof (stored_score_range (eeprom w)) as Hrange.
  assert (Hrec1 : is_new_record 0 (stored_score (eeprom w)) = true)
    by (apply is_new_record_spec; lia).
  rewrite Hrec1 in Hrun1, Hee1.
  change (to_uint16 0) with 0 in Hrun1.
  rewrite run_bind, Hrun1. cbv beta iota.
  assert (HT : to_uint32 (Z.of_nat (length pre')) = T)
    by (apply to_uint32_small; subst T; lia).
  destruct (game_round_run (to_uint8 (round + 1)) (to_uint32 (totalTime + 0)) 0 w1
              l2 ls r2 rs pre' j' pre2' j2' rest
              Hl1 Hr1 Hjoy1 Hpre' Hj' Hpre2' Hj2' ltac:(rewrite HT; subst T; lia))
    as (w2 & Hrun2 & Hee2 & _).
  cbv zeta in Hrun2, Hee2. rewrite HT in Hrun2, Hee2.
  assert (Hrec2 : is_new_record T 0 = true)
    by (apply is_new_record_spec; right; reflexivity).
  rewrite Hrec2 in Hrun2, Hee2.
  rewrite (to_uint16_small T) in Hrun2 by (subst T; lia).
  eexists _, _, w2. split; [exact Hrun2 |].
  rewrite Hee2, stored_score_store_score. apply to_uint16_small. subst T. lia.
Qed.

End Session.

Lemma start_game_summary_witness :
  exists w' shown,
    @start_game xpresso_board
      (world_with (mkInputs [0; 0; 0; 1; 1; 0; 0; 1; 0; 1; 1; 1; 0; 1; 1; 0; 1; 1; 1]
                     [200; 200; 200; 200; 200] [] [0; 1; 2; 3; 4]))
    = Some (tt, w') /\
    shown_values (out w') = shown ++ [("Avg"%string, 1); ("Best"%string, 1)] /\
    stored_score (eeprom w') = 1.
Proof.
  destruct (@start_game_summary xpresso_board
              [([0; 0; 0], 1, [], 1); ([0; 0], 1, [0], 1); ([], 1, [], 1);
               ([0], 1, [], 1); ([0], 1, [], 1)]
              (world_with (mkInputs [0; 0; 0; 1; 1; 0; 0; 1; 0; 1; 1; 1; 0; 1; 1; 0; 1; 1; 1]
                             [200; 200; 200; 200; 200] [] [0; 1; 2; 3; 4]))
              [] 1 [])
    as (w' & shown & Hrun & Hshown & Hscore & _).
  - reflexivity.
  - repeat constructor.
  - repeat constructor.
  - reflexivity.
  - constructor.
  - reflexivity.
  - cbn. lia.
  - cbn. lia.
  - exists w', shown. split; [exact Hrun |]. split; [exact Hshown | exact Hscore].
Defined.

Lemma start_game_best_is_minimum_witness :
  exists w' shown,
    @start_game xpresso_board
      (world_with (mkInputs [0; 0; 0; 1; 1; 0; 0; 1; 0; 1; 0; 1; 1; 0; 1; 1; 0; 0; 1; 1; 1]
                     [200; 200; 200; 200; 200] [] [0; 1; 2; 3; 4]))
    = Some (tt, w') /\
    shown_values (out w') = shown ++ [("Avg"%string, 1); ("Best"%string, 1)] /\
    stored_score (eeprom w') = 1.
Proof.
  destruct (@start_game_best_is_minimum xpresso_board
              [([0; 0; 0], 1, [], 1); ([0; 0], 1, [0], 1); ([0], 1, [], 1);
               ([0], 1, [], 1); ([0; 0], 1, [], 1)]
              (world_with (mkInputs [0; 0; 0; 1; 1; 0; 0; 1; 0; 1; 0; 1; 1; 0; 1; 1; 0; 0; 1; 1; 1]
                             [200; 200; 200; 200; 200] [] [0; 1; 2; 3; 4]))
              [] 1 [])
    as (w' & shown & Hrun & Hshown & Hscore).
  - reflexivity.
  - repeat constructor.
  - reflexivity.
  - constructor.
  - reflexivity.
  - cbn. lia.
  - cbn. lia.
  - vm_compute. discriminate.
  - repeat constructor; vm_compute; (discriminate || reflexivity).
  - exists w', shown. split; [exact Hrun |]. split; [exact Hshown | exact Hscore].
Defined.

Lemma zero_time_wipes_record_witness :
  exists round' totalTime' w',
    ('(round1, totalTime1, highScoreMs1) ← @game_round xpresso_board 0 0 200;
     @game_round xpresso_board round1 totalTime1 highScoreMs1)
      (set_eeprom (store_score 200 (fun _ => 0))
         (world_with (mkInputs [1; 1; 0; 0; 0; 1; 1] [200; 200] [] [7; 8])))
    = Some ((round', totalTime', 3), w') /\
    stored_score (eeprom w') = 3.
Proof.
  apply (@zero_time_wipes_record xpresso_board 0 0
           (set_eeprom (store_score 200 (fun _ => 0))
              (world_with (mkInputs [1; 1; 0; 0; 0; 1; 1] [200; 200] [] [7; 8])))
           200 200 [] 7 8 [] 1 [] 1 [0; 0; 0] 1 [] 1 []).
  - reflexivity.
  - reflexivity.
  - reflexivity.
  - repeat constructor.
  - repeat constructor.
  - cbn. lia.
Defined.

(** ** The main menu *)

Lemma play_star_wars_theme_run (w : World) :
  exists evs, play_star_wars_theme w = Some (tt, after_events evs w).
Proof.
  unfold play_star_wars_theme. cbv [note_at notes nth].
  do 17 (rewrite run_bind, play_note_tone_run by lia; cbv beta iota;
         rewrite ?after_events_app).
  rewrite play_note_tone_run by lia. rewrite after_events_app.
  eexists. reflexivity.
Qed.

Section MainMenu.
Context {board : Board}.

(** A wait that ends has seen the confirm bit set, and has only taken
    joystick samples and let time pass. *)
Lemma wait_for_joystick_center_click_inv (w w' : World) :
  wait_for_joystick_center_click w = Some (tt, w') ->
  exists pre j rest,
    joy_in (inputs w) = pre ++ j :: rest /\
    Forall (fun s => confirm_pressed s = false) pre /\
    confirm_pressed j = true /\
    w' = after_events (replicate (length pre) (EvDelayMs 1)) (after_joy rest w).
Proof.
  intros Hrun.
  destruct (decide (Forall (fun s => confirm_pressed s = false) (joy_in (inputs w))))
    as [Hall | Hnot].
  - unfold wait_for_joystick_center_click in Hrun.
    rewrite (wait_loop_released _ w Hall) in Hrun. discriminate.
  - destruct (first_pressed _ Hnot) as (pre & j & rest & Hjoy & Hpre & Hj).
    rewrite (wait_for_joystick_center_click_run w pre j rest Hjoy Hpre Hj) in Hrun.
    injection Hrun as <-. exists pre, j, rest. auto.
Qed.

(** What an entry of the menu does to the state, when it ends. *)
Lemma menu_dispatch_effect (selection : Z) (w w' : World) (exit : bool) :
  menu_dispatch selection w = Some (exit, w') ->
  exit = (selection =? 4) /\
  (selection <> 0 ->
     selectedIndex w' = selectedIndex w /\ tilt w' = tilt w /\ theme w' = theme w /\
     eeprom w' = (if selection =? 1 then store_score 9999 (eeprom w) else eeprom w)).
Proof.
  unfold menu_dispatch.
  destruct (selection =? 0) eqn:H0.
  { apply Z.eqb_eq in H0. subst selection. rewrite run_bind.
    destruct (start_game w) as [[[] w1] |]; [| discriminate].
    intros Hrun. injection Hrun as <- <-. split; [reflexivity |].
    intros Hne. contradiction. }
  destruct (selection =? 1) eqn:H1.
  { apply Z.eqb_eq in H1. subst selection.
    rewrite run_bind, set_high_score_run. cbv beta iota.
    run_step oled_putString_run.
    rewrite run_bind, delay32Ms_run. cbv beta iota.
    intros Hrun. injection Hrun as <- <-. split; [reflexivity |].
    intros _. repeat split. }
  destruct (selection =? 2) eqn:H2.
  { apply Z.eqb_eq in H2. subst selection.
    run_step oled_putString_run.
    rewrite run_bind, read_high_score_run. cbv beta iota.
    run_step oled_putValue_run.
    rewrite run_bind, delay32Ms_run. cbv beta iota.
    rewrite run_bind.
    match goal with
    | |- match wait_for_joystick_center_click ?w0 with _ => _ end = _ -> _ =>
        destruct (wait_for_joystick_center_click w0) as [[[] w1] |] eqn:Hwait;
          [| discriminate]
    end.
    apply wait_for_joystick_center_click_inv in Hwait as (pre & j & rest & _ & _ & _ & ->).
    intros Hrun. injection Hrun as <- <-. split; [reflexivity |].
    intros _. repeat split. }
  destruct (selection =? 3) eqn:H3.
  { apply Z.eqb_eq in H3. subst selection.
    run_step oled_putString_run.
    run_step oled_putString_run.
    run_step oled_putString_run.
    rewrite run_bind.
    match goal with
    | |- match play_star_wars_theme ?w0 with _ => _ end = _ -> _ =>
        destruct (play_star_wars_theme_run w0) as (evs & ->)
    end.
    intros Hrun. injection Hrun as <- <-. split; [reflexivity |].
    intros _. repeat split. }
  destruct (selection =? 4) eqn:H4.
  { apply Z.eqb_eq in H4. subst selection.
    run_step oled_putString_run.
    cbv [note_at notes nth].
    do 3 (rewrite run_bind, play_note_tone_run by lia; cbv beta iota).
    rewrite run_bind, delay32Ms_run. cbv beta iota.
    run_step oled_clearScreen_run.
    intros Hrun. injection Hrun as <- <-. split; [reflexivity |].
    intros _. repeat split. }
  intros Hrun. injection Hrun as <- <-. split; [reflexivity |].
  intros _. repeat split.
Qed.

(** X17.  [show_main_menu] returns only through the entry "Exit":
    whatever the board, the state and the samples, when it returns the
    menu index is 4 ([MENU_EXIT]). *)
Theorem show_main_menu_exit (w w' : World) :
  show_main_menu w = Some (tt, w') ->
  selectedIndex w' = 4.
Proof.
  unfold show_main_menu. generalize (S (length (joy_in (inputs w)))).
  intros fuel. revert w.
  induction fuel as [| fuel IH]; intros w Hrun; [discriminate |].
  cbn [show_main_menu_loop] in Hrun.
  rewrite run_bind, draw_menu_run in Hrun. cbv beta iota in Hrun.
  rewrite run_bind in Hrun.
  match type of Hrun with
  | match handle_menu ?w0 with _ => _ end = _ =>
      destruct (handle_menu w0) as [[selection w1] |] eqn:Hmenu; [| discriminate]
  end.
  unfold handle_menu in Hmenu.
  apply handle_menu_loop_inv in Hmenu as (_ & _ & _ & _ & _ & _ & Hsel).
  rewrite run_bind, oled_clearScreen_run in Hrun. cbv beta iota in Hrun.
  revert Hrun. cbv [note_at notes nth].
  rewrite run_bind, play_note_tone_run by lia. cbv beta iota.
  rewrite run_bind.
  match goal with
  | |- match menu_dispatch _ ?w2 with _ => _ end = _ -> _ =>
      destruct (menu_dispatch selection w2) as [[exit w3] |] eqn:Hdispatch;
        [| discriminate]
  end.
  apply menu_dispatch_effect in Hdispatch as [-> Heffect].
  destruct (selection =? 4) eqn:H4.
  - apply Z.eqb_eq in H4. intros Hrun. injection Hrun as <-.
    destruct Heffect as (Hidx & _); [lia |].
    rewrite Hidx. cbn. rewrite <- Hsel. exact H4.
  - apply IH.
Qed.

(** X18.  When an entry of the main menu ends, the menu loop is left
    exactly for entry 4 ("Exit").  Every entry but "Start game" leaves the
    menu index, the calibration and the palette as they were; "Reset
    score" writes 9999 to the two cells of the score, and the entries from
    2 on ("High score", "Credits", "Exit" and any other value) leave the
    store as it was. *)
Theorem menu_dispatch_store (selection : Z) (w w' : World) (exit : bool) :
  menu_dispatch selection w = Some (exit, w') ->
  (exit = true <-> selection = 4) /\
  (selection <> 0 ->
     selectedIndex w' = selectedIndex w /\ tilt w' = tilt w /\ theme w' = theme w) /\
  (selection = 1 ->
     stored_score (eeprom w') = 9999 /\
     forall a, a <> 8 -> a <> 9 -> eeprom w' a = eeprom w a) /\
  (selection <> 0 -> selection <> 1 -> eeprom w' = eeprom w).
Proof.
  intros Hrun. apply menu_dispatch_effect in Hrun as [-> Heffect].
  split; [split; [apply Z.eqb_eq | apply Z.eqb_eq] |].
  split; [intros H0; destruct (Heffect H0) as (? & ? & ? & _); auto |].
  split.
  - intros ->. destruct Heffect as (_ & _ & _ & Hee); [lia |].
    change (1 =? 1) with true in Hee. cbv iota in Hee. rewrite Hee.
    split; [apply stored_score_store_score |].
    intros a H8 H9. unfold store_score.
    rewrite !fn_lookup_insert_ne by congruence. reflexivity.
  - intros H0 H1. destruct (Heffect H0) as (_ & _ & _ & Hee).
    replace (selection =? 1) with false in Hee by (symmetry; apply Z.eqb_neq; exact H1).
    exact Hee.
Qed.

End MainMenu.

Lemma show_main_menu_exit_witness :
  exists w',
    @show_main_menu xpresso_board
      (world_with (mkInputs [0; 0x02; 0; 0x01] [200; 200; 200]
                     [(0, 0, 64); (0, 0, 64); (0, 0, 64)] []))
    = Some (tt, w') /\
    selectedIndex w' = 4.
Proof.
  destruct (@show_main_menu xpresso_board
              (world_with (mkInputs [0; 0x02; 0; 0x01] [200; 200; 200]
                             [(0, 0, 64); (0, 0, 64); (0, 0, 64)] [])))
    as [[[] w'] |] eqn:Hrun; [| vm_compute in Hrun; discriminate Hrun].
  exists w'. split; [reflexivity |].
  exact (@show_main_menu_exit xpresso_board _ _ Hrun).
Defined.

Lemma menu_dispatch_store_witness :
  exists w',
    @menu_dispatch xpresso_board 1 idle_world = Some (false, w') /\
    stored_score (eeprom w') = 9999.
Proof.
  destruct (@menu_dispatch xpresso_board 1 idle_world)
    as [[exit w'] |] eqn:Hrun; [| vm_compute in Hrun; discriminate Hrun].
  destruct (@menu_dispatch_store xpresso_board 1 idle_world w' exit Hrun)
    as (Hexit & _ & Hreset & _).
  exists w'. split; [| apply Hreset; reflexivity].
  destruct exit; [| reflexivity].
  destruct Hexit as [Hexit _]. specialize (Hexit eq_refl). discriminate Hexit.
Defined.

(** ** Start-up *)

(** A loop whose body only puts out events. *)
Lemma for_each_run {A : Type} (body : A -> M unit) (evs : A -> Theme -> list event)
    (l : list A) :
  (forall a w, body a w = Some (tt, after_events (evs a (theme w)) w)) ->
  forall w,
    for_each l body w
    = Some (tt, after_events (flat_map (fun a => evs a (theme w)) l) w).
Proof.
  intros Hbody. induction l as [| a l IH]; intros w.
  - cbn [for_each flat_map]. rewrite after_events_nil. reflexivity.
  - cbn [for_each flat_map]. rewrite run_bind, Hbody. cbv beta iota.
    rewrite IH, after_events_app. reflexivity.
Qed.

(** The animation only draws, plays and waits; the calibration at its end
    takes one accelerometer sample. *)
Lemma play_startup_animation_run (w : World) x y z accs :
  acc_in (inputs w) = (x, y, z) :: accs ->
  exists evs,
    play_startup_animation w
    = Some (tt, set_tilt (mkTilt (to_int8 (- to_int8 x)) (to_int8 (- to_int8 y))
                                 (to_int8 (64 - to_int8 z))
                                 (to_int8 x) (to_int8 y) (to_int8 z))
                  (after_acc accs (after_events evs w))) /\
    delays_us evs = 100300 + 27 * 300000.
Proof.
  intros Hacc. unfold play_startup_animation. cbv [note_at notes nth].
  rewrite run_bind, play_note_tone_run by lia. cbv beta iota.
  rewrite run_bind.
  rewrite (for_each_run _
             (fun str t =>
                flat_map (fun frame =>
                            [EvOled (OledClear (backgroundColor t));
                             EvOled (OledText str (fontColor t) (backgroundColor t));
                             EvOled (OledText frame (fontColor t) (backgroundColor t));
                             EvDelayMs 300]) startup_frames)).
  2:{ intros str w0.
      rewrite (for_each_run _
                 (fun frame t =>
                    [EvOled (OledClear (backgroundColor t));
                     EvOled (OledText str (fontColor t) (backgroundColor t));
                     EvOled (OledText frame (fontColor t) (backgroundColor t));
                     EvDelayMs 300])); [reflexivity |].
      intros frame w1.
      run_step oled_clearScreen_run.
      run_step oled_putString_run.
      run_step oled_putString_run.
      rewrite delay32Ms_run, !after_events_app. reflexivity. }
  cbv beta iota. rewrite after_events_app.
  eexists. split.
  - apply init_tilt_calibration_run. exact Hacc.
  - rewrite delays_us_app. vm_compute. reflexivity.
Qed.

Section Boot.
Context {board : Board}.

(** X19.  What [main] has done when the welcome screen comes up, on any
    board and from any state of the colour variables: of the light samples
    the first has gone to [srand] and the second has chosen the palette,
    which is one of the two valid ones; the start-up animation has taken
    8200300 microseconds of delays (27 frames of 300 ms and a tone of
    100300 microseconds), or more if the palette changed; the tilt
    offsets are the negated first accelerometer sample; the store has not
    been written; the joystick has not been read. *)
Theorem main_boot (w : World) l0 l1 ls x y z accs :
  light_in (inputs w) = l0 :: l1 :: ls ->
  acc_in (inputs w) = (x, y, z) :: accs ->
  exists w1,
    (light_read;; clear_led_bar;; adjust_theme;; play_startup_animation) w
    = Some (tt, w1) /\
    main w = (show_welcome_screen;; show_main_menu;; mret 0) w1 /\
    theme w1 = palette_for (to_uint32 l1) /\
    xOffset (tilt w1) = to_int8 (- to_int8 x) /\
    yOffset (tilt w1) = to_int8 (- to_int8 y) /\
    eeprom w1 = eeprom w /\
    joy_in (inputs w1) = joy_in (inputs w) /\
    light_in (inputs w1) = ls /\
    acc_in (inputs w1) = accs /\
    clock_us w + 8200300 <= clock_us w1.
Proof.
  intros Hl Hacc.
  assert (Hprefix : exists w1,
            (light_read;; clear_led_bar;; adjust_theme;; play_startup_animation) w
            = Some (tt, w1) /\
            theme w1 = palette_for (to_uint32 l1) /\
            xOffset (tilt w1) = to_int8 (- to_int8 x) /\
            yOffset (tilt w1) = to_int8 (- to_int8 y) /\
            eeprom w1 = eeprom w /\
            joy_in (inputs w1) = joy_in (inputs w) /\
            light_in (inputs w1) = ls /\
            acc_in (inputs w1) = accs /\
            clock_us w + 8200300 <= clock_us w1).
  { rewrite run_bind. unfold light_read at 1. rewrite Hl.
    unfold clear_led_bar.
    rewrite run_bind, emit_display_run by reflexivity. cbv beta iota.
    set (w0 := after_events _ _).
    assert (Hadj : exists r evs,
              adjust_theme w0
              = Some (r, after_events evs
                           (set_theme (palette_for (to_uint32 l1)) (after_light ls w0))) /\
              0 <= delays_us evs).
    { rewrite (adjust_theme_run w0 l1 ls eq_refl). cbv zeta.
      destruct (decide _).
      - exists 0, []. rewrite after_events_nil. split; [reflexivity | reflexivity].
      - exists 1, change_tone. split; [reflexivity | vm_compute; discriminate]. }
    destruct Hadj as (r & evs & Hadj & Hevs).
    rewrite run_bind, Hadj. cbv beta iota.
    set (w2 := after_events evs _).
    destruct (play_startup_animation_run w2 x y z accs Hacc) as (evs' & Hrun & Hdelays).
    exists (set_tilt (mkTilt (to_int8 (- to_int8 x)) (to_int8 (- to_int8 y))
                             (to_int8 (64 - to_int8 z))
                             (to_int8 x) (to_int8 y) (to_int8 z))
              (after_acc accs (after_events evs' w2))).
    split; [exact Hrun |].
    repeat (split; [reflexivity |]).
    cbn [clock_us set_tilt after_acc set_inputs after_events set_clock_us set_out].
    rewrite Hdelays. subst w2 w0.
    cbn [clock_us set_tilt after_light set_theme set_inputs after_events
           set_clock_us set_out].
    change (delays_us [EvLeds 0]) with 0. lia. }
  destruct Hprefix as (w1 & Hrun & Hfacts).
  exists w1. split; [exact Hrun |]. split; [| exact Hfacts].
  unfold main.
  rewrite run_bind in Hrun. rewrite run_bind.
  destruct (light_read w) as [[? wa] |]; [| discriminate Hrun].
  rewrite run_bind in Hrun. rewrite run_bind.
  destruct (clear_led_bar wa) as [[? wb] |]; [| discriminate Hrun].
  rewrite run_bind in Hrun. rewrite run_bind.
  destruct (adjust_theme wb) as [[? wc] |]; [| discriminate Hrun].
  rewrite run_bind, Hrun. reflexivity.
Qed.

End Boot.

Lemma main_boot_witness :
  exists w1,
    (light_read;; clear_led_bar;; adjust_theme;; play_startup_animation)
      (world_with (mkInputs [] [300; 20] [(5, -7, 60)] []))
    = Some (tt, w1) /\
    theme w1 = night_theme /\
    xOffset (tilt w1) = -5 /\ yOffset (tilt w1) = 7.
Proof.
  destruct (@main_boot xpresso_board
              (world_with (mkInputs [] [300; 20] [(5, -7, 60)] []))
              300 20 [] 5 (-7) 60 [] eq_refl eq_refl)
    as (w1 & Hrun & _ & Htheme & Hx & Hy & _).
  exists w1. split; [exact Hrun |]. split; [exact Htheme |].
  split; [exact Hx | exact Hy].
Defined.

(** ** Text buffers *)

(** [decimal_length] counts decimal digits: a positive [uint32_t] value
    lies between the powers of ten that its count of digits gives. *)
Lemma decimal_length_from_spec (fuel : nat) :
  forall n, 0 < n < 10 ^ (Z.of_nat fuel + 1) ->
    10 ^ (decimal_length_from fuel n - 1) <= n < 10 ^ decimal_length_from fuel n.
Proof.
  induction fuel as [| fuel IH]; intros n Hn.
  - cbn [decimal_length_from]. change (10 ^ (Z.of_nat 0 + 1)) with 10 in Hn.
    change (10 ^ (1 - 1)) with 1. change (10 ^ 1) with 10. lia.
  - cbn [decimal_length_from].
    destruct (n <? 10) eqn:Hlt; [apply Z.ltb_lt in Hlt | apply Z.ltb_ge in Hlt].
    + change (10 ^ (1 - 1)) with 1. change (10 ^ 1) with 10. lia.
    + assert (Hq : 0 < n / 10 < 10 ^ (Z.of_nat fuel + 1)).
      { replace (Z.of_nat (S fuel) + 1) with (Z.succ (Z.of_nat fuel + 1)) in Hn by lia.
        rewrite Z.pow_succ_r in Hn by lia.
        split; [apply Z.div_str_pos; lia |].
        apply Z.div_lt_upper_bound; lia. }
      specialize (IH (n / 10) Hq).
      pose proof (decimal_length_from_pos fuel (n / 10)) as Hpos.
      set (d := decimal_length_from fuel (n / 10)) in *.
      replace (1 + d - 1) with (Z.succ (d - 1)) by lia.
      replace (1 + d) with (Z.succ d) by lia.
      rewrite !Z.pow_succ_r by lia.
      pose proof (Z.div_mod n 10 ltac:(lia)) as Hdiv.
      pose proof (Z.mod_pos_bound n 10 ltac:(lia)) as Hmod.
      lia.
Qed.

Lemma decimal_length_spec (n : Z) :
  0 < n < 2 ^ 32 ->
  10 ^ (decimal_length n - 1) <= n < 10 ^ decimal_length n.
Proof.
  intros Hn. apply decimal_length_from_spec.
  change (10 ^ (Z.of_nat 9 + 1)) with 10000000000.
  change (2 ^ 32) with 4294967296 in Hn. lia.
Qed.

(** X20.  The text of a round's result fits its buffer of 5 bytes only for
    a time below 10 ms: [sprintf] and [strcat] write the digits of the time,
    the three characters [" ms"] and the terminating 0, which is 5 bytes
    for one digit and more for every time of 10 ms and above. *)
Theorem reactionTimeMsString_fits (reactionTimeMs : Z) :
  reactionTimeMsString_bytes reactionTimeMs <= reactionTimeMsString_size
  <-> to_uint32 reactionTimeMs < 10.
Proof.
  unfold reactionTimeMsString_bytes, reactionTimeMsString_size, decimal_length.
  change (Z.of_nat (String.length " ms")) with 3.
  change (decimal_length_from 9 (to_uint32 reactionTimeMs))
    with (if to_uint32 reactionTimeMs <? 10 then 1
          else 1 + decimal_length_from 8 (to_uint32 reactionTimeMs / 10)).
  destruct (to_uint32 reactionTimeMs <? 10) eqn:Hlt.
  - apply Z.ltb_lt in Hlt. lia.
  - apply Z.ltb_ge in Hlt.
    pose proof (decimal_length_from_pos 8 (to_uint32 reactionTimeMs / 10)). lia.
Qed.

Lemma decimal_length_digits (n : Z) :
  0 <= n < 2 ^ 16 ->
  decimal_length n
  = if n <? 10 then 1 else if n <? 100 then 2 else if n <? 1000 then 3
    else if n <? 10000 then 4 else 5.
Proof.
  intros Hn. change (2 ^ 16) with 65536 in Hn.
  unfold decimal_length. cbn [decimal_length_from].
  repeat match goal with
         | |- context [?a <? ?b] =>
             let H := fresh "H" in
             destruct (a <? b) eqn:H;
             [apply Z.ltb_lt in H | apply Z.ltb_ge in H]
         end;
    try reflexivity; exfalso; Z.div_mod_to_equations; lia.
Qed.

(** X21.  The text of the stored score, which the welcome screen and the
    entry "High score" build with [sprintf] in a buffer of 8 bytes, fits
    only for a score below 10000: a score of five digits needs 9 bytes.
    The reset value 9999 fits; the score of an erased store, both cells
    0xFF, is 65535 and does not. *)
Theorem highScoreMsString_fits (e : Z -> Z) :
  (highScoreMsString_bytes (stored_score e) <= highScoreMsString_size
   <-> stored_score e < 10000) /\
  highScoreMsString_bytes (stored_score (store_score 9999 e)) = 8 /\
  (to_uint8 (e 8) = 0xFF -> to_uint8 (e 9) = 0xFF ->
   stored_score e = 65535 /\ highScoreMsString_bytes (stored_score e) = 9).
Proof.
  assert (Hbytes : forall h, 0 <= h < 2 ^ 16 ->
            highScoreMsString_bytes h
            = (if h <? 10 then 1 else if h <? 100 then 2 else if h <? 1000 then 3
               else if h <? 10000 then 4 else 5) + 4).
  { intros h Hh. unfold highScoreMsString_bytes.
    rewrite (to_uint16_small h) by lia.
    rewrite decimal_length_digits by exact Hh.
    change (Z.of_nat (String.length " ms")) with 3. lia. }
  pose proof (stored_score_range e) as Hrange.
  split; [| split].
  - rewrite Hbytes by exact Hrange. unfold highScoreMsString_size.
    repeat match goal with
           | |- context [?a <? ?b] =>
               let H := fresh "H" in
               destruct (a <? b) eqn:H;
               [apply Z.ltb_lt in H | apply Z.ltb_ge in H]
           end; lia.
  - rewrite stored_score_store_score. reflexivity.
  - intros H8 H9.
    assert (Hscore : stored_score e = 65535).
    { unfold stored_score. rewrite H8, H9. reflexivity. }
    rewrite Hscore. split; reflexivity.
Qed.
